(** * MakeUrlShort: the resilient serving layer

    A shallow embedding of the backend of the URL shortener:

    - [src/config/redis.config.js]   the [cacheService] wrappers around ioredis,
    - [src/dao/shortUrl.js]          [saveShortUrl] and [getShortUrl] on MongoDB,
    - [src/services/cacheService.js] the circuit breaker, the performance
                                     monitor and [urlCacheService],
    - [src/services/shorturlService.js] [createShortUrlWithoutUser],
    - [src/middleware/rateLimiter.js] and [app.js]: the admission middlewares.

    JavaScript promises are modelled by a state-and-outcome monad over one
    [World] (clock, Redis, MongoDB, breaker, monitor, timers, admission
    counters).  The behaviour of the two external dependencies (latency,
    rejection, no answer at all) and of [nanoid] is read from an [Env].
    Counters and timestamps are integers; the token bucket, which computes
    with fractions of a token, is modelled on IEEE 754 doubles. *)

From Stdlib Require Import ZArith QArith Qround Qminmax Qpower String List Bool Lia Lqa.
From Stdlib Require Import SpecFloat.
From stdpp Require Import gmap strings pretty.
Import ListNotations.

Open Scope Z_scope.

(** ** Values *)

(** A JavaScript [Error]: its [message] and, for driver errors, a [code]. *)
Record Err := mkErr { message : string; code : option Z }.

Definition Error (msg : string) : Err := mkErr msg None.

(** A promise is resolved, rejected (a [throw] in an async function) or
    never settles. *)
Inductive Outcome (A : Type) : Type :=
| Resolved (a : A)
| Rejected (e : Err)
| Pending.

Arguments Resolved {A} a.
Arguments Rejected {A} e.
Arguments Pending {A}.

(** [String.prototype.includes]. *)
Fixpoint includes (s sub : string) : bool :=
  if String.prefix sub s then true
  else match s with
       | EmptyString => false
       | String _ s' => includes s' sub
       end.

(** ** Numbers

    A JavaScript number is an IEEE 754 binary64 value.  The token bucket
    computes with fractions of a token, so its arithmetic is modelled on
    doubles: a [spec_float] of the standard library is a signed zero, a
    signed infinity, [NaN] or a sign, a mantissa and a binary exponent, and
    [SFadd], [SFsub], [SFmul] and [SFdiv] at precision 53 and [emax] 1024
    round to nearest, ties to even, as the JavaScript operators do. *)
Definition float := spec_float.

Definition fadd : float -> float -> float := SFadd 53 1024.
Definition fsub : float -> float -> float := SFsub 53 1024.
Definition fmul : float -> float -> float := SFmul 53 1024.
Definition fdiv : float -> float -> float := SFdiv 53 1024.

(** The double nearest to an integer: integer literals, and the integer
    timestamps of [Date.now()]. *)
Definition of_Z (n : Z) : float := binary_normalize 53 1024 n 0 false.

(** The rational number a finite double stands for. *)
Definition F2Q (s : bool) (m : positive) (e : Z) : Q :=
  (inject_Z (cond_Zopp s (Zpos m)) * 2 ^ e)%Q.

Definition fvalue (x : float) : option Q :=
  match x with
  | S754_zero _ => Some 0%Q
  | S754_finite s m e => Some (F2Q s m e)
  | _ => None
  end.

(** [x <= y]: false as soon as one side is [NaN]. *)
Definition fle (x y : float) : bool :=
  match x, y with
  | S754_nan, _ | _, S754_nan => false
  | S754_infinity true, _ => true
  | _, S754_infinity false => true
  | S754_infinity false, _ => false
  | _, S754_infinity true => false
  | _, _ => match fvalue x, fvalue y with
            | Some a, Some b => Qle_bool a b
            | _, _ => false
            end
  end.

(** [Math.min(x, y)] and [Math.max(x, y)]. *)
Definition fmin (x y : float) : float :=
  match x, y with
  | S754_nan, _ | _, S754_nan => S754_nan
  | S754_zero sx, S754_zero sy => S754_zero (sx || sy)
  | _, _ => if fle x y then x else y
  end.

Definition fmax (x y : float) : float :=
  match x, y with
  | S754_nan, _ | _, S754_nan => S754_nan
  | S754_zero sx, S754_zero sy => S754_zero (sx && sy)
  | _, _ => if fle x y then y else x
  end.

(** [Math.floor(x)] and [Math.ceil(x)]: the integer is a double again. *)
Definition ffloor (x : float) : float :=
  match x with
  | S754_finite s m e => binary_normalize 53 1024 (Qfloor (F2Q s m e)) 0 s
  | _ => x
  end.

Definition fceil (x : float) : float :=
  match x with
  | S754_finite s m e => binary_normalize 53 1024 (Qceiling (F2Q s m e)) 0 s
  | _ => x
  end.

(** A number after [JSON.stringify] and [JSON.parse]: [NaN] and the
    infinities become [null], [-0] becomes [0]. *)
Definition json_number (x : float) : option float :=
  match x with
  | S754_nan | S754_infinity _ => None
  | S754_zero _ => Some (S754_zero false)
  | S754_finite _ _ _ => Some x
  end.

(** The same for a number that holds an integer, such as a [Math.ceil]. *)
Definition json_integer (x : float) : option Z := Qfloor <$> fvalue x.

(** A double: at most 53 bits of mantissa below the largest exponent. *)
Definition is_double (x : float) : Prop :=
  match x with
  | S754_finite _ m e => Zpos (digits2_pos m) <= 53 /\ e <= 971
  | _ => True
  end.

(** The sign of a number other than [NaN]. *)
Definition has_sign (s : bool) (x : float) : Prop :=
  match x with
  | S754_zero s' | S754_infinity s' | S754_finite s' _ _ => s' = s
  | S754_nan => False
  end.

(** [0 <= x]. *)
Definition nonneg (x : float) : Prop := fle (S754_zero false) x = true.

(** The document of [shorturlSchema.js], also the shape of the objects the
    services cache under [url:<code>]. *)
Record UrlData := mkUrlData {
  full_url : string;
  short_url : string;
  clicks : Z;
  user : option string;
  createdAt : option Z
}.

(** What [JSON.parse] gives back for the values this program stores in Redis:
    mappings, token buckets (a [NaN] is serialised as [null], hence the
    option), analytics records and the integers written by INCR. *)
Inductive JsonVal : Type :=
| JNull
| JBool (b : bool)
| JNum (n : Z)
| JUrl (d : UrlData)
| JBucket (tokens : option float) (ts : Z)
| JAnalytics (totalClicks : Z) (dailyClicks : gmap string Z).

(** JavaScript truthiness, as used by [data ? ... : null], [x || dflt] and
    [if (urlData)]. *)
Definition truthy (v : JsonVal) : bool :=
  match v with
  | JNull => false
  | JBool b => b
  | JNum n => negb (n =? 0)
  | _ => true
  end.

(** ** The circuit breaker object (cacheService.js, class CircuitBreaker) *)

Inductive BreakerState := CLOSED | OPEN | HALF_OPEN.

Record CircuitBreaker := mkBreaker {
  failureThreshold : Z;
  recoveryTimeout : Z;
  failureCount : Z;
  lastFailureTime : option Z;
  state : BreakerState;
  successCount : Z;
  minSuccessCount : Z
}.

(** [constructor(failureThreshold = 10, recoveryTimeout = 60000)]. *)
Definition new_CircuitBreaker (threshold timeout : Z) : CircuitBreaker :=
  {| failureThreshold := threshold;
     recoveryTimeout := timeout;
     failureCount := 0;
     lastFailureTime := None;
     state := CLOSED;
     successCount := 0;
     minSuccessCount := 3 |}.

Definition onSuccess (cb : CircuitBreaker) : CircuitBreaker :=
  match state cb with
  | HALF_OPEN =>
      let sc := successCount cb + 1 in
      {| failureThreshold := failureThreshold cb;
         recoveryTimeout := recoveryTimeout cb;
         failureCount := 0;
         lastFailureTime := lastFailureTime cb;
         state := if minSuccessCount cb <=? sc then CLOSED else HALF_OPEN;
         successCount := sc;
         minSuccessCount := minSuccessCount cb |}
  | _ =>
      {| failureThreshold := failureThreshold cb;
         recoveryTimeout := recoveryTimeout cb;
         failureCount := 0;
         lastFailureTime := lastFailureTime cb;
         state := CLOSED;
         successCount := successCount cb;
         minSuccessCount := minSuccessCount cb |}
  end.

(** [onFailure()]; [t] is the value of [Date.now()] read inside it. *)
Definition onFailure (t : Z) (cb : CircuitBreaker) : CircuitBreaker :=
  let fc := failureCount cb + 1 in
  {| failureThreshold := failureThreshold cb;
     recoveryTimeout := recoveryTimeout cb;
     failureCount := fc;
     lastFailureTime := Some t;
     state := if failureThreshold cb <=? fc then OPEN else state cb;
     successCount := successCount cb;
     minSuccessCount := minSuccessCount cb |}.

(** The test at the head of [execute]: [Some] breaker to go on with, or [None]
    when the call is refused.  [Date.now() - null] is [Date.now()]. *)
Definition execute_gate (t : Z) (cb : CircuitBreaker) : option CircuitBreaker :=
  match state cb with
  | OPEN =>
      if recoveryTimeout cb <? t - default 0 (lastFailureTime cb) then
        Some {| failureThreshold := failureThreshold cb;
                recoveryTimeout := recoveryTimeout cb;
                failureCount := failureCount cb;
                lastFailureTime := lastFailureTime cb;
                state := HALF_OPEN;
                successCount := 0;
                minSuccessCount := minSuccessCount cb |}
      else None
  | _ => Some cb
  end.

(** ** The performance monitor (cacheService.js, class PerformanceMonitor) *)

Record PerformanceMonitor := mkMonitor {
  cacheHits : Z;
  cacheMisses : Z;
  redisErrors : Z;
  dbFallbacks : Z;
  totalRequests : Z;
  responseTimes : list Z
}.

Definition new_PerformanceMonitor : PerformanceMonitor :=
  mkMonitor 0 0 0 0 0 [].

Definition recordCacheHit (m : PerformanceMonitor) : PerformanceMonitor :=
  mkMonitor (cacheHits m + 1) (cacheMisses m) (redisErrors m) (dbFallbacks m)
            (totalRequests m + 1) (responseTimes m).

Definition recordCacheMiss (m : PerformanceMonitor) : PerformanceMonitor :=
  mkMonitor (cacheHits m) (cacheMisses m + 1) (redisErrors m) (dbFallbacks m)
            (totalRequests m + 1) (responseTimes m).

Definition recordRedisError (m : PerformanceMonitor) : PerformanceMonitor :=
  mkMonitor (cacheHits m) (cacheMisses m) (redisErrors m + 1) (dbFallbacks m)
            (totalRequests m) (responseTimes m).

Definition recordDbFallback (m : PerformanceMonitor) : PerformanceMonitor :=
  mkMonitor (cacheHits m) (cacheMisses m) (redisErrors m) (dbFallbacks m + 1)
            (totalRequests m) (responseTimes m).

(** [push], then [shift] once more than 100 measurements are kept. *)
Definition recordResponseTime (time : Z) (m : PerformanceMonitor) : PerformanceMonitor :=
  let rts := responseTimes m ++ [time] in
  mkMonitor (cacheHits m) (cacheMisses m) (redisErrors m) (dbFallbacks m)
            (totalRequests m)
            (if (100 <? length rts)%nat then tl rts else rts).

(** [metrics.avgResponseTime]: the source recomputes it from [responseTimes]
    at every [recordResponseTime], so it is a function of that array. *)
Definition avgResponseTime (m : PerformanceMonitor) : Q :=
  match responseTimes m with
  | [] => 0%Q
  | rts => Qdiv (inject_Z (fold_left Z.add rts 0))
                  (inject_Z (Z.of_nat (length rts)))
  end.

(** ** Requests, responses and the admission counters of app.js *)

(** The parts of an Express request the middlewares read.  [forwardedFor] is
    the first entry of the [x-forwarded-for] header, already split and
    trimmed; an absent header or address is the empty string. *)
Record Request := mkReq {
  reqId : nat;
  path : string;
  forwardedFor : string;
  ip : string;
  remoteAddress : string
}.

(** The JSON bodies of the rejections sent by the middlewares. *)
Inductive Body : Type :=
| ServerBusy (retryAfter activeConnections maxConnections : Z)
| ServerOverloaded (retryAfter queueSize maxQueueSize : Z)
| GlobalRateLimitExceeded (retryAfter : Z)
| TooManyRequests (msg : string) (retryAfter : option Z).

Record Reply := mkReply { status : Z; body : Body }.

(** The two closures registered with [res.on]: the anonymous decrement of the
    connection middleware and the [onDone] of the queue middleware. *)
Inductive Listener := ConnectionDecrement | OnDone.

Definition Listener_eqb (a b : Listener) : bool :=
  match a, b with
  | ConnectionDecrement, ConnectionDecrement => true
  | OnDone, OnDone => true
  | _, _ => false
  end.

(** A response object: the listeners of its ['finish'] and ['close'] events
    and what was sent on it. *)
Record Response := mkRes {
  onFinish : list Listener;
  onClose : list Listener;
  headers : list (string * option Q);
  sent : option Reply
}.

Definition new_Response : Response := mkRes [] [] [] None.

Record Admission := mkAdm {
  globalRequestCount : Z;
  globalWindowStart : Z;
  activeConnections : Z;
  connectionRejections : Z;
  requestQueue : list Request;
  processingRequests : Z;
  queueRejections : Z;
  responses : gmap nat Response;
  (** requests handed to the routes by [next()], oldest first *)
  dispatched : list nat
}.

Definition GLOBAL_RATE_LIMIT : Z := 180.
Definition GLOBAL_WINDOW_MS : Z := 1000.
Definition MAX_CONNECTIONS : Z := 5000.
Definition MAX_QUEUE_SIZE : Z := 5000.
Definition MAX_CONCURRENT_REQUESTS : Z := 1000.

Definition set_globalRequestCount (v : Z) (a : Admission) : Admission :=
  mkAdm v (globalWindowStart a) (activeConnections a) (connectionRejections a)
        (requestQueue a) (processingRequests a) (queueRejections a)
        (responses a) (dispatched a).

Definition set_globalWindowStart (v : Z) (a : Admission) : Admission :=
  mkAdm (globalRequestCount a) v (activeConnections a) (connectionRejections a)
        (requestQueue a) (processingRequests a) (queueRejections a)
        (responses a) (dispatched a).

Definition set_activeConnections (v : Z) (a : Admission) : Admission :=
  mkAdm (globalRequestCount a) (globalWindowStart a) v (connectionRejections a)
        (requestQueue a) (processingRequests a) (queueRejections a)
        (responses a) (dispatched a).

Definition set_connectionRejections (v : Z) (a : Admission) : Admission :=
  mkAdm (globalRequestCount a) (globalWindowStart a) (activeConnections a) v
        (requestQueue a) (processingRequests a) (queueRejections a)
        (responses a) (dispatched a).

Definition set_requestQueue (v : list Request) (a : Admission) : Admission :=
  mkAdm (globalRequestCount a) (globalWindowStart a) (activeConnections a)
        (connectionRejections a) v (processingRequests a) (queueRejections a)
        (responses a) (dispatched a).

Definition set_processingRequests (v : Z) (a : Admission) : Admission :=
  mkAdm (globalRequestCount a) (globalWindowStart a) (activeConnections a)
        (connectionRejections a) (requestQueue a) v (queueRejections a)
        (responses a) (dispatched a).

Definition set_queueRejections (v : Z) (a : Admission) : Admission :=
  mkAdm (globalRequestCount a) (globalWindowStart a) (activeConnections a)
        (connectionRejections a) (requestQueue a) (processingRequests a) v
        (responses a) (dispatched a).

Definition set_responses (v : gmap nat Response) (a : Admission) : Admission :=
  mkAdm (globalRequestCount a) (globalWindowStart a) (activeConnections a)
        (connectionRejections a) (requestQueue a) (processingRequests a)
        (queueRejections a) v (dispatched a).

Definition set_dispatched (v : list nat) (a : Admission) : Admission :=
  mkAdm (globalRequestCount a) (globalWindowStart a) (activeConnections a)
        (connectionRejections a) (requestQueue a) (processingRequests a)
        (queueRejections a) (responses a) v.

(** ** The world *)

(** A callback waiting in a [setTimeout]: the [retrySave] closure of
    shorturlService.js with the variables it captured. *)
Inductive Timer : Type :=
| RetrySave (shortUrl url : string) (retryCount : Z).

Record World := mkWorld {
  (** [Date.now()], milliseconds *)
  now : Z;
  (** redis.config.js: the flag, the keys with their expiry, commands sent *)
  redisAvailable : bool;
  redisData : gmap string (JsonVal * option Z);
  redisCalls : nat;
  (** mongoose: [connection.readyState], the collection keyed by its unique
      [short_url], commands sent *)
  readyState : Z;
  mongoDocs : gmap string UrlData;
  mongoCalls : nat;
  (** identifiers drawn from nanoid so far *)
  idCalls : nat;
  (** the module-level singletons of cacheService.js *)
  breaker : CircuitBreaker;
  monitor : PerformanceMonitor;
  (** pending [setTimeout] callbacks with their due time *)
  timers : list (Z * Timer);
  (** the module-level variables of app.js *)
  adm : Admission
}.

Definition set_now (v : Z) (w : World) : World :=
  mkWorld v (redisAvailable w) (redisData w) (redisCalls w) (readyState w)
          (mongoDocs w) (mongoCalls w) (idCalls w) (breaker w) (monitor w)
          (timers w) (adm w).

Definition set_redisAvailable (v : bool) (w : World) : World :=
  mkWorld (now w) v (redisData w) (redisCalls w) (readyState w)
          (mongoDocs w) (mongoCalls w) (idCalls w) (breaker w) (monitor w)
          (timers w) (adm w).

Definition set_redisData (v : gmap string (JsonVal * option Z)) (w : World) : World :=
  mkWorld (now w) (redisAvailable w) v (redisCalls w) (readyState w)
          (mongoDocs w) (mongoCalls w) (idCalls w) (breaker w) (monitor w)
          (timers w) (adm w).

Definition set_redisCalls (v : nat) (w : World) : World :=
  mkWorld (now w) (redisAvailable w) (redisData w) v (readyState w)
          (mongoDocs w) (mongoCalls w) (idCalls w) (breaker w) (monitor w)
          (timers w) (adm w).

Definition set_readyState (v : Z) (w : World) : World :=
  mkWorld (now w) (redisAvailable w) (redisData w) (redisCalls w) v
          (mongoDocs w) (mongoCalls w) (idCalls w) (breaker w) (monitor w)
          (timers w) (adm w).

Definition set_mongoDocs (v : gmap string UrlData) (w : World) : World :=
  mkWorld (now w) (redisAvailable w) (redisData w) (redisCalls w) (readyState w)
          v (mongoCalls w) (idCalls w) (breaker w) (monitor w)
          (timers w) (adm w).

Definition set_mongoCalls (v : nat) (w : World) : World :=
  mkWorld (now w) (redisAvailable w) (redisData w) (redisCalls w) (readyState w)
          (mongoDocs w) v (idCalls w) (breaker w) (monitor w)
          (timers w) (adm w).

Definition set_idCalls (v : nat) (w : World) : World :=
  mkWorld (now w) (redisAvailable w) (redisData w) (redisCalls w) (readyState w)
          (mongoDocs w) (mongoCalls w) v (breaker w) (monitor w)
          (timers w) (adm w).

Definition set_breaker (v : CircuitBreaker) (w : World) : World :=
  mkWorld (now w) (redisAvailable w) (redisData w) (redisCalls w) (readyState w)
          (mongoDocs w) (mongoCalls w) (idCalls w) v (monitor w)
          (timers w) (adm w).

Definition set_monitor (v : PerformanceMonitor) (w : World) : World :=
  mkWorld (now w) (redisAvailable w) (redisData w) (redisCalls w) (readyState w)
          (mongoDocs w) (mongoCalls w) (idCalls w) (breaker w) v
          (timers w) (adm w).

Definition set_timers (v : list (Z * Timer)) (w : World) : World :=
  mkWorld (now w) (redisAvailable w) (redisData w) (redisCalls w) (readyState w)
          (mongoDocs w) (mongoCalls w) (idCalls w) (breaker w) (monitor w)
          v (adm w).

Definition set_adm (v : Admission) (w : World) : World :=
  mkWorld (now w) (redisAvailable w) (redisData w) (redisCalls w) (readyState w)
          (mongoDocs w) (mongoCalls w) (idCalls w) (breaker w) (monitor w)
          (timers w) v.

(** How a dependency answers its [n]-th command: after [lat] milliseconds
    with its result, after [lat] milliseconds with an error, or never.
    ioredis is configured with [commandTimeout: 2000], so a Redis command
    always settles. *)
Inductive RedisOutcome := RReply (lat : nat) | RReject (lat : nat) (e : Err).

Inductive MongoOutcome := MReply (lat : nat) | MReject (lat : nat) (e : Err) | MHang.

Record Env := mkEnv {
  redisOutcome : nat -> RedisOutcome;
  mongoOutcome : nat -> MongoOutcome;
  (** [nanoid k len]: the identifier returned by the [k]-th call *)
  nanoid : nat -> nat -> string;
  (** [new Date(t).toISOString().split('T')[0]] *)
  isoDate : Z -> string
}.

(** ** Promises *)

Definition Js (A : Type) : Type := World -> Outcome A * World.

#[global] Instance Js_ret : MRet Js := fun A a w => (Resolved a, w).

#[global] Instance Js_bind : MBind Js := fun A B k m w =>
  match m w with
  | (Resolved a, w') => k a w'
  | (Rejected e, w') => (Rejected e, w')
  | (Pending, w') => (Pending, w')
  end.

Definition throw {A} (e : Err) : Js A := fun w => (Rejected e, w).

(** [try { m } catch (error) { h error }]. *)
Definition try_catch {A} (m : Js A) (h : Err -> Js A) : Js A := fun w =>
  match m w with
  | (Rejected e, w') => h e w'
  | r => r
  end.

(** [Promise.race([m, new Promise((_, reject) => setTimeout(() =>
    reject(new Error(msg)), ms))])].  The loser is not cancelled: what [m]
    did to the world stays done. *)
Definition race {A} (m : Js A) (ms : Z) (msg : string) : Js A := fun w =>
  match m w with
  | (Pending, w') => (Rejected (Error msg), set_now (now w + ms) w')
  | (r, w') =>
      if now w' - now w <? ms then (r, w')
      else (Rejected (Error msg), set_now (now w + ms) w')
  end.

(** [await new Promise(resolve => setTimeout(resolve, ms))]. *)
Definition sleep (ms : Z) : Js unit := fun w =>
  (Resolved tt, set_now (now w + ms) w).

(** A promise that is not awaited and whose rejection is only logged
    ([p.catch(err => console.error(..))]): the caller goes on at once. *)
Definition detached {A} (m : Js A) : Js unit := fun w =>
  (Resolved tt, set_now (now w) (snd (m w))).

Definition Date_now : Js Z := fun w => (Resolved (now w), w).

Definition modify (f : World -> World) : Js unit := fun w => (Resolved tt, f w).

Definition reads {A} (f : World -> A) : Js A := fun w => (Resolved (f w), w).


Section Backend.

Context (env : Env).

(** ** ioredis (the client created in redis.config.js) *)

(** A key is visible until its expiry time. *)
Definition redis_lookup (t : Z) (d : gmap string (JsonVal * option Z)) (key : string)
  : option (JsonVal * option Z) :=
  match d !! key with
  | Some (v, Some ex) => if t <? ex then Some (v, Some ex) else None
  | r => r
  end.

(** One command sent to Redis: [run] computes the reply and the new key
    space from the clock and the old key space.  The command counts, takes
    its latency, and does nothing to the data when it is rejected. *)
Definition redis_command {A} (run : Z -> gmap string (JsonVal * option Z) ->
                                    Err + A * gmap string (JsonVal * option Z)) : Js A :=
  fun w =>
    let w1 := set_redisCalls (S (redisCalls w)) w in
    match redisOutcome env (redisCalls w) with
    | RReply lat =>
        let w2 := set_now (now w + Z.of_nat lat) w1 in
        match run (now w) (redisData w) with
        | inl e => (Rejected e, w2)
        | inr (a, d) => (Resolved a, set_redisData d w2)
        end
    | RReject lat e => (Rejected e, set_now (now w + Z.of_nat lat) w1)
    end.

Definition redis_ping : Js string :=
  redis_command (fun _ d => inr ("PONG", d)).

(** GET gives the stored text; the model keeps it parsed (every value in
    the key space was written by [JSON.stringify] or by INCR). *)
Definition redis_get (key : string) : Js (option JsonVal) :=
  redis_command (fun t d => inr (fst <$> redis_lookup t d key, d)).

Definition redis_setex (key : string) (ttlSeconds : Z) (v : JsonVal) : Js unit :=
  redis_command (fun t d => inr (tt, <[key := (v, Some (t + ttlSeconds * 1000))]> d)).

Definition redis_del (key : string) : Js Z :=
  redis_command (fun t d =>
    inr (match redis_lookup t d key with Some _ => 1 | None => 0 end, delete key d)).

Definition redis_incr (key : string) : Js Z :=
  redis_command (fun t d =>
    match redis_lookup t d key with
    | None => inr (1, <[key := (JNum 1, None)]> d)
    | Some (JNum n, ex) => inr (n + 1, <[key := (JNum (n + 1), ex)]> d)
    | Some _ => inl (Error "ERR value is not an integer or out of range")
    end).

Definition redis_expire (key : string) (ttlSeconds : Z) : Js Z :=
  redis_command (fun t d =>
    match redis_lookup t d key with
    | None => inr (0, d)
    | Some (v, _) => inr (1, <[key := (v, Some (t + ttlSeconds * 1000))]> d)
    end).

Definition redis_mget (keys : list string) : Js (list (option JsonVal)) :=
  redis_command (fun t d => inr (map (fun k => fst <$> redis_lookup t d k) keys, d)).

Definition redis_exists (key : string) : Js Z :=
  redis_command (fun t d => inr (match redis_lookup t d key with Some _ => 1 | None => 0 end, d)).

(** The event handlers of the client: they only move [redisAvailable]. *)
Definition redis_on_connect : World -> World := set_redisAvailable true.
Definition redis_on_ready : World -> World := set_redisAvailable true.
Definition redis_on_error : World -> World := set_redisAvailable false.
Definition redis_on_close : World -> World := set_redisAvailable false.

(** ** cacheService (redis.config.js) *)

(** [data ? JSON.parse(data) : null]. *)
Definition parse_or_null (data : option JsonVal) : JsonVal := default JNull data.

Definition cacheService_ping : Js (option string) :=
  avail ← reads redisAvailable;
  if negb avail then mret None
  else try_catch (r ← redis_ping; mret (Some r)) (fun _ => mret None).

Definition cacheService_get (key : string) : Js JsonVal :=
  avail ← reads redisAvailable;
  if negb avail then mret JNull
  else try_catch (data ← redis_get key; mret (parse_or_null data))
                 (fun _ => mret JNull).

Definition cacheService_set (key : string) (value : JsonVal) (ttlSeconds : Z) : Js bool :=
  avail ← reads redisAvailable;
  if negb avail then mret false
  else try_catch (redis_setex key ttlSeconds value;; mret true)
                 (fun _ => mret false).

Definition cacheService_del (key : string) : Js bool :=
  avail ← reads redisAvailable;
  if negb avail then mret false
  else try_catch (redis_del key;; mret true) (fun _ => mret false).

Definition cacheService_incr (key : string) (ttlSeconds : Z) : Js Z :=
  avail ← reads redisAvailable;
  if negb avail then mret 0
  else try_catch
         (result ← redis_incr key;
          (if result =? 1 then redis_expire key ttlSeconds;; mret tt else mret tt);;
          mret result)
         (fun _ => mret 0).

Definition cacheService_mget (keys : list string) : Js (list JsonVal) :=
  avail ← reads redisAvailable;
  if negb avail then mret []
  else try_catch (values ← redis_mget keys; mret (map parse_or_null values))
                 (fun _ => mret []).

(** [exists] hands back what the client returned (a number) or [false]. *)
Definition cacheService_exists (key : string) : Js JsonVal :=
  avail ← reads redisAvailable;
  if negb avail then mret (JBool false)
  else try_catch (n ← redis_exists key; mret (JNum n))
                 (fun _ => mret (JBool false)).

(** ** mongoose and the DAO (dao/shortUrl.js) *)

(** One command sent to MongoDB.  The server applies a command it answers
    when the command is issued; the latency only delays the answer, also
    past whatever timeout the caller races it against. *)
Definition mongo_command {A} (run : Z -> gmap string UrlData ->
                                    Err + A * gmap string UrlData) : Js A :=
  fun w =>
    let w1 := set_mongoCalls (S (mongoCalls w)) w in
    match mongoOutcome env (mongoCalls w) with
    | MReply lat =>
        let w2 := set_now (now w + Z.of_nat lat) w1 in
        match run (now w) (mongoDocs w) with
        | inl e => (Rejected e, w2)
        | inr (a, d) => (Resolved a, set_mongoDocs d w2)
        end
    | MReject lat e => (Rejected e, set_now (now w + Z.of_nat lat) w1)
    | MHang => (Pending, w1)
    end.

(** [urlSchema.create(newUrl)]: [short_url] is [unique], a second document
    with the same code is refused with the driver's code 11000; [clicks]
    and [createdAt] take their schema defaults. *)
Definition urlSchema_create (shortUrl longUrl : string) (userId : option string)
  : Js UrlData :=
  mongo_command (fun t d =>
    match d !! shortUrl with
    | Some _ =>
        inl (mkErr "E11000 duplicate key error collection: shorturls index: short_url_1"
                   (Some 11000))
    | None =>
        let doc := mkUrlData longUrl shortUrl 0 userId (Some t) in
        inr (doc, <[shortUrl := doc]> d)
    end).

(** [{ $inc: { clicks: 1 } }]. *)
Definition inc_clicks (doc : UrlData) : UrlData :=
  mkUrlData (full_url doc) (short_url doc) (clicks doc + 1) (user doc) (createdAt doc).

(** [urlSchema.findOneAndUpdate({short_url}, {$inc: {clicks: 1}}, {new: true})]. *)
Definition urlSchema_findOneAndUpdate (shortUrl : string) : Js JsonVal :=
  mongo_command (fun _ d =>
    match d !! shortUrl with
    | Some doc => inr (JUrl (inc_clicks doc), <[shortUrl := inc_clicks doc]> d)
    | None => inr (JNull, d)
    end).

Definition checkConnectionHealth : Js bool :=
  st ← reads readyState;
  if negb (st =? 1)
  then throw (Error ("Database not connected. State: " +:+ pretty st))
  else mret true.

(** The [catch] blocks of the DAO: the error is rethrown under one of four
    messages. *)
Definition dao_rethrow {A} (duplicates : bool) (error : Err) : Js A :=
  if duplicates && bool_decide (code error = Some 11000)
  then throw (Error "Short URL already exists")
  else if includes (message error) "timeout"
  then throw (Error "Database operation timeout - please try again")
  else if includes (message error) "not connected"
  then throw (Error "Database connection error - please try again")
  else throw (Error ("Database error: " +:+ message error)).

Definition saveShortUrl (shortUrl longUrl : string) (userId : option string)
  : Js UrlData :=
  try_catch
    (checkConnectionHealth;;
     race (urlSchema_create shortUrl longUrl userId) 5000 "Database save timeout")
    (dao_rethrow true).

Definition getShortUrlFromDB (shortUrl : string) : Js JsonVal :=
  try_catch
    (checkConnectionHealth;;
     race (urlSchema_findOneAndUpdate shortUrl) 1500 "Database query timeout")
    (dao_rethrow false).

(** ** cacheService.js: the breaker around Redis and urlCacheService *)

Definition modify_breaker (f : CircuitBreaker -> CircuitBreaker) : Js unit :=
  modify (fun w => set_breaker (f (breaker w)) w).

Definition modify_monitor (f : PerformanceMonitor -> PerformanceMonitor) : Js unit :=
  modify (fun w => set_monitor (f (monitor w)) w).

(** [redisCircuitBreaker.execute(operation)]. *)
Definition execute {A} (operation : Js A) : Js A :=
  t ← Date_now;
  cb ← reads breaker;
  match execute_gate t cb with
  | None => throw (Error "Circuit breaker is OPEN - Redis temporarily unavailable")
  | Some cb' =>
      modify (set_breaker cb');;
      try_catch
        (result ← operation;
         modify_breaker onSuccess;;
         mret result)
        (fun error =>
           t' ← Date_now;
           modify_breaker (onFailure t');;
           throw error)
  end.

Definition CACHE_KEYS_SHORT_URL (shortUrl : string) : string := "url:" +:+ shortUrl.
Definition CACHE_KEYS_ANALYTICS (shortUrl : string) : string := "analytics:" +:+ shortUrl.
Definition CACHE_KEYS_DAILY_CLICKS (shortUrl date : string) : string :=
  "clicks:" +:+ shortUrl +:+ ":" +:+ date.

Definition CACHE_TTL_SHORT_URL : Z := 600.
Definition CACHE_TTL_ANALYTICS : Z := 600.
Definition CACHE_TTL_DAILY_CLICKS : Z := 86400.

(** [urlCacheService.incrementClicks]: the daily counter and the analytics
    record, both in Redis.  A cached value that is not an analytics record
    has no [dailyClicks] to index: a TypeError, swallowed like any other. *)
Definition incrementClicks (shortUrl : string) : Js unit :=
  try_catch
    (t ← Date_now;
     let today := isoDate env t in
     let clickKey := CACHE_KEYS_DAILY_CLICKS shortUrl today in
     cacheService_incr clickKey CACHE_TTL_DAILY_CLICKS;;
     let analyticsKey := CACHE_KEYS_ANALYTICS shortUrl in
     got ← cacheService_get analyticsKey;
     match (if truthy got then got else JAnalytics 0 ∅) with
     | JAnalytics total daily =>
         cacheService_set analyticsKey
           (JAnalytics (total + 1) (<[today := default 0 (daily !! today) + 1]> daily))
           CACHE_TTL_ANALYTICS;;
         mret tt
     | _ => throw (Error "Cannot read properties of undefined")
     end)
    (fun _ => mret tt).

Definition record_elapsed (startTime : Z) : Js unit :=
  t ← Date_now;
  modify_monitor (recordResponseTime (t - startTime)).

(** [urlCacheService.getShortUrl], its [try] block: the cache behind the
    breaker, then the database on a miss. *)
Definition getShortUrl_try_block (shortUrl : string) (startTime : Z) : Js JsonVal :=
  let cacheKey := CACHE_KEYS_SHORT_URL shortUrl in
  urlData ← execute (race (cacheService_get cacheKey) 2000 "Cache timeout");
  if truthy urlData then
    modify_monitor recordCacheHit;;
    detached (incrementClicks shortUrl);;
    record_elapsed startTime;;
    mret urlData
  else
    modify_monitor recordCacheMiss;;
    urlData ← race (getShortUrlFromDB shortUrl) 3000 "DB timeout";
    (if truthy urlData
     then detached (cacheService_set cacheKey urlData CACHE_TTL_SHORT_URL)
     else mret tt);;
    record_elapsed startTime;;
    mret urlData.

(** Its [catch] block: the database once more, and [null] if that fails
    too. *)
Definition getShortUrl_catch_block (shortUrl : string) (startTime : Z) : Js JsonVal :=
  modify_monitor recordRedisError;;
  try_catch
    (modify_monitor recordDbFallback;;
     fallbackResult ← race (getShortUrlFromDB shortUrl) 2500 "Fallback timeout";
     record_elapsed startTime;;
     mret fallbackResult)
    (fun fallbackError =>
       record_elapsed startTime;;
       mret JNull).

Definition urlCacheService_getShortUrl (shortUrl : string) : Js JsonVal :=
  startTime ← Date_now;
  try_catch (getShortUrl_try_block shortUrl startTime)
            (fun error => getShortUrl_catch_block shortUrl startTime).

(** [urlCacheService.cacheNewUrl]. *)
Definition cacheNewUrl (shortUrl : string) (urlData : JsonVal) : Js unit :=
  try_catch
    (cacheService_set (CACHE_KEYS_SHORT_URL shortUrl) urlData CACHE_TTL_SHORT_URL;;
     mret tt)
    (fun _ => mret tt).

(** *** The token bucket *)

(** What [checkRateLimit] returns; [resetTime] is missing from the object
    of the [catch] branch. *)
Record RateLimit := mkRateLimit {
  allowed : bool;
  tokens : float;
  capacity : float;
  remaining : float;
  resetTime : option float
}.

(** [Math.min(sustainedRps + burstCapacity, state.tokens + elapsedSec * sustainedRps)]
    with [elapsedSec = Math.max(0, (now - state.ts) / 1000)].  The two
    timestamps are integers far below 2^53, so [now - state.ts] is the exact
    difference. *)
Definition refill (sustainedRps burstCapacity : float) (t : Z)
    (state_tokens : float) (state_ts : Z) : float :=
  let elapsedSec := fmax (of_Z 0) (fdiv (of_Z (t - state_ts)) (of_Z 1000)) in
  fmin (fadd sustainedRps burstCapacity)
       (fadd state_tokens (fmul elapsedSec sustainedRps)).

(** The refill applied to a value read back from the cache.  A bucket whose
    tokens were serialised as [null] counts for 0 in the sum; any other
    cached value has neither [tokens] nor [ts] and the arithmetic yields
    [NaN].  When nothing is read back the state is the fresh object
    [{ tokens: sustainedRps + burstCapacity, ts: now }]. *)
Definition refill_state (sustainedRps burstCapacity : float) (t : Z)
    (state : JsonVal) : float :=
  match state with
  | JBucket tk ts => refill sustainedRps burstCapacity t (default (of_Z 0) tk) ts
  | _ => S754_nan
  end.

(** [urlCacheService.checkRateLimit(ip, { sustainedRps, burstCapacity })]. *)
Definition checkRateLimit (ip : string) (sustainedRps burstCapacity : float) : Js RateLimit :=
  try_catch
    (let key := "tb:" +:+ ip in
     t ← Date_now;
     got ← cacheService_get key;
     let refilled :=
       if truthy got then refill_state sustainedRps burstCapacity t got
       else refill sustainedRps burstCapacity t (fadd sustainedRps burstCapacity) t in
     let allowed := fle (of_Z 1) refilled in
     let tokens := if allowed then fsub refilled (of_Z 1) else refilled in
     cacheService_set key (JBucket (json_number tokens) t) 60;;
     let resetSeconds :=
       fceil (fdiv (fsub (fadd sustainedRps burstCapacity) tokens)
                   (fmax (of_Z 1) sustainedRps)) in
     mret {| allowed := allowed;
             tokens := tokens;
             capacity := fadd sustainedRps burstCapacity;
             remaining := ffloor tokens;
             resetTime := Some (fadd (of_Z t) (fmul resetSeconds (of_Z 1000))) |})
    (fun _ =>
       mret {| allowed := true;
               tokens := sustainedRps;
               capacity := fadd sustainedRps burstCapacity;
               remaining := sustainedRps;
               resetTime := None |}).

(** ** shorturlService.js *)

(** [generateNanoId(length)] of utils/helper.js. *)
Definition generateNanoId (len : nat) : Js string := fun w =>
  (Resolved (nanoid env (idCalls w) len), set_idCalls (S (idCalls w)) w).

(** Timers are kept in firing order: by due time, first set first. *)
Fixpoint insert_timer (e : Z * Timer) (l : list (Z * Timer)) : list (Z * Timer) :=
  match l with
  | [] => [e]
  | x :: l' => if fst e <? fst x then e :: x :: l' else x :: insert_timer e l'
  end.

Definition schedule (t : Timer) (ms : Z) : Js unit := fun w =>
  (Resolved tt, set_timers (insert_timer (now w + ms, t) (timers w)) w).

(** The closure [retrySave] of the background persistence, entered with the
    current [retryCount]. *)
Definition retrySave (shortUrl url : string) (retryCount : Z) : Js unit :=
  try_catch
    (saveShortUrl shortUrl url None;; mret tt)
    (fun saveError =>
       let retryCount := retryCount + 1 in
       if (retryCount <? 3) && negb (includes (message saveError) "already exists")
       then schedule (RetrySave shortUrl url retryCount) (2 ^ retryCount * 1000)
       else mret tt).

Definition maxCollisions : Z := 5.

(** The graceful-degradation tail of the [catch] block. *)
Definition degrade (shortUrl url : string) : Js string :=
  try_catch
    (cacheService_set ("url:" +:+ shortUrl)
                      (JUrl (mkUrlData url shortUrl 0 None None)) 600;;
     mret tt)
    (fun _ => mret tt);;
  schedule (RetrySave shortUrl url 0) 100;;
  mret shortUrl.

(** [for (let attempt = 0; attempt <= maxCollisions; attempt++)], entered
    with [remaining = maxCollisions + 1 - attempt] iterations to go; when
    none is left the statement after the loop throws. *)
Fixpoint create_attempts (remaining : nat) (url : string) : Js string :=
  match remaining with
  | O => throw (Error "Failed to generate unique short URL after maximum attempts")
  | S remaining' =>
      let attempt := maxCollisions - Z.of_nat remaining' in
      shortUrl ← generateNanoId 8;
      if (shortUrl =? "")%string then throw (Error "Short URL not generated")
      else
        try_catch
          (race (saveShortUrl shortUrl url None) 2500 "Save quick-timeout";;
           mret shortUrl)
          (fun error =>
             if (message error =? "Short URL already exists")%string
                && (attempt <? maxCollisions)
             then sleep (2 ^ attempt * 10);; create_attempts remaining' url
             else degrade shortUrl url)
  end.

(** [createShortUrlWithoutUser(url, customShortId)]; an absent or empty
    [customShortId] is falsy. *)
Definition createShortUrlWithoutUser (url : string) (customShortId : option string)
  : Js string :=
  match customShortId with
  | Some custom =>
      if negb (custom =? "")%string then
        try_catch
          (race (saveShortUrl custom url None) 2500 "Save quick-timeout";;
           mret custom)
          (fun error =>
             if (message error =? "Short URL already exists")%string
             then throw (Error "Custom short URL already exists - please choose a different one")
             else throw error)
      else create_attempts (Z.to_nat (maxCollisions + 1)) url
  | None => create_attempts (Z.to_nat (maxCollisions + 1)) url
  end.

(** The event loop taking the next due timer: the clock moves to its due
    time and the callback runs.  The callback of the [setTimeout(.., 100)]
    sets [retryCount = 0] and calls [retrySave]. *)
Definition fire_timer : Js bool := fun w =>
  match timers w with
  | [] => (Resolved false, w)
  | (due, RetrySave shortUrl url retryCount) :: rest =>
      (retrySave shortUrl url retryCount;; mret true)
        (set_now (Z.max (now w) due) (set_timers rest w))
  end.

Fixpoint run_timers (n : nat) : Js unit :=
  match n with
  | O => mret tt
  | S n' => fired ← fire_timer; if fired : bool then run_timers n' else mret tt
  end.

(** ** Express: response objects and the middlewares of app.js *)

Inductive ResEvent := finish | close.

Definition modify_adm (f : Admission -> Admission) : Js unit :=
  modify (fun w => set_adm (f (adm w)) w).

Definition modify_response (id : nat) (f : Response -> Response) : Js unit :=
  modify_adm (fun a =>
    set_responses (<[id := f (default new_Response (responses a !! id))]> (responses a)) a).

(** [res.on(event, listener)]: the listener goes to the end of the array. *)
Definition res_on (id : nat) (ev : ResEvent) (l : Listener) : Js unit :=
  modify_response id (fun r =>
    match ev with
    | finish => mkRes (onFinish r ++ [l]) (onClose r) (headers r) (sent r)
    | close => mkRes (onFinish r) (onClose r ++ [l]) (headers r) (sent r)
    end).

(** [removeListener] takes out the most recently added instance, if any. *)
Fixpoint remove_first (l : Listener) (ls : list Listener) : list Listener :=
  match ls with
  | [] => []
  | x :: ls' => if Listener_eqb l x then ls' else x :: remove_first l ls'
  end.

Definition remove_last (l : Listener) (ls : list Listener) : list Listener :=
  rev (remove_first l (rev ls)).

Definition res_removeListener (id : nat) (ev : ResEvent) (l : Listener) : Js unit :=
  modify_response id (fun r =>
    match ev with
    | finish => mkRes (remove_last l (onFinish r)) (onClose r) (headers r) (sent r)
    | close => mkRes (onFinish r) (remove_last l (onClose r)) (headers r) (sent r)
    end).

(** [res.set({...})]. *)
Definition res_set (id : nat) (hs : list (string * option Q)) : Js unit :=
  modify_response id (fun r => mkRes (onFinish r) (onClose r) (headers r ++ hs) (sent r)).

(** [res.status(s).json(b)]. *)
Definition res_status_json (id : nat) (s : Z) (b : Body) : Js unit :=
  modify_response id (fun r =>
    mkRes (onFinish r) (onClose r) (headers r) (Some (mkReply s b))).

(** A middleware either calls [next()] or returns without calling it. *)
Inductive Step := Next | Stop.

(** The request leaves the middlewares for the routes. *)
Definition dispatch (id : nat) : Js unit :=
  modify_adm (fun a => set_dispatched (dispatched a ++ [id]) a).

(** [Math.ceil(ms / 1000)] on integers. *)
Definition ceil_seconds (ms : Z) : Z := - ((- ms) / 1000).

(** *** middleware/rateLimiter.js *)

Record RateLimiterOptions := mkOptions {
  windowMs : Z;
  max : float;
  burstCapacity : option float;
  message_opt : string;
  standardHeaders : bool;
  legacyHeaders : bool
}.

(** [xff || req.ip || req.connection.remoteAddress || 'unknown']. *)
Definition clientIp (req : Request) : string :=
  if negb (forwardedFor req =? "")%string then forwardedFor req
  else if negb (ip req =? "")%string then ip req
  else if negb (remoteAddress req =? "")%string then remoteAddress req
  else "unknown".

(** [rateLimit.resetTime] in an arithmetic expression: [undefined] gives
    [NaN]. *)
Definition resetTime_number (rateLimit : RateLimit) : float :=
  default S754_nan (resetTime rateLimit).

(** [Math.ceil((rateLimit.resetTime - Date.now()) / 1000)]. *)
Definition seconds_until_reset (rateLimit : RateLimit) (t : Z) : float :=
  fceil (fdiv (fsub (resetTime_number rateLimit) (of_Z t)) (of_Z 1000)).

Definition rateLimiter (options : RateLimiterOptions) (req : Request) : Js Step :=
  try_catch
    (rateLimit ← checkRateLimit (clientIp req) (max options)
                                (default (of_Z 800) (burstCapacity options));
     (if standardHeaders options then
        t ← Date_now;
        res_set (reqId req)
          [("RateLimit-Limit", fvalue (max options));
           ("RateLimit-Remaining", fvalue (remaining rateLimit));
           ("RateLimit-Reset", fvalue (seconds_until_reset rateLimit t))]
      else mret tt);;
     (if legacyHeaders options then
        res_set (reqId req)
          [("X-RateLimit-Limit", fvalue (max options));
           ("X-RateLimit-Remaining", fvalue (remaining rateLimit));
           ("X-RateLimit-Reset",
            fvalue (fceil (fdiv (resetTime_number rateLimit) (of_Z 1000))))]
      else mret tt);;
     if negb (allowed rateLimit) then
       t ← Date_now;
       res_status_json (reqId req) 429
         (TooManyRequests (message_opt options)
            (json_integer (seconds_until_reset rateLimit t)));;
       mret Stop
     else mret Next)
    (fun _ => mret Next).

(** *** app.js: the global rate limiter *)

Definition globalRateLimiter (req : Request) : Js Step :=
  t ← Date_now;
  a ← reads adm;
  (if GLOBAL_WINDOW_MS <=? t - globalWindowStart a
   then modify_adm (fun a => set_globalWindowStart t (set_globalRequestCount 0 a))
   else mret tt);;
  a ← reads adm;
  if GLOBAL_RATE_LIMIT <=? globalRequestCount a then
    res_status_json (reqId req) 429
      (GlobalRateLimitExceeded
         (ceil_seconds (globalWindowStart a + GLOBAL_WINDOW_MS - t)));;
    mret Stop
  else
    modify_adm (fun a => set_globalRequestCount (globalRequestCount a + 1) a);;
    mret Next.

(** *** app.js: the connection limiter *)

Definition connectionLimiter (req : Request) : Js Step :=
  modify_adm (fun a => set_activeConnections (activeConnections a + 1) a);;
  res_on (reqId req) finish ConnectionDecrement;;
  res_on (reqId req) close ConnectionDecrement;;
  a ← reads adm;
  if MAX_CONNECTIONS <? activeConnections a then
    modify_adm (fun a => set_connectionRejections (connectionRejections a + 1) a);;
    res_status_json (reqId req) 503
      (ServerBusy 1 (activeConnections a) MAX_CONNECTIONS);;
    mret Stop
  else mret Next.

(** *** app.js: the request queue *)

Definition queueLength (a : Admission) : Z := Z.of_nat (length (requestQueue a)).

(** [processNextQueuedRequest]: the [next] stored with a queued request
    leads to the routes. *)
Definition processNextQueuedRequest : Js unit :=
  a ← reads adm;
  match requestQueue a with
  | [] => mret tt
  | req :: rest =>
      if MAX_CONCURRENT_REQUESTS <=? processingRequests a then mret tt
      else
        modify_adm (fun a =>
          set_processingRequests (processingRequests a + 1) (set_requestQueue rest a));;
        res_on (reqId req) finish OnDone;;
        res_on (reqId req) close OnDone;;
        dispatch (reqId req)
  end.

Definition isHealthCheck (req : Request) : bool :=
  (path req =? "/health")%string || (path req =? "/metrics")%string.

Definition requestQueueMiddleware (req : Request) : Js Step :=
  a ← reads adm;
  if MAX_CONCURRENT_REQUESTS <=? processingRequests a then
    if MAX_QUEUE_SIZE <=? queueLength a then
      modify_adm (fun a => set_queueRejections (queueRejections a + 1) a);;
      res_status_json (reqId req) 503
        (ServerOverloaded 2 (queueLength a) MAX_QUEUE_SIZE);;
      mret Stop
    else
      modify_adm (fun a =>
        set_requestQueue (if isHealthCheck req then req :: requestQueue a
                          else requestQueue a ++ [req]) a);;
      processNextQueuedRequest;;
      mret Stop
  else
    modify_adm (fun a => set_processingRequests (processingRequests a + 1) a);;
    res_on (reqId req) finish OnDone;;
    res_on (reqId req) close OnDone;;
    mret Next.

(** *** The listeners *)

Definition run_listener (id : nat) (l : Listener) : Js unit :=
  match l with
  | ConnectionDecrement =>
      modify_adm (fun a => set_activeConnections (activeConnections a - 1) a)
  | OnDone =>
      res_removeListener id finish OnDone;;
      res_removeListener id close OnDone;;
      modify_adm (fun a => set_processingRequests (processingRequests a - 1) a);;
      processNextQueuedRequest
  end.

Fixpoint run_listeners (id : nat) (ls : list Listener) : Js unit :=
  match ls with
  | [] => mret tt
  | l :: ls' => run_listener id l;; run_listeners id ls'
  end.

Definition listeners (ev : ResEvent) (r : Response) : list Listener :=
  match ev with finish => onFinish r | close => onClose r end.

(** [res.emit(event)]: the listeners registered at that moment run in the
    order they were added. *)
Definition emit (id : nat) (ev : ResEvent) : Js unit :=
  a ← reads adm;
  run_listeners id (listeners ev (default new_Response (responses a !! id))).

(** *** The middleware stack, in the order of the [app.use] calls *)

Inductive Stage :=
| PerIpTokenBucket
| GlobalRateCeiling
| ConnectionCeiling
| ConcurrencyQueue.

(** [app.use(rateLimiter({ windowMs: 1000, max: 150, burstCapacity: 300, .. }))]. *)
Definition app_rateLimiter_options : RateLimiterOptions :=
  {| windowMs := 1000;
     max := of_Z 150;
     burstCapacity := Some (of_Z 300);
     message_opt := "Too many requests from this IP, please try again later.";
     standardHeaders := true;
     legacyHeaders := false |}.

Definition app_stack : list (Stage * (Request -> Js Step)) :=
  [ (PerIpTokenBucket, rateLimiter app_rateLimiter_options);
    (GlobalRateCeiling, globalRateLimiter);
    (ConnectionCeiling, connectionLimiter);
    (ConcurrencyQueue, requestQueueMiddleware) ].

(** Express calls the middlewares in order while each calls [next()]; the
    result lists the ones that ran.  After the last one come the routes. *)
Fixpoint run_stack (stack : list (Stage * (Request -> Js Step))) (req : Request)
  : Js (list Stage) :=
  match stack with
  | [] => dispatch (reqId req);; mret []
  | (name, middleware) :: rest =>
      s ← middleware req;
      match s with
      | Next => ran ← run_stack rest req; mret (name :: ran)
      | Stop => mret [name]
      end
  end.

Definition handle_request (req : Request) : Js (list Stage) :=
  modify_response (reqId req) (fun _ => new_Response);;
  run_stack app_stack req.

(** What happens to the server: a request arrives, a response has been
    handed to the operating system (['finish']), a response or its
    connection ends (['close']). *)
Inductive Event :=
| Arrive (req : Request)
| Finish (id : nat)
| Close (id : nat).

Definition handle_event (e : Event) : Js unit :=
  match e with
  | Arrive req => handle_request req;; mret tt
  | Finish id => emit id finish
  | Close id => emit id close
  end.

Fixpoint run_events (es : list Event) : Js unit :=
  match es with
  | [] => mret tt
  | e :: es' => handle_event e;; run_events es'
  end.

(** What happens to the process as a whole: besides the events of the
    requests, time passes between them, and the Redis client reports that
    it is ready or that its connection failed (the ['ready'] and ['error']
    handlers of redis.config.js). *)
Inductive Happening :=
| OfRequest (e : Event)
| Elapse (ms : nat)
| RedisReady
| RedisError.

Definition handle_happening (h : Happening) : Js unit :=
  match h with
  | OfRequest e => handle_event e
  | Elapse ms => sleep (Z.of_nat ms)
  | RedisReady => modify redis_on_ready
  | RedisError => modify redis_on_error
  end.

Fixpoint run_happenings (hs : list Happening) : Js unit :=
  match hs with
  | [] => mret tt
  | h :: hs' => handle_happening h;; run_happenings hs'
  end.

End Backend.

(** ** The state of a freshly started server *)

Definition initial_world (t0 : Z) : World :=
  {| now := t0;
     redisAvailable := false;
     redisData := ∅;
     redisCalls := 0;
     readyState := 0;
     mongoDocs := ∅;
     mongoCalls := 0;
     idCalls := 0;
     breaker := new_CircuitBreaker 10 60000;
     monitor := new_PerformanceMonitor;
     timers := [];
     adm := {| globalRequestCount := 0;
               globalWindowStart := t0;
               activeConnections := 0;
               connectionRejections := 0;
               requestQueue := [];
               processingRequests := 0;
               queueRejections := 0;
               responses := ∅;
               dispatched := [] |} |}.

(** ** Predicates used in the statements *)

(** A computation that always settles: it resolves or rejects. *)
Definition settles {A} (m : Js A) : Prop :=
  forall w, fst (m w) <> Pending.

(** Redis is marked unavailable, or it rejected a command sent between the
    two worlds. *)
Definition redis_failed (env : Env) (w w' : World) : Prop :=
  redisAvailable w = false \/
  exists n lat e, (redisCalls w <= n < redisCalls w')%nat /\
                  redisOutcome env n = RReject lat e.


(** [w'] differs from [w] at most in the clock, in Redis and in the
    breaker. *)
Definition only_cache (w w' : World) : Prop :=
  w' = set_now (now w')
         (set_redisCalls (redisCalls w')
            (set_redisData (redisData w') (set_breaker (breaker w') w))).

(** [w'] differs from [w] at most in the clock and in MongoDB's collection
    and command counter. *)
Definition only_mongo (w w' : World) : Prop :=
  w' = set_now (now w')
         (set_mongoCalls (mongoCalls w') (set_mongoDocs (mongoDocs w') w)).

(** The [n]-th query is of no use to the DAO: rejected, never answered, or
    answered after the 1500 ms it waits. *)
Definition query_fails (env : Env) (n : nat) : Prop :=
  match mongoOutcome env n with
  | MReply lat => 1500 <= Z.of_nat lat
  | _ => True
  end.

(** MongoDB was of no use between the two worlds: mongoose is not
    connected, or every query sent in between failed. *)
Definition store_failed (env : Env) (w w' : World) : Prop :=
  readyState w <> 1 \/
  forall n, (mongoCalls w <= n < mongoCalls w')%nat -> query_fails env n.

(** The [n]-th command is not answered within the 2500 ms the create path
    waits for an insert. *)
Definition insert_times_out (env : Env) (n : nat) : Prop :=
  match mongoOutcome env n with
  | MReply lat => 2500 <= Z.of_nat lat
  | MReject lat _ => 2500 <= Z.of_nat lat
  | MHang => True
  end.

(** No click count in the collection went down, and no document left. *)
Definition clicks_monotone (w w' : World) : Prop :=
  forall code d, mongoDocs w !! code = Some d ->
                 exists d', mongoDocs w' !! code = Some d' /\ clicks d <= clicks d'.

(** The bucket of a client as a read at the current time would see it. *)
Definition stored_bucket (w : World) (ip : string) : option JsonVal :=
  fst <$> redis_lookup (now w) (redisData w) ("tb:" +:+ ip).

(** The time Redis takes to answer, with a reply or with an error. *)
Definition redis_latency (o : RedisOutcome) : Z :=
  match o with
  | RReply lat => Z.of_nat lat
  | RReject lat _ => Z.of_nat lat
  end.

(** What the next GET of the client's bucket brings back: the stored bucket
    when Redis is available and answers, nothing otherwise. *)
Definition bucket_read (env : Env) (w : World) (ip : string) : option JsonVal :=
  if redisAvailable w then
    match redisOutcome env (redisCalls w) with
    | RReply _ => stored_bucket w ip
    | RReject _ _ => None
    end
  else None.

(** A sustained rate: a positive double. *)
Definition positive_double (x : float) : Prop :=
  match x with
  | S754_finite false m e => Zpos (digits2_pos m) <= 53 /\ e <= 971
  | _ => False
  end.

(** A bucket as [checkRateLimit] leaves it: the token count is [null] or a
    non-negative double. *)
Definition bucket_ok (v : JsonVal) : Prop :=
  exists tk ts, v = JBucket tk ts /\
                forall x, tk = Some x -> is_double x /\ nonneg x.

(** ** Scenarios *)

Fixpoint repeat_js (n : nat) (m : Js unit) : Js unit :=
  match n with
  | O => mret tt
  | S n' => m;; repeat_js n' m
  end.

(** A Redis operation that fails, and a caller that catches the error as
    [urlCacheService.getShortUrl] does. *)
Definition failing_operation : Js unit := throw (Error "connect ECONNREFUSED").

Definition guarded (operation : Js unit) : Js unit :=
  try_catch (execute operation) (fun _ => mret tt).

(** A fresh breaker takes ten failures, rests for more than the recovery
    timeout, and lets one successful probe through. *)
Definition world_after_one_probe_success : World :=
  snd ((repeat_js 10 (guarded failing_operation);;
        sleep 60001;;
        guarded (mret tt)) (initial_world 0)).

(** Both dependencies answer quickly; nanoid hands out fresh codes. *)
Definition steady_env : Env :=
  {| redisOutcome := fun _ => RReply 1;
     mongoOutcome := fun _ => MReply 5;
     nanoid := fun k _ => nth k ["V1StGXR8"; "Z5jdHi6B"; "myT1xKq2"; "pL9wQe4R";
                                  "Uakgb3J7"; "dTq8Nf2M"; "hY6cRv1S"] "x7Kp2mWq";
     isoDate := fun _ => "2024-05-17" |}.

(** Redis is up and the client 203.0.113.7 has made one request. *)
Definition world_after_first_request : World :=
  snd ((checkRateLimit steady_env "203.0.113.7" (of_Z 150) (of_Z 300);; sleep 10)
         (set_redisAvailable true (initial_world 1000))).

Definition ordinary_request (id : nat) : Request :=
  {| reqId := id; path := "/V1StGXR8"; forwardedFor := "";
     ip := "203.0.113.7"; remoteAddress := "203.0.113.7" |}.

Definition health_request (id : nat) : Request :=
  {| reqId := id; path := "/health"; forwardedFor := "";
     ip := "198.51.100.2"; remoteAddress := "198.51.100.2" |}.

(** A server with [processing] requests in flight and [queue] waiting. *)
Definition loaded_world (processing : Z) (queue : list Request) : World :=
  set_adm (set_processingRequests processing
             (set_requestQueue queue (adm (initial_world 0))))
          (initial_world 0).

Definition busy_world : World :=
  loaded_world 1000 [ordinary_request 1; ordinary_request 2].

(** The same server with Redis connected, and an afternoon on it: a request
    arrives while every slot is taken, a second goes by, a response is sent,
    Redis drops out and comes back while more requests arrive. *)
Definition busy_world_with_redis : World := set_redisAvailable true busy_world.

Definition busy_afternoon : list Happening :=
  [OfRequest (Arrive (ordinary_request 7));
   Elapse 1500;
   OfRequest (Finish 1);
   OfRequest (Close 1);
   RedisError;
   OfRequest (Arrive (health_request 8));
   Elapse 20;
   RedisReady;
   OfRequest (Arrive (ordinary_request 9));
   OfRequest (Close 7)].

Definition full_world : World :=
  loaded_world 1000 (map ordinary_request (seq 0 5000)).

Definition freed_world : World :=
  loaded_world 999 [health_request 3; ordinary_request 1; ordinary_request 2].

(** What every breaker built by the constructor and moved by [execute]
    satisfies: an OPEN breaker, and a HALF_OPEN breaker that has seen no
    success yet, have their [failureCount] at the threshold or above. *)
Definition breaker_inv (cb : CircuitBreaker) : Prop :=
  0 <= successCount cb /\
  (state cb = OPEN -> failureThreshold cb <= failureCount cb) /\
  (state cb = HALF_OPEN -> successCount cb = 0 ->
   failureThreshold cb <= failureCount cb).

(** [w'] differs from [w] at most in the clock and in Redis. *)
Definition only_redis (w w' : World) : Prop :=
  w' = set_now (now w') (set_redisCalls (redisCalls w') (set_redisData (redisData w') w)).

(** The counters of the three in-process checks are the same in both
    worlds. *)
Definition same_counters (w w' : World) : Prop :=
  globalRequestCount (adm w') = globalRequestCount (adm w) /\
  globalWindowStart (adm w') = globalWindowStart (adm w) /\
  activeConnections (adm w') = activeConnections (adm w) /\
  connectionRejections (adm w') = connectionRejections (adm w) /\
  processingRequests (adm w') = processingRequests (adm w) /\
  requestQueue (adm w') = requestQueue (adm w) /\
  queueRejections (adm w') = queueRejections (adm w) /\
  dispatched (adm w') = dispatched (adm w).

(** One second's global budget is used up. *)
Definition saturated_world : World :=
  set_adm (set_globalRequestCount 180 (adm (initial_world 0)))
          (set_redisAvailable true (initial_world 0)).

(** One request on a fresh server whose response is sent in full: Node
    emits ['finish'] and then ['close'] on it. *)
Definition one_completed_request : list Event :=
  [Arrive (ordinary_request 1); Finish 1; Close 1].

(** The same request, aborted by the client: only ['close'] is emitted. *)
Definition one_aborted_request : list Event :=
  [Arrive (ordinary_request 1); Close 1].

(** Redis is connected and mongoose is connected ([readyState] 1). *)
Definition healthy_world : World :=
  set_readyState 1 (set_redisAvailable true (initial_world 0)).

(** MongoDB accepts connections but never answers; Redis answers. *)
Definition hanging_store_env : Env :=
  {| redisOutcome := fun _ => RReply 1;
     mongoOutcome := fun _ => MHang;
     nanoid := nanoid steady_env;
     isoDate := isoDate steady_env |}.

(** The controller's [createShortUrl] for [{ url: "https://example.com" }]:
    the service call, then [cacheNewUrl] without waiting for it. *)
Definition controller_create (env : Env) (url : string) : Js string :=
  shortUrl ← createShortUrlWithoutUser env url None;
  detached (cacheNewUrl env shortUrl (JUrl (mkUrlData url shortUrl 0 None None)));;
  mret shortUrl.

(** After POST /api/create on a healthy server: the mapping is in the
    collection and in the cache. *)
Definition world_after_create : World :=
  snd (controller_create steady_env "https://example.com" healthy_world).

(** The mapping is in the collection only (its cache entry was never
    written). *)
Definition world_with_cold_cache : World :=
  snd (createShortUrlWithoutUser steady_env "https://example.com" None healthy_world).

(** mongoose is connected, Redis is not. *)
Definition world_without_redis : World := set_readyState 1 (initial_world 0).

(** A generator that keeps producing the code that is already taken. *)
Definition colliding_env : Env :=
  {| redisOutcome := fun _ => RReply 1;
     mongoOutcome := fun _ => MReply 5;
     nanoid := fun _ _ => "V1StGXR8";
     isoDate := isoDate steady_env |}.

(** Redis answers at once. *)
Definition instant_env : Env :=
  {| redisOutcome := fun _ => RReply 0;
     mongoOutcome := fun _ => MReply 5;
     nanoid := nanoid steady_env;
     isoDate := isoDate steady_env |}.

(** The client 203.0.113.7 has spent its 450 tokens within one
    millisecond. *)
Definition world_with_exhausted_bucket : World :=
  snd (repeat_js 450 (checkRateLimit instant_env "203.0.113.7" (of_Z 150) (of_Z 300);; mret tt)
         healthy_world).

(** A generator whose second identifier repeats the first. *)
Definition repeating_env : Env :=
  {| redisOutcome := fun _ => RReply 1;
     mongoOutcome := fun _ => MReply 5;
     nanoid := fun k _ => nth k ["V1StGXR8"; "V1StGXR8"; "Z5jdHi6B"] "x7Kp2mWq";
     isoDate := isoDate steady_env |}.

(** An operation that would be seen if it ran. *)
Definition visible_operation : Js unit := sleep 1.

(** * More of the code *)

(** ** cacheService.js: snapshots of the breaker and of the monitor *)

(** [CircuitBreaker.getState()]. *)
Record BreakerSnapshot := mkSnapshot {
  snapshot_state : BreakerState;
  snapshot_failureCount : Z;
  snapshot_lastFailureTime : option Z;
  snapshot_successCount : Z
}.

Definition getState (cb : CircuitBreaker) : BreakerSnapshot :=
  {| snapshot_state := state cb;
     snapshot_failureCount := failureCount cb;
     snapshot_lastFailureTime := lastFailureTime cb;
     snapshot_successCount := successCount cb |}.

(** [PerformanceMonitor.getMetrics()]: the counters and the two rates, in
    percent. *)
Record Metrics := mkMetrics {
  metrics_cacheHits : Z;
  metrics_cacheMisses : Z;
  metrics_redisErrors : Z;
  metrics_dbFallbacks : Z;
  metrics_avgResponseTime : Q;
  metrics_totalRequests : Z;
  cacheHitRate : Q;
  errorRate : Q
}.

Definition getMetrics (m : PerformanceMonitor) : Metrics :=
  {| metrics_cacheHits := cacheHits m;
     metrics_cacheMisses := cacheMisses m;
     metrics_redisErrors := redisErrors m;
     metrics_dbFallbacks := dbFallbacks m;
     metrics_avgResponseTime := avgResponseTime m;
     metrics_totalRequests := totalRequests m;
     cacheHitRate := if 0 <? totalRequests m
                     then (inject_Z (cacheHits m) / inject_Z (totalRequests m) * 100)%Q
                     else 0%Q;
     errorRate := if 0 <? totalRequests m
                  then (inject_Z (redisErrors m) / inject_Z (totalRequests m) * 100)%Q
                  else 0%Q |}.

(** [PerformanceMonitor.reset()]. *)
Definition reset (m : PerformanceMonitor) : PerformanceMonitor := new_PerformanceMonitor.

(** ** utils/helper.js: validateCustomShortId *)

(** A string is the sequence of its code units; the model has the units
    below 256, one [ascii] each. *)
Definition code_unit (c : Ascii.ascii) : nat := Ascii.nat_of_ascii c.

(** The character class [[a-zA-Z0-9_-]]. *)
Definition in_validPattern_class (c : Ascii.ascii) : bool :=
  let n := code_unit c in
  ((97 <=? n) && (n <=? 122))%nat || ((65 <=? n) && (n <=? 90))%nat
  || ((48 <=? n) && (n <=? 57))%nat || (n =? 95)%nat || (n =? 45)%nat.

(** [/^[a-zA-Z0-9_-]+$/.test(s)]. *)
Definition validPattern_test (s : string) : bool :=
  negb (s =? "")%string && forallb in_validPattern_class (list_ascii_of_string s).

(** [String.prototype.toLowerCase] on the code units below 128 (the only
    ones a string that passed [validPattern] has). *)
Definition lower_unit (c : Ascii.ascii) : Ascii.ascii :=
  let n := code_unit c in
  if ((65 <=? n) && (n <=? 90))%nat then Ascii.ascii_of_nat (n + 32) else c.

Fixpoint toLowerCase (s : string) : string :=
  match s with
  | EmptyString => EmptyString
  | String c s' => String (lower_unit c) (toLowerCase s')
  end.

Definition reservedWords : list string :=
  ["api"; "health"; "metrics"; "admin"; "create"; "shorten"].

(** [{ valid: true }] or [{ valid: false, error }]. *)
Inductive Validation := Valid | Invalid (error : string).

Definition validateCustomShortId (shortId : string) : Validation :=
  let len := String.length shortId in
  if ((len <? 3) || (20 <? len))%nat then
    Invalid "Custom short ID must be between 3 and 20 characters long"
  else if negb (validPattern_test shortId) then
    Invalid "Custom short ID can only contain letters, numbers, hyphens, and underscores"
  else if existsb (String.eqb (toLowerCase shortId)) reservedWords then
    Invalid "This custom short ID is reserved and cannot be used"
  else Valid.

(** [String.prototype.endsWith]. *)
Definition endsWith (s suffix : string) : bool :=
  let n := String.length s in
  let k := String.length suffix in
  (k <=? n)%nat && (substring (n - k) k s =? suffix)%string.

(** ** config/mongo.config.js: the connection health record *)

Module MongoConfig.

Record ConnectionHealth := mkHealth {
  isHealthy : bool;
  lastCheck : Z;
  consecutiveFailures : Z;
  totalConnections : Z;
  activeConnections : Z
}.

(** The initial value of [connectionHealth]; [t0] is [Date.now()] at load. *)
Definition initial (t0 : Z) : ConnectionHealth := mkHealth false t0 0 0 0.

(** The handlers of mongoose's ['error'], ['disconnected'], ['reconnected']
    and ['reconnectFailed'] events; [t] is [Date.now()]. *)
Definition on_error (t : Z) (h : ConnectionHealth) : ConnectionHealth :=
  mkHealth false t (consecutiveFailures h + 1) (totalConnections h) (activeConnections h).

Definition on_disconnected (t : Z) (h : ConnectionHealth) : ConnectionHealth :=
  mkHealth false t (consecutiveFailures h) (totalConnections h) (activeConnections h).

Definition on_reconnected (t : Z) (h : ConnectionHealth) : ConnectionHealth :=
  mkHealth true t 0 (totalConnections h) (activeConnections h).

Definition on_reconnectFailed (h : ConnectionHealth) : ConnectionHealth :=
  mkHealth (isHealthy h) (lastCheck h) (consecutiveFailures h + 1)
           (totalConnections h) (activeConnections h).

(** What [checkMongoHealth] returns: the status, the failure count, the
    time of the last check (before [toISOString]) and, by status, the
    message or error, or the pool figures. *)
Inductive MongoHealth : Type :=
| unhealthy (detail : string) (failures : Z) (checked : Z)
| healthy (total active : Z) (checked : Z) (failures : Z).

Definition is_healthy (mh : MongoHealth) : bool :=
  match mh with healthy _ _ _ _ => true | unhealthy _ _ _ => false end.

(** [delay = Math.min(Math.pow(2, retries) * 1000, 30000)]. *)
Definition retry_delay (retries : Z) : Z := Z.min (2 ^ retries * 1000) 30000.

Definition maxRetries : Z := 10.

(** [connectWithRetry], entered with [remaining = maxRetries - retries]
    retries left.  [connect k] tells whether the [k]-th call of
    [mongoose.connect] succeeds and how long it takes.  The result is the
    record when the chain of timers ends, the time then, and the delays
    waited. *)
Fixpoint connectWithRetry (connect : nat -> bool * nat)
         (remaining : nat) (k : nat) (t : Z) (h : ConnectionHealth)
  : ConnectionHealth * Z * list Z :=
  let t1 := t + Z.of_nat (snd (connect k)) in
  if fst (connect k) then
    (mkHealth true t1 0 (totalConnections h) (activeConnections h), t1, [])
  else
    let h' := mkHealth false t1 (consecutiveFailures h + 1)
                       (totalConnections h) (activeConnections h) in
    match remaining with
    | O => (h', t1, [])
    | S remaining' =>
        let retries := maxRetries - Z.of_nat remaining' in
        let delay := retry_delay retries in
        let '(hf, tf, delays) :=
          connectWithRetry connect remaining' (S k) (t1 + delay) h' in
        (hf, tf, delay :: delays)
    end.

Definition connectDB (connect : nat -> bool * nat) (t : Z) (h : ConnectionHealth)
  : ConnectionHealth * Z * list Z :=
  connectWithRetry connect (Z.to_nat maxRetries) 0 t h.

End MongoConfig.

Section Endpoints.

Context (env : Env).

(** ** cacheService.js: the rest of urlCacheService *)

(** [urlCacheService.clearUrlCache]. *)
Definition clearUrlCache (shortUrl : string) : Js unit :=
  try_catch
    (cacheService_del env (CACHE_KEYS_SHORT_URL shortUrl);; mret tt)
    (fun _ => mret tt).

(** [urlCacheService.getAnalytics]. *)
Definition getAnalytics (shortUrl : string) : Js JsonVal :=
  try_catch
    (got ← cacheService_get env (CACHE_KEYS_ANALYTICS shortUrl);
     mret (if truthy got then got else JAnalytics 0 ∅))
    (fun _ => mret (JAnalytics 0 ∅)).

(** The [redis] part of the health report. *)
Inductive RedisHealth : Type :=
| redis_healthy (latency : option string)
| redis_degraded (msg : string).

(** What [healthCheck] returns; [timestamp] is the instant, before
    [toISOString]. *)
Inductive HealthReport : Type :=
| health_report (redis : RedisHealth) (circuitBreaker : BreakerSnapshot)
                (performance : Metrics) (timestamp : Z)
| health_unhealthy (error : string) (timestamp : Z).

Definition is_JNull (v : JsonVal) : bool :=
  match v with JNull => true | _ => false end.

(** [urlCacheService.healthCheck]. *)
Definition healthCheck : Js HealthReport :=
  try_catch
    (got ← cacheService_get env "health:check";
     redisHealth ← (if negb (is_JNull got)
                    then latency ← cacheService_ping env; mret (redis_healthy latency)
                    else mret (redis_degraded "Cache not responding"));
     cb ← reads breaker;
     m ← reads monitor;
     t ← Date_now;
     mret (health_report redisHealth (getState cb) (getMetrics m) t))
    (fun error =>
       t ← Date_now;
       mret (health_unhealthy (message error) t)).

(** [urlCacheService.getPerformanceMetrics] and [resetPerformanceMetrics]. *)
Definition getPerformanceMetrics : Js Metrics :=
  m ← reads monitor; mret (getMetrics m).

Definition resetPerformanceMetrics : Js string :=
  modify_monitor reset;;
  mret "Performance metrics reset successfully".

(** ** controller/shortUrlController.js *)

(** What a handler answers: a JSON body with its status, or a redirect
    ([location] is [undefined] when the cached value has no [full_url]). *)
Inductive ControllerReply : Type :=
| json_400 (error : string)
| json_200 (shortUrl originalUrl : string) (custom : bool)
| json_404 (error : string)
| redirect (location : option string).

(** [customShortId] as a condition: [undefined] and [""] are falsy. *)
Definition given (customShortId : option string) : bool :=
  match customShortId with
  | Some s => negb (s =? "")%string
  | None => false
  end.

(** The handler wrapped by [createShortUrl]; [APP_URL] is
    [process.env.APP_URL], [url] and [customShortId] come from [req.body]
    (an absent [url] is the empty string).  An error thrown by the service
    leaves the handler as a rejection. *)
Definition createShortUrl (APP_URL url : string) (customShortId : option string)
  : Js ControllerReply :=
  if (url =? "")%string then mret (json_400 "URL is required")
  else
    match (if given customShortId
           then validateCustomShortId (default "" customShortId)
           else Valid) with
    | Invalid error => mret (json_400 error)
    | Valid =>
        shortUrl ← createShortUrlWithoutUser env url customShortId;
        let BASE_URL := if endsWith APP_URL "/" then APP_URL else APP_URL +:+ "/" in
        let fullShortUrl := BASE_URL +:+ shortUrl in
        detached (cacheNewUrl env shortUrl (JUrl (mkUrlData url shortUrl 0 None None)));;
        mret (json_200 fullShortUrl url (given customShortId))
    end.

(** The handler wrapped by [redirectFromShortUrl]; [id] is [req.params.id]. *)
Definition redirectFromShortUrl (id : string) : Js ControllerReply :=
  url ← urlCacheService_getShortUrl env id;
  if negb (truthy url) then mret (json_404 "Short URL not found")
  else mret (redirect (match url with
                       | JUrl d => Some (full_url d)
                       | _ => None
                       end)).

(** ** config/mongo.config.js: checkMongoHealth *)

(** [mongoose.connection.db.admin().ping()]. *)
Definition admin_ping : Js unit :=
  mongo_command env (fun _ d => inr (tt, d)).

(** [checkMongoHealth], with the module's [connectionHealth] passed in and
    out. *)
Definition checkMongoHealth (h : MongoConfig.ConnectionHealth)
  : Js (MongoConfig.MongoHealth * MongoConfig.ConnectionHealth) :=
  if negb (MongoConfig.isHealthy h) then
    mret (MongoConfig.unhealthy "MongoDB connection is not healthy"
            (MongoConfig.consecutiveFailures h) (MongoConfig.lastCheck h), h)
  else
    try_catch
      (admin_ping;;
       mret (MongoConfig.healthy (MongoConfig.totalConnections h)
               (MongoConfig.activeConnections h) (MongoConfig.lastCheck h)
               (MongoConfig.consecutiveFailures h), h))
      (fun error =>
         let h' := MongoConfig.mkHealth false (MongoConfig.lastCheck h)
                     (MongoConfig.consecutiveFailures h + 1)
                     (MongoConfig.totalConnections h)
                     (MongoConfig.activeConnections h) in
         mret (MongoConfig.unhealthy (message error)
                 (MongoConfig.consecutiveFailures h') (MongoConfig.lastCheck h'), h')).

(** ** app.js: GET /health *)

(** The status the handler answers with, and the connection health record
    it leaves. *)
Definition health_endpoint (h : MongoConfig.ConnectionHealth)
  : Js (Z * MongoConfig.ConnectionHealth) :=
  try_catch
    (redis_ping env;;
     mongoState ← reads readyState;
     r ← checkMongoHealth h;
     let isHealthy := MongoConfig.is_healthy (fst r) && (mongoState =? 1) in
     mret (if isHealthy then 200 else 503, snd r))
    (fun _ => mret (503, h)).

End Endpoints.

(** ** Predicates and scenarios for the rest of the code *)

(** An operation that rejects at once, leaving the world as it is. *)
Definition always_fails {A} (operation : Js A) : Prop :=
  forall w, exists e, operation w = (Rejected e, w).

(** An operation that resolves and leaves the breaker alone. *)
Definition always_succeeds {A} (operation : Js A) : Prop :=
  forall w, exists a w', operation w = (Resolved a, w') /\ breaker w' = breaker w.

(** The calls made on the performance monitor. *)
Inductive MonitorCall : Type :=
| call_recordCacheHit
| call_recordCacheMiss
| call_recordRedisError
| call_recordDbFallback
| call_recordResponseTime (time : Z)
| call_reset.

Definition monitor_call (m : PerformanceMonitor) (c : MonitorCall) : PerformanceMonitor :=
  match c with
  | call_recordCacheHit => recordCacheHit m
  | call_recordCacheMiss => recordCacheMiss m
  | call_recordRedisError => recordRedisError m
  | call_recordDbFallback => recordDbFallback m
  | call_recordResponseTime time => recordResponseTime time m
  | call_reset => reset m
  end.

(** What the monitor keeps: hits and misses are counted, and every counted
    request is one or the other; at most 100 response times are kept. *)
Definition monitor_inv (m : PerformanceMonitor) : Prop :=
  0 <= cacheHits m /\ 0 <= cacheMisses m /\
  totalRequests m = cacheHits m + cacheMisses m /\
  (length (responseTimes m) <= 100)%nat.

(** The [n]-th MongoDB command is not answered, either way, within [ms]
    milliseconds. *)
Definition unanswered_for (env : Env) (n : nat) (ms : Z) : Prop :=
  match mongoOutcome env n with
  | MReply lat => ms <= Z.of_nat lat
  | MReject lat _ => ms <= Z.of_nat lat
  | MHang => True
  end.

(** What the counters of app.js keep at every moment between two events:
    the three ceilings hold, and no request waits in the queue while a
    processing slot is free. *)
Definition admission_inv (a : Admission) : Prop :=
  globalRequestCount a <= GLOBAL_RATE_LIMIT /\
  processingRequests a <= MAX_CONCURRENT_REQUESTS /\
  queueLength a <= MAX_QUEUE_SIZE /\
  (requestQueue a <> [] -> processingRequests a = MAX_CONCURRENT_REQUESTS).
(** * Properties of the arithmetic on doubles *)

Lemma fexp_eq e : fexp 53 1024 e = Z.max (e - 53) (-1074).
Proof. reflexivity. Qed.

Lemma digits2_pos_size p : digits2_pos p = Pos.size p.
Proof. induction p; simpl; congruence. Qed.

Lemma Zdigits2_log2 m : 0 < m -> Zdigits2 m = Z.log2 m + 1.
Proof.
  destruct m as [|p|p]; try lia. intros _. simpl. rewrite digits2_pos_size.
  destruct p; simpl; lia.
Qed.

Lemma Zdigits2_0 : Zdigits2 0 = 0.
Proof. reflexivity. Qed.

Lemma Zdigits2_nonneg m : 0 <= Zdigits2 m.
Proof. destruct m; simpl; lia. Qed.

Lemma Zdigits2_bounds m : 0 < m -> 2 ^ (Zdigits2 m - 1) <= m < 2 ^ Zdigits2 m.
Proof.
  intros H. rewrite Zdigits2_log2 by assumption.
  replace (Z.log2 m + 1 - 1) with (Z.log2 m) by lia.
  replace (Z.log2 m + 1) with (Z.succ (Z.log2 m)) by lia.
  apply Z.log2_spec. assumption.
Qed.

Lemma Zdigits2_le_iff m d : 0 < m -> 0 <= d -> (Zdigits2 m <= d <-> m < 2 ^ d).
Proof.
  intros Hm Hd. pose proof (Zdigits2_bounds m Hm) as [Hlo Hhi].
  pose proof (Zdigits2_nonneg m).
  split; intros H1.
  - eapply Z.lt_le_trans; [exact Hhi|]. apply Z.pow_le_mono_r; lia.
  - destruct (Z_le_gt_dec (Zdigits2 m) d) as [|Hgt]; [assumption|exfalso].
    assert (2 ^ d <= 2 ^ (Zdigits2 m - 1)) by (apply Z.pow_le_mono_r; lia). lia.
Qed.

Lemma shr_m_shr_1 mrs : 0 <= shr_m mrs -> shr_m (shr_1 mrs) = shr_m mrs / 2.
Proof.
  destruct mrs as [m r s]. simpl. intros H.
  destruct m as [|[p|p|]|p]; simpl shr_m; try lia; try reflexivity.
  - apply Z.div_unique with 1; lia.
  - apply Z.div_unique with 0; lia.
Qed.

Lemma pow2_xI p : 2 ^ Z.pos p~1 = 2 * 2 ^ Z.pos p * 2 ^ Z.pos p.
Proof.
  change (Z.pos p~1) with (2 * Z.pos p + 1).
  replace (2 * Z.pos p + 1) with (1 + Z.pos p + Z.pos p) by lia.
  rewrite !Z.pow_add_r by lia. reflexivity.
Qed.

Lemma pow2_xO p : 2 ^ Z.pos p~0 = 2 ^ Z.pos p * 2 ^ Z.pos p.
Proof.
  change (Z.pos p~0) with (2 * Z.pos p).
  replace (2 * Z.pos p) with (Z.pos p + Z.pos p) by lia.
  rewrite !Z.pow_add_r by lia. reflexivity.
Qed.

Lemma shr_m_iter_pos p : forall mrs, 0 <= shr_m mrs ->
  shr_m (SpecFloat.iter_pos shr_1 p mrs) = shr_m mrs / 2 ^ Zpos p.
Proof.
  induction p as [p IH|p IH|]; intros mrs H; simpl SpecFloat.iter_pos.
  - assert (H1 : 0 <= shr_m (shr_1 mrs)) by (rewrite shr_m_shr_1 by lia; apply Z.div_pos; lia).
    assert (H2 : 0 <= shr_m (SpecFloat.iter_pos shr_1 p (shr_1 mrs)))
      by (rewrite IH by lia; apply Z.div_pos; lia).
    rewrite IH, IH, shr_m_shr_1 by assumption.
    rewrite !Z.div_div by lia. rewrite pow2_xI. f_equal. lia.
  - assert (H2 : 0 <= shr_m (SpecFloat.iter_pos shr_1 p mrs))
      by (rewrite IH by lia; apply Z.div_pos; lia).
    rewrite IH, IH by assumption.
    rewrite !Z.div_div by lia. rewrite pow2_xO. reflexivity.
  - rewrite shr_m_shr_1 by assumption. reflexivity.
Qed.

Lemma shr_m_record_of_loc m l : shr_m (shr_record_of_loc m l) = m.
Proof. destruct l as [|[]]; reflexivity. Qed.

(** What [shr_fexp] does to a non-negative mantissa. *)
Lemma shr_fexp_spec m e l : 0 <= m ->
  let k := fexp 53 1024 (Zdigits2 m + e) - e in
  (k <= 0 /\ shr_fexp 53 1024 m e l = (shr_record_of_loc m l, e)) \/
  (0 < k /\ exists mrs, shr_fexp 53 1024 m e l = (mrs, e + k) /\ shr_m mrs = m / 2 ^ k).
Proof.
  intros Hm k. unfold shr_fexp. fold k. unfold shr.
  destruct k as [|p|p] eqn:Hk.
  - left. split; [lia|reflexivity].
  - right. split; [lia|]. eexists. split; [reflexivity|].
    rewrite shr_m_iter_pos by (rewrite shr_m_record_of_loc; assumption).
    rewrite shr_m_record_of_loc. reflexivity.
  - left. split; [lia|reflexivity].
Qed.

Lemma round_nearest_even_bounds m l : m <= round_nearest_even m l <= m + 1.
Proof. destruct l as [|[]]; simpl; try lia. destruct (Z.even m); lia. Qed.

Lemma Zdigits2_div_pow2 m k : 0 <= m -> 0 < k ->
  Zdigits2 (m / 2 ^ k) <= Z.max 0 (Zdigits2 m - k).
Proof.
  intros Hm Hk.
  assert (Hq : 0 <= m / 2 ^ k) by (apply Z.div_pos; lia).
  destruct (Z.eq_dec (m / 2 ^ k) 0) as [->|Hne]; [simpl; lia|].
  assert (0 < m).
  { destruct (Z.eq_dec m 0) as [->|]; [|lia]. rewrite Z.div_0_l in Hne by lia. lia. }
  pose proof (Zdigits2_bounds m H) as [_ Hhi].
  destruct (Z_le_gt_dec (Zdigits2 m) k) as [Hle|Hgt].
  - exfalso. apply Hne. apply Z.div_small. split; [lia|].
    eapply Z.lt_le_trans; [exact Hhi|]. apply Z.pow_le_mono_r; lia.
  - rewrite Z.max_r by lia. apply Zdigits2_le_iff; [lia|lia|].
    apply Z.div_lt_upper_bound; [lia|]. rewrite <- Z.pow_add_r by lia.
    replace (k + (Zdigits2 m - k)) with (Zdigits2 m) by lia. assumption.
Qed.

(** After [shr_fexp] the mantissa has at most 53 bits. *)
Lemma shr_fexp_digits m e l mrs e' : 0 <= m ->
  shr_fexp 53 1024 m e l = (mrs, e') ->
  0 <= shr_m mrs /\ Zdigits2 (shr_m mrs) <= 53.
Proof.
  intros Hm Heq. pose proof (Zdigits2_nonneg m) as Hd.
  destruct (shr_fexp_spec m e l Hm) as [[Hk H]|[Hk (mrs0 & H & Hv)]];
    rewrite H in Heq; injection Heq as <- <-.
  - rewrite shr_m_record_of_loc. split; [assumption|]. rewrite fexp_eq in Hk. lia.
  - rewrite Hv. split; [apply Z.div_pos; lia|].
    pose proof (Zdigits2_div_pow2 m _ Hm Hk). rewrite fexp_eq in *. lia.
Qed.

Lemma binary_round_aux_sound s m e l : 0 <= m ->
  has_sign s (binary_round_aux 53 1024 s m e l) /\
  is_double (binary_round_aux 53 1024 s m e l).
Proof.
  intros Hm. unfold binary_round_aux.
  destruct (shr_fexp 53 1024 m e l) as [mrs' e'] eqn:H1.
  destruct (shr_fexp_digits _ _ _ _ _ Hm H1) as [Hn1 _].
  pose proof (round_nearest_even_bounds (shr_m mrs') (loc_of_shr_record mrs')) as Hr.
  destruct (shr_fexp 53 1024 _ e' loc_Exact) as [mrs'' e''] eqn:H2.
  apply shr_fexp_digits in H2; [|lia]. destruct H2 as [Hn2 Hd2].
  destruct (shr_m mrs'') as [|p|p] eqn:Hp; try lia.
  - split; [reflexivity|exact I].
  - destruct (Z.leb_spec e'' (1024 - 53)).
    + split; [reflexivity|]. simpl in Hd2 |- *. lia.
    + split; [reflexivity|exact I].
Qed.

Lemma binary_round_sound s m e :
  has_sign s (binary_round 53 1024 s m e) /\ is_double (binary_round 53 1024 s m e).
Proof.
  unfold binary_round. destruct (shl_align _ _ _) as [mz ez].
  apply binary_round_aux_sound. lia.
Qed.

Lemma Qpow2_pos e : (0 < 2 ^ e)%Q.
Proof. apply Qpower_0_lt. reflexivity. Qed.

Lemma Qpow2_split e e0 : e0 <= e -> (2 ^ e == inject_Z (2 ^ (e - e0)) * 2 ^ e0)%Q.
Proof.
  intros H. rewrite Zpower_Qpower by lia.
  rewrite <- Qpower_plus by (intros E; discriminate E).
  replace (e - e0 + e0) with e by lia. reflexivity.
Qed.

Lemma scaled_le_iff (a b ea eb : Z) :
  (inject_Z a * 2 ^ ea <= inject_Z b * 2 ^ eb)%Q <->
  a * 2 ^ (ea - Z.min ea eb) <= b * 2 ^ (eb - Z.min ea eb).
Proof.
  set (e0 := Z.min ea eb).
  rewrite (Qpow2_split ea e0), (Qpow2_split eb e0) by (unfold e0; lia).
  rewrite !Qmult_assoc, <- !inject_Z_mult.
  rewrite Zle_Qle. split; intros H.
  - apply Qmult_le_r in H; [assumption|apply Qpow2_pos].
  - apply Qmult_le_r; [apply Qpow2_pos|assumption].
Qed.

Lemma F2Q_le_iff m1 e1 m2 e2 :
  (F2Q false m1 e1 <= F2Q false m2 e2)%Q <->
  Zpos m1 * 2 ^ (e1 - Z.min e1 e2) <= Zpos m2 * 2 ^ (e2 - Z.min e1 e2).
Proof. apply scaled_le_iff. Qed.

Lemma F2Q_pos m e : (0 < F2Q false m e)%Q.
Proof.
  unfold F2Q. simpl cond_Zopp.
  apply Qmult_lt_0_compat; [|apply Qpow2_pos].
  rewrite <- (Zlt_Qlt 0). lia.
Qed.

Lemma F2Q_neg m e : (F2Q true m e < 0)%Q.
Proof.
  assert (E : (F2Q true m e == - F2Q false m e)%Q).
  { unfold F2Q. simpl cond_Zopp. change (Z.neg m) with (- Z.pos m).
    rewrite inject_Z_opp. ring. }
  rewrite E. apply (Qopp_lt_compat 0). apply F2Q_pos.
Qed.

(** ** The order *)

Lemma nonneg_cases x :
  nonneg x <->
  match x with
  | S754_zero _ => True
  | S754_infinity s => s = false
  | S754_nan => False
  | S754_finite s _ _ => s = false
  end.
Proof.
  unfold nonneg. destruct x as [s|[]| |[] m e]; simpl.
  - split; [intros _; exact I|intros _; reflexivity].
  - split; discriminate.
  - split; reflexivity.
  - split; [discriminate|contradiction].
  - split; [intros H|discriminate]. apply Qle_bool_iff in H.
    pose proof (F2Q_neg m e). exfalso. eapply Qlt_not_le; eassumption.
  - split; [reflexivity|intros _]. apply Qle_bool_iff. apply Qlt_le_weak, F2Q_pos.
Qed.

Lemma fle_not_nan x y : fle x y = true -> x <> S754_nan /\ y <> S754_nan.
Proof. destruct x as [|[]| |], y as [|[]| |]; simpl; intros H; split; congruence. Qed.

Lemma fle_refl x : x <> S754_nan -> fle x x = true.
Proof.
  destruct x as [s|[]| |s m e]; cbn [fle fvalue]; try congruence; intros _;
    apply Qle_bool_iff, Qle_refl.
Qed.

Lemma fle_trans x y z : fle x y = true -> fle y z = true -> fle x z = true.
Proof.
  destruct x as [sx|[]| |sx mx ex], y as [sy|[]| |sy my ey], z as [sz|[]| |sz mz ez];
    cbn [fle fvalue]; intros H1 H2; try discriminate; try reflexivity;
    apply Qle_bool_iff in H1; apply Qle_bool_iff in H2; apply Qle_bool_iff;
    exact (Qle_trans _ _ _ H1 H2).
Qed.

Lemma fle_total x y : x <> S754_nan -> y <> S754_nan -> fle x y = false -> fle y x = true.
Proof.
  destruct x as [sx|[]| |sx mx ex], y as [sy|[]| |sy my ey];
    cbn [fle fvalue]; intros Hx Hy H; try discriminate; try reflexivity; try congruence;
    apply Qle_bool_iff; apply Qlt_le_weak; apply Qnot_le_lt; intros C;
    apply Qle_bool_iff in C; congruence.
Qed.

(** ** [Math.min] and [Math.max] *)

Lemma fmin_cases x y : x <> S754_nan -> y <> S754_nan ->
  fmin x y = x \/ fmin x y = y \/
  exists sx sy, x = S754_zero sx /\ y = S754_zero sy /\ fmin x y = S754_zero (sx || sy).
Proof.
  intros Hx Hy.
  destruct x as [sx|sx| |sx mx ex], y as [sy|sy| |sy my ey]; try congruence;
    try (unfold fmin; destruct (fle _ _); tauto).
  right. right. exists sx, sy. auto.
Qed.

Lemma fmin_le_l x y : x <> S754_nan -> y <> S754_nan -> fle (fmin x y) x = true.
Proof.
  intros Hx Hy.
  destruct x as [sx|sx| |sx mx ex], y as [sy|sy| |sy my ey]; try congruence;
    try reflexivity;
    unfold fmin;
    match goal with |- fle (if fle ?a ?b then _ else _) _ = true =>
      destruct (fle a b) eqn:E; [apply fle_refl; congruence|
        apply fle_total; congruence] end.
Qed.

Lemma fmin_nonneg x y : nonneg x -> nonneg y -> nonneg (fmin x y).
Proof.
  intros Hx Hy.
  destruct (fle_not_nan _ _ Hx) as [_ Nx]. destruct (fle_not_nan _ _ Hy) as [_ Ny].
  destruct (fmin_cases x y Nx Ny) as [->|[->|(sx & sy & _ & _ & ->)]]; try assumption.
  apply nonneg_cases. exact I.
Qed.

Lemma fmin_is_double x y : is_double x -> is_double y -> is_double (fmin x y).
Proof.
  intros Hx Hy.
  destruct x as [sx|sx| |sx mx ex], y as [sy|sy| |sy my ey]; try exact I;
    unfold fmin; try destruct (fle _ _); assumption || exact I.
Qed.

Lemma fmax_zero_nonneg y : y <> S754_nan -> nonneg (fmax (S754_zero false) y).
Proof.
  intros Hy. destruct y as [sy|sy| |sy my ey]; try congruence.
  - apply nonneg_cases. exact I.
  - unfold fmax. destruct (fle _ _) eqn:E; [exact E|apply nonneg_cases; exact I].
  - unfold fmax. destruct (fle _ _) eqn:E; [exact E|apply nonneg_cases; exact I].
Qed.

Lemma fmax_zero_is_double y : is_double y -> is_double (fmax (S754_zero false) y).
Proof.
  intros Hy. destruct y as [sy|sy| |sy my ey]; try exact I;
    unfold fmax; destruct (fle _ _); assumption || exact I.
Qed.

(** ** Signs and representability of the results of the operations *)

Lemma binary_normalize_sound n e :
  binary_normalize 53 1024 n e false <> S754_nan /\
  is_double (binary_normalize 53 1024 n e false) /\
  (0 <= n -> nonneg (binary_normalize 53 1024 n e false)).
Proof.
  destruct n as [|p|p]; simpl binary_normalize.
  - split; [discriminate|]. split; [exact I|]. intros _. apply nonneg_cases. exact I.
  - destruct (binary_round_sound false p e) as [Hs Hd].
    split; [intros E; rewrite E in Hs; exact Hs|]. split; [exact Hd|].
    intros _. apply nonneg_cases.
    destruct (binary_round 53 1024 false p e); simpl in Hs; try exact I; try assumption.
  - destruct (binary_round_sound true p e) as [Hs Hd].
    split; [intros E; rewrite E in Hs; exact Hs|]. split; [exact Hd|]. lia.
Qed.

Lemma of_Z_sound n :
  of_Z n <> S754_nan /\ is_double (of_Z n) /\ (0 <= n -> nonneg (of_Z n)).
Proof. apply binary_normalize_sound. Qed.

Lemma fadd_nonneg x y : nonneg x -> nonneg y -> nonneg (fadd x y).
Proof.
  intros Hx Hy. apply nonneg_cases in Hx, Hy.
  destruct x as [sx|sx| |sx mx ex], y as [sy|sy| |sy my ey]; try contradiction;
    subst; unfold fadd, SFadd; try (apply nonneg_cases; simpl; tauto).
  - apply nonneg_cases. destruct sx, sy; exact I.
  - apply binary_normalize_sound. simpl. lia.
Qed.

Lemma fadd_is_double x y : is_double x -> is_double y -> is_double (fadd x y).
Proof.
  intros Hx Hy.
  destruct x as [sx|sx| |sx mx ex], y as [sy|sy| |sy my ey]; unfold fadd, SFadd;
    try exact I; try assumption.
  - destruct sx, sy; exact I.
  - destruct sx, sy; exact I.
  - apply binary_normalize_sound.
Qed.

Lemma fmul_is_double x y : is_double (fmul x y).
Proof.
  destruct x as [sx|sx| |sx mx ex], y as [sy|sy| |sy my ey]; unfold fmul, SFmul;
    try exact I.
  apply binary_round_aux_sound. lia.
Qed.

Lemma fmul_nonneg x m e : nonneg x -> nonneg (fmul x (S754_finite false m e)).
Proof.
  intros Hx. apply nonneg_cases in Hx.
  destruct x as [sx|sx| |sx mx ex]; try contradiction; subst; unfold fmul, SFmul;
    try (apply nonneg_cases; simpl; tauto).
  destruct (binary_round_aux_sound (xorb false false) (Z.pos (mx * m)) (ex + e) loc_Exact)
    as [Hs _]; [lia|].
  apply nonneg_cases.
  destruct (binary_round_aux _ _ _ _ _ _); simpl in Hs; try exact I; try assumption.
Qed.

Lemma SFdiv_core_binary_nonneg m1 e1 m2 e2 :
  0 <= fst (fst (SFdiv_core_binary 53 1024 (Z.pos m1) e1 (Z.pos m2) e2)).
Proof.
  unfold SFdiv_core_binary.
  set (m' := match _ with Z.pos _ => _ | _ => _ end).
  assert (Hm : 0 <= m').
  { unfold m'. destruct (_ - _ - _); try lia. apply Z.shiftl_nonneg. lia. }
  pose proof (Z_div_mod m' (Z.pos m2) ltac:(lia)) as H.
  destruct (Z.div_eucl m' (Z.pos m2)) as [q r]. simpl. nia.
Qed.

Lemma fdiv_finite_sound x m e :
  x <> S754_nan -> is_double x ->
  fdiv x (S754_finite false m e) <> S754_nan /\ is_double (fdiv x (S754_finite false m e)).
Proof.
  intros Hx Hd.
  destruct x as [sx|sx| |sx mx ex]; try congruence; unfold fdiv, SFdiv;
    try (split; [discriminate|exact I]).
  pose proof (SFdiv_core_binary_nonneg mx ex m e) as Hq.
  destruct (SFdiv_core_binary 53 1024 (Z.pos mx) ex (Z.pos m) e) as [[mz ez] lz].
  simpl in Hq.
  destruct (binary_round_aux_sound (xorb sx false) mz ez lz Hq) as [Hs Hdd].
  split; [intros E; rewrite E in Hs; exact Hs|exact Hdd].
Qed.

Lemma iter_xO_pow m d : Z.pos (Pos.iter xO m d) = Z.pos m * 2 ^ Z.pos d.
Proof.
  induction d as [|d IH] using Pos.peano_ind.
  - simpl. lia.
  - rewrite Pos.iter_succ, Pos2Z.inj_succ, Z.pow_succ_r by lia.
    change (Z.pos (Pos.iter xO m d)~0) with (2 * Z.pos (Pos.iter xO m d)).
    rewrite IH. lia.
Qed.

Lemma shl_align_spec mx ex ex' : ex' <= ex ->
  exists m', shl_align mx ex ex' = (m', ex') /\ Z.pos m' = Z.pos mx * 2 ^ (ex - ex').
Proof.
  intros H. unfold shl_align. destruct (ex' - ex) as [|p|p] eqn:E; try lia.
  - assert (ex = ex') by lia. subst. exists mx. rewrite Z.sub_diag. split; [reflexivity|lia].
  - eexists. split; [reflexivity|]. rewrite iter_xO_pow. f_equal. f_equal. lia.
Qed.

Lemma shl_align_keep mx ex ex' : ex <= ex' -> shl_align mx ex ex' = (mx, ex).
Proof. intros H. unfold shl_align. destruct (ex' - ex) eqn:E; try reflexivity. lia. Qed.

Lemma Zdigits2_mul_pow2 m n : 0 < m -> 0 <= n -> Zdigits2 (m * 2 ^ n) = Zdigits2 m + n.
Proof.
  intros Hm Hn. rewrite !Zdigits2_log2 by (try apply Z.mul_pos_pos; lia).
  rewrite Z.log2_mul_pow2 by lia. lia.
Qed.

(** A mantissa that needs no shift goes through [binary_round_aux] unchanged. *)
Lemma binary_round_aux_exact s (m : positive) e :
  fexp 53 1024 (Z.pos (digits2_pos m) + e) <= e -> e <= 971 ->
  binary_round_aux 53 1024 s (Z.pos m) e loc_Exact = S754_finite s m e.
Proof.
  intros Hk He. unfold binary_round_aux.
  assert (H1 : shr_fexp 53 1024 (Z.pos m) e loc_Exact =
               ({| shr_m := Z.pos m; shr_r := false; shr_s := false |}, e)).
  { destruct (shr_fexp_spec (Z.pos m) e loc_Exact) as [[_ H]|[Hk' _]]; [lia|exact H|].
    simpl Zdigits2 in Hk'. lia. }
  rewrite H1. simpl round_nearest_even. rewrite H1. simpl shr_m.
  destruct (Z.leb_spec e (1024 - 53)); [reflexivity|lia].
Qed.

(** Rounding to nearest does not jump over a representable number above. *)
Lemma binary_round_le (z : positive) (ez : Z) (mx : positive) (j : Z) :
  -1074 <= ez -> 0 <= j -> Z.pos (digits2_pos mx) <= 53 -> ez + j <= 971 ->
  Z.pos z < Z.pos mx * 2 ^ j ->
  fle (binary_round 53 1024 false z ez) (S754_finite false mx (ez + j)) = true.
Proof.
  intros Hez Hj Hdx Hmax Hlt.
  set (d := Z.pos (digits2_pos z)).
  assert (Hd : 2 ^ (d - 1) <= Z.pos z < 2 ^ d) by (apply (Zdigits2_bounds (Z.pos z)); lia).
  assert (Hd1 : 1 <= d) by (unfold d; lia).
  assert (Hmx : Z.pos mx < 2 ^ 53).
  { apply (Zdigits2_le_iff (Z.pos mx)); [lia|lia|exact Hdx]. }
  assert (Hpj : 0 < 2 ^ j) by (apply Z.pow_pos_nonneg; lia).
  (* the number of bits of z is at most 53 + j *)
  assert (Hdj : d <= 53 + j).
  { apply (Zdigits2_le_iff (Z.pos z)); [lia|lia|].
    rewrite Z.pow_add_r by lia. nia. }
  unfold binary_round. fold d.
  set (ec := fexp 53 1024 (d + ez)).
  assert (Hec : ec = Z.max (d + ez - 53) (-1074)) by reflexivity.
  destruct (Z_lt_le_dec ec ez) as [Hlo|Hhi].
  - (* the mantissa is first shifted left: no bit is lost *)
    destruct (shl_align_spec z ez ec ltac:(lia)) as (mz & -> & Hmz).
    assert (Hdz : Z.pos (digits2_pos mz) = d + (ez - ec)).
    { change (Zdigits2 (Z.pos mz) = d + (ez - ec)). rewrite Hmz.
      apply (Zdigits2_mul_pow2 (Z.pos z)); lia. }
    rewrite binary_round_aux_exact.
    + cbn [fle fvalue]. apply Qle_bool_iff, F2Q_le_iff.
      rewrite Z.min_l by lia. rewrite Z.sub_diag, Z.mul_1_r, Hmz.
      replace (ez + j - ec) with (j + (ez - ec)) by lia.
      rewrite Z.pow_add_r by lia.
      assert (0 < 2 ^ (ez - ec)) by (apply Z.pow_pos_nonneg; lia). nia.
    + rewrite Hdz. replace (d + (ez - ec) + ec) with (d + ez) by lia. fold ec. lia.
    + lia.
  - rewrite shl_align_keep by lia.
    destruct (Z.eq_dec ec ez) as [Heq|Hne].
    + rewrite binary_round_aux_exact.
      * cbn [fle fvalue]. apply Qle_bool_iff, F2Q_le_iff.
        rewrite Z.min_l by lia. rewrite Z.sub_diag, Z.mul_1_r.
        replace (ez + j - ez) with j by lia. lia.
      * fold d. fold ec. lia.
      * lia.
    + (* k bits are dropped *)
      set (k := d - 53).
      assert (Hk : ec - ez = k) by (unfold k; lia).
      assert (Hk0 : 0 < k) by lia.
      assert (Hkj : k <= j) by (unfold k; lia).
      unfold binary_round_aux.
      destruct (shr_fexp_spec (Z.pos z) ez loc_Exact) as [[Hc _]|[_ (mrs & H1 & Hm1)]];
        [lia|simpl Zdigits2 in Hc; fold d in Hc; fold ec in Hc; lia|].
      simpl Zdigits2 in H1, Hm1. fold d in H1, Hm1. fold ec in H1, Hm1.
      rewrite Hk in H1, Hm1. rewrite H1.
      set (r := round_nearest_even (shr_m mrs) (loc_of_shr_record mrs)).
      pose proof (round_nearest_even_bounds (shr_m mrs) (loc_of_shr_record mrs)) as Hr.
      fold r in Hr. rewrite Hm1 in Hr.
      assert (Hpk : 0 < 2 ^ k) by (apply Z.pow_pos_nonneg; lia).
      (* the quotient has exactly 53 bits *)
      assert (Hq : 2 ^ 52 <= Z.pos z / 2 ^ k < 2 ^ 53).
      { split.
        - apply Z.div_le_lower_bound; [lia|]. rewrite <- Z.pow_add_r by lia.
          replace (k + 52) with (d - 1) by (unfold k; lia). lia.
        - apply Z.div_lt_upper_bound; [lia|]. rewrite <- Z.pow_add_r by lia.
          replace (k + 53) with d by (unfold k; lia). lia. }
      (* the representable number above is a multiple of 2^k *)
      set (A := Z.pos mx * 2 ^ (j - k)).
      assert (HA : Z.pos mx * 2 ^ j = A * 2 ^ k).
      { unfold A. rewrite <- Z.mul_assoc, <- Z.pow_add_r by lia.
        replace (j - k + k) with j by lia. reflexivity. }
      assert (HrA : r <= A).
      { assert (Z.pos z / 2 ^ k < A); [|lia].
        apply Z.div_lt_upper_bound; [lia|]. rewrite Z.mul_comm, <- HA. exact Hlt. }
      destruct (Z.eq_dec r (2 ^ 53)) as [Hr53|Hr53].
      * (* the rounding carried: one more bit is dropped, exactly *)
        assert (Hjk : k < j).
        { destruct (Z.eq_dec k j) as [E|]; [|lia]. exfalso.
          unfold A in HrA. rewrite E, Z.sub_diag in HrA. lia. }
        destruct (shr_fexp_spec r (ez + k) loc_Exact) as [[Hc _]|[_ (mrs2 & H2 & Hm2)]];
          [lia| |].
        { exfalso. rewrite Hr53 in Hc. change (Zdigits2 (2 ^ 53)) with 54 in Hc.
          rewrite fexp_eq in Hc. lia. }
        rewrite Hr53 in H2, Hm2. change (Zdigits2 (2 ^ 53)) with 54 in H2, Hm2.
        replace (fexp 53 1024 (54 + (ez + k)) - (ez + k)) with 1 in H2, Hm2
          by (rewrite fexp_eq; lia).
        fold r. rewrite Hr53, H2, Hm2. change (2 ^ 53 / 2 ^ 1) with (Z.pos 4503599627370496).
        cbv iota beta.
        destruct (Z.leb_spec (ez + k + 1) (1024 - 53)); [|lia].
        cbn [fle fvalue]. apply Qle_bool_iff, F2Q_le_iff.
        rewrite Z.min_l by lia. rewrite Z.sub_diag, Z.mul_1_r.
        replace (ez + j - (ez + k + 1)) with (j - k - 1) by lia.
        unfold A in HrA. rewrite Hr53 in HrA.
        replace (j - k) with (1 + (j - k - 1)) in HrA by lia.
        rewrite Z.pow_add_r in HrA by lia.
        change (2 ^ 53) with (2 * 4503599627370496) in HrA. lia.
      * assert (Hr52 : 2 ^ 52 <= r < 2 ^ 53) by lia.
        assert (Hdr : Zdigits2 r = 53).
        { assert (Zdigits2 r <= 53) by (apply Zdigits2_le_iff; lia).
          assert (~ Zdigits2 r <= 52); [|lia].
          intros C. apply Zdigits2_le_iff in C; lia. }
        destruct (shr_fexp_spec r (ez + k) loc_Exact) as [[_ H2]|[Hc _]];
          [lia| |rewrite Hdr, fexp_eq in Hc; lia].
        fold r. rewrite H2. simpl shr_m.
        destruct r as [|pr|pr] eqn:Er; try lia.
        destruct (Z.leb_spec (ez + k) (1024 - 53)); [|lia].
        cbn [fle fvalue]. apply Qle_bool_iff, F2Q_le_iff.
        rewrite Z.min_l by lia. rewrite Z.sub_diag, Z.mul_1_r.
        replace (ez + j - (ez + k)) with (j - k) by lia. exact HrA.
Qed.

Lemma of_Z_1 : of_Z 1 = S754_finite false 4503599627370496 (-52).
Proof. reflexivity. Qed.

(** [tokens -= 1] on a double that is at least 1. *)
Lemma fsub_one_sound x :
  is_double x -> fle (of_Z 1) x = true ->
  nonneg (fsub x (of_Z 1)) /\ fle (fsub x (of_Z 1)) x = true /\
  is_double (fsub x (of_Z 1)).
Proof.
  intros Hd H1. rewrite of_Z_1 in *.
  destruct x as [sx|[]| |[] mx ex]; try discriminate H1.
  - split; [reflexivity|]. split; [reflexivity|exact I].
  - exfalso. cbn [fle fvalue] in H1. apply Qle_bool_iff in H1.
    pose proof (F2Q_neg mx ex). pose proof (F2Q_pos 4503599627370496 (-52)).
    apply (Qlt_irrefl 0). eapply Qlt_le_trans; [eassumption|].
    eapply Qle_trans; [eassumption|]. apply Qlt_le_weak. assumption.
  - cbn [fle fvalue] in H1. apply Qle_bool_iff, F2Q_le_iff in H1.
    destruct Hd as [Hdx Hex].
    assert (Hmx : Z.pos mx < 2 ^ 53).
    { apply (Zdigits2_le_iff (Z.pos mx)); [lia|lia|exact Hdx]. }
    assert (Hlo : -52 <= ex).
    { destruct (Z_le_gt_dec (-52) ex) as [|Hgt]; [assumption|exfalso].
      rewrite Z.min_r in H1 by lia. rewrite Z.sub_diag, Z.mul_1_r in H1.
      assert (2 ^ 1 <= 2 ^ (-52 - ex)) by (apply Z.pow_le_mono_r; lia).
      change (2 ^ 1) with 2 in *. change (2 ^ 53) with 9007199254740992 in Hmx. nia. }
    rewrite Z.min_l in H1 by lia. rewrite Z.sub_diag, Z.mul_1_r in H1.
    unfold fsub, SFsub. rewrite Z.min_r by lia.
    destruct (shl_align_spec mx ex (-52) Hlo) as (X & -> & HX).
    rewrite (shl_align_keep 4503599627370496 (-52) (-52)) by lia.
    cbn [fst cond_Zopp]. replace (ex - -52) with (ex + 52) in * by lia.
    rewrite <- HX in H1.
    destruct (Z.pos X - 4503599627370496) as [|z|z] eqn:Ez; try lia;
      cbn [binary_normalize].
    + split; [apply nonneg_cases; exact I|]. split; [|exact I].
      cbn [fle fvalue]. apply Qle_bool_iff, Qlt_le_weak, F2Q_pos.
    + destruct (binary_round_sound false z (-52)) as [Hs Hdd].
      split; [|split; [|exact Hdd]].
      * apply nonneg_cases.
        destruct (binary_round 53 1024 false z (-52)); simpl in Hs;
          try exact I; assumption.
      * assert (HH : fle (binary_round 53 1024 false z (-52))
                         (S754_finite false mx (-52 + (ex + 52))) = true)
          by (apply binary_round_le; try lia; rewrite <- HX; lia).
        replace (-52 + (ex + 52)) with ex in HH by lia. exact HH.
Qed.

Lemma scaled_eq (a b ea eb : Z) :
  a * 2 ^ (ea - Z.min ea eb) = b * 2 ^ (eb - Z.min ea eb) ->
  (inject_Z a * 2 ^ ea == inject_Z b * 2 ^ eb)%Q.
Proof.
  intros H. apply Qle_antisym.
  - apply scaled_le_iff. lia.
  - apply scaled_le_iff. rewrite Z.min_comm. lia.
Qed.

Lemma shr_1_even m : 0 <= m -> (2 | m) ->
  shr_1 {| shr_m := m; shr_r := false; shr_s := false |} =
  {| shr_m := m / 2; shr_r := false; shr_s := false |}.
Proof.
  intros Hm [q Hq]. destruct m as [|[p|p|]|p]; try lia; simpl shr_1.
  - reflexivity.
  - f_equal. apply Z.div_unique with 0; lia.
Qed.

Lemma shr_iter_exact p : forall m, 0 <= m -> (2 ^ Z.pos p | m) ->
  SpecFloat.iter_pos shr_1 p {| shr_m := m; shr_r := false; shr_s := false |} =
  {| shr_m := m / 2 ^ Z.pos p; shr_r := false; shr_s := false |}.
Proof.
  induction p as [p IH|p IH|]; intros m Hm [q Hq]; cbn [SpecFloat.iter_pos].
  - rewrite pow2_xI in Hq.
    assert (Hp : 0 < 2 ^ Z.pos p) by (apply Z.pow_pos_nonneg; lia).
    rewrite shr_1_even by (try lia; exists (q * 2 ^ Z.pos p * 2 ^ Z.pos p); lia).
    assert (E1 : m / 2 = q * 2 ^ Z.pos p * 2 ^ Z.pos p)
      by (symmetry; apply Z.div_unique with 0; lia).
    rewrite E1.
    rewrite IH by (try nia; exists (q * 2 ^ Z.pos p); lia).
    rewrite Z.div_mul by lia.
    rewrite IH by (try nia; exists q; lia).
    rewrite Z.div_mul by lia. f_equal.
    symmetry. rewrite Hq, pow2_xI. apply Z.div_mul. lia.
  - rewrite pow2_xO in Hq.
    assert (Hp : 0 < 2 ^ Z.pos p) by (apply Z.pow_pos_nonneg; lia).
    rewrite IH by (try lia; exists (q * 2 ^ Z.pos p); lia).
    assert (E1 : m / 2 ^ Z.pos p = q * 2 ^ Z.pos p)
      by (rewrite Hq, Z.mul_assoc; apply Z.div_mul; lia).
    rewrite E1.
    rewrite IH by (try nia; exists q; lia).
    rewrite Z.div_mul by lia. f_equal.
    symmetry. rewrite Hq, pow2_xO. apply Z.div_mul. lia.
  - apply shr_1_even; [assumption|]. exists q. exact Hq.
Qed.

(** A number that fits in 53 bits once its trailing zeros are dropped is
    not changed by the rounding. *)
Lemma binary_round_exact (z : positive) (ez : Z) :
  -1074 <= ez ->
  (2 ^ (Z.pos (digits2_pos z) - 53) | Z.pos z) \/ Z.pos (digits2_pos z) <= 53 ->
  ez + (Z.pos (digits2_pos z) - 53) <= 971 ->
  exists m e, binary_round 53 1024 false z ez = S754_finite false m e /\
              (F2Q false m e == F2Q false z ez)%Q.
Proof.
  intros Hez Hdiv Hmax.
  set (d := Z.pos (digits2_pos z)) in *.
  assert (Hd : 2 ^ (d - 1) <= Z.pos z < 2 ^ d) by (apply (Zdigits2_bounds (Z.pos z)); lia).
  assert (Hd1 : 1 <= d) by (unfold d; lia).
  unfold binary_round. fold d.
  set (ec := fexp 53 1024 (d + ez)).
  assert (Hec : ec = Z.max (d + ez - 53) (-1074)) by reflexivity.
  destruct (Z_lt_le_dec ec ez) as [Hlo|Hhi].
  - destruct (shl_align_spec z ez ec ltac:(lia)) as (mz & -> & Hmz).
    assert (Hdz : Z.pos (digits2_pos mz) = d + (ez - ec)).
    { change (Zdigits2 (Z.pos mz) = d + (ez - ec)). rewrite Hmz.
      apply (Zdigits2_mul_pow2 (Z.pos z)); lia. }
    exists mz, ec. split.
    + apply binary_round_aux_exact; [|lia].
      rewrite Hdz. replace (d + (ez - ec) + ec) with (d + ez) by lia. fold ec. lia.
    + apply scaled_eq. rewrite Z.min_l by lia. rewrite Z.sub_diag, Z.mul_1_r. exact Hmz.
  - rewrite shl_align_keep by lia.
    destruct (Z.eq_dec ec ez) as [Heq|Hne].
    + exists z, ez. split; [|reflexivity].
      apply binary_round_aux_exact; [fold d; fold ec; lia|lia].
    + set (k := d - 53).
      assert (Hk : ec - ez = k) by (unfold k; lia).
      assert (Hk0 : 0 < k) by lia.
      destruct Hdiv as [Hdiv|Hdiv]; [|lia]. fold k in Hdiv.
      assert (Hpk : 0 < 2 ^ k) by (apply Z.pow_pos_nonneg; lia).
      assert (Hq : 2 ^ 52 <= Z.pos z / 2 ^ k < 2 ^ 53).
      { split.
        - apply Z.div_le_lower_bound; [lia|]. rewrite <- Z.pow_add_r by lia.
          replace (k + 52) with (d - 1) by (unfold k; lia). lia.
        - apply Z.div_lt_upper_bound; [lia|]. rewrite <- Z.pow_add_r by lia.
          replace (k + 53) with d by (unfold k; lia). lia. }
      destruct (Z.pos z / 2 ^ k) as [|q|q] eqn:Eq; try lia.
      exists q, (ez + k). split.
      * unfold binary_round_aux, shr_fexp at 1. simpl Zdigits2. fold d. fold ec.
        rewrite Hk. destruct k as [|pk|pk] eqn:Epk; try lia.
        unfold shr. simpl shr_record_of_loc.
        rewrite shr_iter_exact by (assumption || lia).
        simpl loc_of_shr_record. cbn [shr_m round_nearest_even]. rewrite Eq.
        assert (Hdq : Zdigits2 (Z.pos q) = 53).
        { assert (Zdigits2 (Z.pos q) <= 53) by (apply Zdigits2_le_iff; lia).
          assert (~ Zdigits2 (Z.pos q) <= 52); [|lia].
          intros C. apply Zdigits2_le_iff in C; lia. }
        destruct (shr_fexp_spec (Z.pos q) (ez + Z.pos pk) loc_Exact) as [[_ H2]|[Hc _]];
          [lia| |rewrite Hdq, fexp_eq in Hc; lia].
        rewrite H2. simpl shr_m.
        destruct (Z.leb_spec (ez + Z.pos pk) (1024 - 53)); [reflexivity|lia].
      * apply scaled_eq. rewrite Z.min_r by lia. rewrite Z.sub_diag, Z.mul_1_r.
        replace (ez + k - ez) with k by lia.
        destruct Hdiv as [c Hc]. rewrite Hc in Eq. rewrite Z.div_mul in Eq by lia.
        rewrite Hc, Eq. reflexivity.
Qed.

Lemma fsub_one_exact x :
  is_double x -> fle (of_Z 1) x = true -> fle x (of_Z (2 ^ 53)) = true ->
  exists a b, fvalue x = Some a /\ fvalue (fsub x (of_Z 1)) = Some b /\ (b == a - 1)%Q.
Proof.
  intros Hd H1 H2. rewrite of_Z_1 in *.
  change (of_Z (2 ^ 53)) with (S754_finite false 4503599627370496 1) in H2.
  destruct x as [sx|[]| |[] mx ex]; try discriminate H1; try discriminate H2.
  - exfalso. cbn [fle fvalue] in H1. apply Qle_bool_iff in H1.
    pose proof (F2Q_neg mx ex). pose proof (F2Q_pos 4503599627370496 (-52)).
    apply (Qlt_irrefl 0). eapply Qlt_le_trans; [eassumption|].
    eapply Qle_trans; [eassumption|]. apply Qlt_le_weak. assumption.
  - cbn [fle fvalue] in H1, H2. apply Qle_bool_iff, F2Q_le_iff in H1.
    apply Qle_bool_iff, F2Q_le_iff in H2.
    destruct Hd as [Hdx Hex].
    assert (Hmx : Z.pos mx < 2 ^ 53).
    { apply (Zdigits2_le_iff (Z.pos mx)); [lia|lia|exact Hdx]. }
    assert (Hlo : -52 <= ex).
    { destruct (Z_le_gt_dec (-52) ex) as [|Hgt]; [assumption|exfalso].
      rewrite Z.min_r in H1 by lia. rewrite Z.sub_diag, Z.mul_1_r in H1.
      assert (2 ^ 1 <= 2 ^ (-52 - ex)) by (apply Z.pow_le_mono_r; lia).
      change (2 ^ 1) with 2 in *. change (2 ^ 53) with 9007199254740992 in Hmx. nia. }
    unfold fsub, SFsub. rewrite Z.min_r by lia.
    rewrite Z.min_l in H1 by lia. rewrite Z.sub_diag, Z.mul_1_r in H1.
    destruct (shl_align_spec mx ex (-52) Hlo) as (X & -> & HX).
    rewrite (shl_align_keep 4503599627370496 (-52) (-52)) by lia.
    cbn [fst cond_Zopp]. replace (ex - -52) with (ex + 52) in * by lia.
    rewrite <- HX in H1.
    assert (Hval : (F2Q false mx ex == inject_Z (Z.pos X) * 2 ^ (-52))%Q).
    { apply scaled_eq. rewrite Z.min_r by lia. rewrite Z.sub_diag, Z.mul_1_r.
      rewrite HX. repeat (f_equal; try lia). }
    assert (HX105 : Z.pos X <= 2 ^ 105).
    { destruct (Z_le_gt_dec ex 1).
      - rewrite Z.min_l in H2 by lia. rewrite Z.sub_diag, Z.mul_1_r in H2.
        assert (Z.pos X * 2 ^ (1 - ex) = Z.pos mx * 2 ^ 53).
        { rewrite HX, <- Z.mul_assoc, <- Z.pow_add_r by lia. repeat (f_equal; try lia). }
        assert (0 < 2 ^ (1 - ex)) by (apply Z.pow_pos_nonneg; lia).
        change (2 ^ 105) with (2 ^ 53 * 4503599627370496).
        assert (0 < 2 ^ 53) by reflexivity. nia.
      - rewrite Z.min_r in H2 by lia. rewrite Z.sub_diag, Z.mul_1_r in H2.
        rewrite HX. replace (ex + 52) with (ex - 1 + 53) by lia.
        rewrite Z.pow_add_r by lia.
        change (2 ^ 105) with (4503599627370496 * 2 ^ 53).
        rewrite Z.mul_assoc. apply Z.mul_le_mono_nonneg_r; [lia|exact H2]. }
    exists (F2Q false mx ex).
    destruct (Z.pos X - 4503599627370496) as [|z|z] eqn:Ez; try lia;
      cbn [binary_normalize].
    + exists 0%Q. split; [reflexivity|]. split; [reflexivity|].
      rewrite Hval. replace (Z.pos X) with 4503599627370496 by lia.
      reflexivity.
    + set (d := Z.pos (digits2_pos z)).
      assert (Hd : 2 ^ (d - 1) <= Z.pos z < 2 ^ d)
        by (apply (Zdigits2_bounds (Z.pos z)); lia).
      assert (Hd1 : 1 <= d) by (unfold d; lia).
      assert (Hd105 : d <= 105).
      { apply (Zdigits2_le_iff (Z.pos z)); lia. }
      assert (Hdj : d <= 53 + (ex + 52)).
      { apply (Zdigits2_le_iff (Z.pos z)); [lia|lia|].
        rewrite Z.pow_add_r by lia.
        assert (0 < 2 ^ (ex + 52)) by (apply Z.pow_pos_nonneg; lia). nia. }
      destruct (binary_round_exact z (-52)) as (m & e & -> & Hme); [lia| |fold d; lia|].
      * fold d. destruct (Z_le_gt_dec d 53); [right; assumption|left].
        replace (Z.pos z) with (Z.pos X - 2 ^ 52) by (rewrite <- Ez; reflexivity).
        apply Z.divide_sub_r.
        -- rewrite HX. apply Z.divide_mul_r.
           exists (2 ^ (ex + 52 - (d - 53))). rewrite <- Z.pow_add_r by lia.
           repeat (f_equal; try lia).
        -- exists (2 ^ (52 - (d - 53))). rewrite <- Z.pow_add_r by lia.
           repeat (f_equal; try lia).
      * exists (F2Q false m e). split; [reflexivity|]. split; [reflexivity|].
        rewrite Hme, Hval. unfold F2Q. cbn [cond_Zopp].
        replace (Z.pos z) with (Z.pos X - 4503599627370496) by lia.
        unfold Z.sub. rewrite inject_Z_plus, inject_Z_opp.
        assert (E : (inject_Z 4503599627370496 * 2 ^ (-52) == 1)%Q) by reflexivity.
        rewrite <- E. ring.
Qed.

(** * Properties *)

(** ** Reasoning about promises *)

Ltac js_unfold :=
  unfold modify_breaker, modify_monitor, modify_adm in *;
  unfold mbind, Js_bind, mret, Js_ret, try_catch, reads, modify, throw,
         Date_now, sleep in *.

Ltac setters :=
  unfold set_now, set_redisAvailable, set_redisData, set_redisCalls,
         set_readyState, set_mongoDocs, set_mongoCalls, set_idCalls, set_breaker,
         set_monitor, set_timers, set_adm in *;
  simpl in *.

Lemma race_settles {A} (m : Js A) ms msg : settles (race m ms msg).
Proof.
  intros w. unfold race.
  destruct (m w) as [[a|e|] w']; simpl;
    try (destruct (now w' - now w <? ms); simpl); discriminate.
Qed.

Lemma redis_command_settles env {A} run : settles (redis_command env (A:=A) run).
Proof.
  intros w. unfold redis_command.
  destruct (redisOutcome env (redisCalls w)); simpl; try discriminate.
  destruct (run _ _) as [e|[a d]]; simpl; discriminate.
Qed.

(** ** cacheService *)

(** A wrapper of the shape shared by ping, get, set, del, mget and exists:
    one command inside [try], a default outside. *)
Lemma wrapper_total env {A B} (run : Z -> gmap string (JsonVal * option Z) ->
                                       Err + A * gmap string (JsonVal * option Z))
      (f : A -> B) (dflt : B) (w : World) :
  exists r w',
    (avail ← reads redisAvailable;
     if negb avail then mret dflt
     else try_catch (x ← redis_command env run; mret (f x)) (fun _ => mret dflt)) w
    = (Resolved r, w') /\
    (redis_failed env w w' -> r = dflt).
Proof.
  js_unfold. unfold redis_failed, redis_command.
  destruct (redisAvailable w) eqn:Hav; simpl.
  2: { eexists _, _; split; [reflexivity|auto]. }
  destruct (redisOutcome env (redisCalls w)) as [lat|lat e] eqn:Ho.
  - destruct (run _ _) as [e|[a d]]; simpl.
    + eexists _, _; split; [reflexivity|auto].
    + eexists _, _; split; [reflexivity|]. simpl.
      intros [?|(n & lat' & e' & Hn & Hrej)]; [discriminate|].
      assert (n = redisCalls w) by lia. subst n. congruence.
  - simpl. eexists _, _; split; [reflexivity|auto].
Qed.

(** The two ways a Redis command ends. *)
Lemma redis_command_cases env {A} run w :
  (exists a w' lat, redis_command env (A:=A) run w = (Resolved a, w') /\
                    redisCalls w' = S (redisCalls w) /\
                    redisOutcome env (redisCalls w) = RReply lat) \/
  (exists e w', redis_command env (A:=A) run w = (Rejected e, w') /\
                redisCalls w' = S (redisCalls w)).
Proof.
  unfold redis_command.
  destruct (redisOutcome env (redisCalls w)) as [lat|lat e] eqn:Ho.
  - destruct (run _ _) as [e|[a d]]; [right|left]; eauto 10.
  - right; eauto.
Qed.

Lemma cacheService_incr_total env key ttl w :
  exists r w',
    cacheService_incr env key ttl w = (Resolved r, w') /\
    (redis_failed env w w' -> r = 0).
Proof.
  unfold cacheService_incr, redis_incr, redis_expire, redis_failed. js_unfold.
  destruct (redisAvailable w) eqn:Hav; simpl.
  2: { eexists _, _; split; [reflexivity|auto]. }
  match goal with
  | |- context [redis_command env ?run w] =>
      destruct (redis_command_cases env run w)
        as [(a & w1 & lat & -> & Hc & Ho)|(e & w1 & -> & Hc)]
  end.
  2: { eexists _, _; split; [reflexivity|auto]. }
  destruct (a =? 1) eqn:Hone.
  - (* INCR gave 1: EXPIRE follows *)
    match goal with
    | |- context [redis_command env ?run w1] =>
        destruct (redis_command_cases env run w1)
          as [(a2 & w2 & lat2 & -> & Hc2 & Ho2)|(e & w2 & -> & Hc2)]
    end.
    + eexists _, _; split; [reflexivity|].
      intros [?|(k & lat' & e' & Hk & Hrej)]; [discriminate|].
      assert (k = redisCalls w \/ k = redisCalls w1) as [->| ->] by lia;
        congruence.
    + eexists _, _; split; [reflexivity|auto].
  - eexists _, _; split; [reflexivity|].
    intros [?|(k & lat' & e' & Hk & Hrej)]; [discriminate|].
    assert (k = redisCalls w) by lia. subst k. congruence.
Qed.

(** C10: every operation of [cacheService] resolves, whatever Redis does,
    and resolves to its inert default (null for ping and get, false for
    set, del and exists, 0 for incr, the empty list for mget) when Redis
    is marked unavailable or rejects a command the operation sent. *)
Theorem cacheService_never_throws (env : Env) (w : World)
        (key : string) (value : JsonVal) (ttlSeconds : Z) (keys : list string) :
  (exists r w', cacheService_ping env w = (Resolved r, w') /\
                (redis_failed env w w' -> r = None)) /\
  (exists r w', cacheService_get env key w = (Resolved r, w') /\
                (redis_failed env w w' -> r = JNull)) /\
  (exists r w', cacheService_set env key value ttlSeconds w = (Resolved r, w') /\
                (redis_failed env w w' -> r = false)) /\
  (exists r w', cacheService_del env key w = (Resolved r, w') /\
                (redis_failed env w w' -> r = false)) /\
  (exists r w', cacheService_incr env key ttlSeconds w = (Resolved r, w') /\
                (redis_failed env w w' -> r = 0)) /\
  (exists r w', cacheService_mget env keys w = (Resolved r, w') /\
                (redis_failed env w w' -> r = [])) /\
  (exists r w', cacheService_exists env key w = (Resolved r, w') /\
                (redis_failed env w w' -> r = JBool false)).
Proof.
  repeat split.
  - apply (wrapper_total env _ Some None).
  - apply (wrapper_total env _ parse_or_null JNull).
  - apply (wrapper_total env _ (fun _ => true) false).
  - apply (wrapper_total env _ (fun _ => true) false).
  - apply cacheService_incr_total.
  - apply (wrapper_total env _ (map parse_or_null) []).
  - apply (wrapper_total env _ JNum (JBool false)).
Qed.

(** ** The circuit breaker *)

(** What the breaker has become once a failing call made in HALF_OPEN has
    settled. *)
Lemma onFailure_half_open t cb :
  state cb = HALF_OPEN ->
  lastFailureTime (onFailure t cb) = Some t /\
  failureCount (onFailure t cb) = failureCount cb + 1 /\
  state (onFailure t cb) =
    if failureThreshold cb <=? failureCount cb + 1 then OPEN else HALF_OPEN.
Proof. intros H. unfold onFailure. simpl. rewrite H. auto. Qed.

(** The constructor establishes [breaker_inv] and the three ways the
    breaker moves keep it. *)
Lemma breaker_inv_new threshold timeout :
  breaker_inv (new_CircuitBreaker threshold timeout).
Proof. unfold breaker_inv. simpl. repeat split; (lia || discriminate). Qed.

Lemma breaker_inv_gate t cb cb' :
  breaker_inv cb -> execute_gate t cb = Some cb' -> breaker_inv cb'.
Proof.
  unfold breaker_inv, execute_gate. intros (Hs & Ho & Hh).
  destruct (state cb) eqn:Hst.
  - intros [= <-]. rewrite Hst. auto.
  - destruct (_ <? _); [|discriminate]. intros [= <-]. simpl.
    repeat split; (lia || discriminate || auto).
  - intros [= <-]. rewrite Hst. auto.
Qed.

Lemma breaker_inv_onSuccess cb : breaker_inv cb -> breaker_inv (onSuccess cb).
Proof.
  unfold breaker_inv, onSuccess. intros (Hs & Ho & Hh).
  destruct (state cb) eqn:Hst; simpl;
    try (destruct (_ <=? _); simpl);
    repeat split; (lia || discriminate).
Qed.

Lemma breaker_inv_onFailure t cb : breaker_inv cb -> breaker_inv (onFailure t cb).
Proof.
  unfold breaker_inv, onFailure. intros (Hs & Ho & Hh). simpl.
  destruct (failureThreshold cb <=? failureCount cb + 1) eqn:Hth.
  - apply Z.leb_le in Hth. repeat split; (lia || discriminate || auto).
  - apply Z.leb_gt in Hth. split; [exact Hs|]. split.
    + intros Hst. specialize (Ho Hst). lia.
    + intros Hst Hsc. specialize (Hh Hst Hsc). lia.
Qed.

(** A probe that fails before any success since the breaker opened does
    reopen it. *)
Lemma first_probe_failure_reopens t cb :
  breaker_inv cb -> state cb = HALF_OPEN -> successCount cb = 0 ->
  state (onFailure t cb) = OPEN.
Proof.
  intros (_ & _ & Hh) Hst Hsc. unfold onFailure. simpl.
  specialize (Hh Hst Hsc).
  assert (H : (failureThreshold cb <=? failureCount cb + 1) = true)
    by (apply Z.leb_le; lia).
  rewrite H. reflexivity.
Qed.

(** C2, as the code has it: a failure of the wrapped operation while the
    breaker is HALF_OPEN is rethrown to the caller, always resets the
    recovery timer ([lastFailureTime] becomes the current time) and adds
    one to [failureCount]; the breaker goes back to OPEN exactly when the
    new [failureCount] has reached [failureThreshold], and otherwise stays
    HALF_OPEN. *)
Theorem execute_failure_in_half_open {A} (operation : Js A) (w w1 : World) (e : Err) :
  state (breaker w) = HALF_OPEN ->
  operation w = (Rejected e, w1) ->
  breaker w1 = breaker w ->
  exists w2,
    execute operation w = (Rejected e, w2) /\
    lastFailureTime (breaker w2) = Some (now w1) /\
    failureCount (breaker w2) = failureCount (breaker w) + 1 /\
    state (breaker w2) =
      if failureThreshold (breaker w) <=? failureCount (breaker w) + 1
      then OPEN else HALF_OPEN.
Proof.
  intros Hst Hop Hbr. unfold execute, execute_gate. js_unfold.
  destruct w as [t ra rd rc rs md mc ic cb mo ti ad]; simpl in *.
  rewrite Hst. setters. rewrite Hop. simpl.
  eexists; split; [reflexivity|]. simpl. rewrite Hbr.
  destruct (onFailure_half_open (now w1) cb Hst) as (H1 & H2 & H3).
  auto.
Qed.

Lemma execute_failure_in_half_open_witness :
  exists w2,
    execute failing_operation world_after_one_probe_success
      = (Rejected (Error "connect ECONNREFUSED"), w2) /\
    lastFailureTime (breaker w2) = Some 60001 /\
    failureCount (breaker w2) = 1 /\
    state (breaker w2) = HALF_OPEN.
Proof.
  exact (execute_failure_in_half_open failing_operation
           world_after_one_probe_success world_after_one_probe_success
           (Error "connect ECONNREFUSED") eq_refl eq_refl eq_refl).
Defined.

(** C2 as stated fails: after ten failures, the recovery timeout and one
    successful probe the breaker is HALF_OPEN with [failureCount] back at
    0; the next failure leaves it HALF_OPEN. *)
Lemma half_open_failure_does_not_reopen :
  state (breaker world_after_one_probe_success) = HALF_OPEN /\
  fst (execute failing_operation world_after_one_probe_success)
    = Rejected (Error "connect ECONNREFUSED") /\
  state (breaker (snd (execute failing_operation world_after_one_probe_success)))
    <> OPEN.
Proof. vm_compute. repeat split; discriminate. Qed.

(** ** The token bucket *)

Lemma positive_double_cases x :
  positive_double x ->
  exists m e, x = S754_finite false m e /\ is_double x /\ nonneg x.
Proof.
  destruct x as [| | |[] m e]; try contradiction. intros H.
  exists m, e. split; [reflexivity|]. split; [exact H|].
  apply nonneg_cases. reflexivity.
Qed.

(** The refilled count is a double between 0 and the capacity. *)
Lemma refill_sound (rps burst : float) (t : Z) (tk : float) (ts : Z) :
  positive_double rps -> is_double burst -> nonneg burst ->
  is_double tk -> nonneg tk ->
  nonneg (refill rps burst t tk ts) /\
  fle (refill rps burst t tk ts) (fadd rps burst) = true /\
  is_double (refill rps burst t tk ts).
Proof.
  intros Hr Hbd Hbn Htd Htn.
  destruct (positive_double_cases rps Hr) as (m & e & -> & Hrd & Hrn).
  unfold refill.
  set (el := fmax (of_Z 0) (fdiv (of_Z (t - ts)) (of_Z 1000))).
  assert (Hel : nonneg el /\ is_double el).
  { destruct (of_Z_sound (t - ts)) as (Hn & Hd & _).
    change (of_Z 1000) with (S754_finite false 8796093022208000 (-43)) in el.
    destruct (fdiv_finite_sound (of_Z (t - ts)) 8796093022208000 (-43) Hn Hd) as [Hqn Hqd].
    split; [apply fmax_zero_nonneg; exact Hqn|apply fmax_zero_is_double; exact Hqd]. }
  destruct Hel as [Heln Held].
  assert (Hcap : nonneg (fadd (S754_finite false m e) burst)) by (apply fadd_nonneg; assumption).
  assert (Hsum : nonneg (fadd tk (fmul el (S754_finite false m e))))
    by (apply fadd_nonneg; [assumption|apply fmul_nonneg; assumption]).
  split; [apply fmin_nonneg; assumption|]. split.
  - apply fmin_le_l; [apply (fle_not_nan _ _ Hcap)|apply (fle_not_nan _ _ Hsum)].
  - apply fmin_is_double; [apply fadd_is_double; assumption|].
    apply fadd_is_double; [assumption|apply fmul_is_double].
Qed.

(** Taking one token out of a refilled bucket keeps it a double between 0
    and the capacity. *)
Lemma consume_sound (cap refilled : float) :
  is_double refilled -> nonneg refilled -> fle refilled cap = true ->
  let after := if fle (of_Z 1) refilled then fsub refilled (of_Z 1) else refilled in
  nonneg after /\ fle after cap = true /\ is_double after.
Proof.
  intros Hd Hn Hc. cbv zeta. destruct (fle (of_Z 1) refilled) eqn:E.
  - destruct (fsub_one_sound refilled Hd E) as (H1 & H2 & H3).
    split; [exact H1|]. split; [exact (fle_trans _ _ _ H2 Hc)|exact H3].
  - auto.
Qed.

Lemma json_number_ok (x : float) :
  is_double x -> nonneg x ->
  forall y, json_number x = Some y -> is_double y /\ nonneg y.
Proof.
  intros Hd Hn y. destruct x as [s|s| |s m e]; simpl; try discriminate.
  - intros [= <-]. split; [exact I|reflexivity].
  - intros [= <-]. auto.
Qed.

(** A key that is visible later was visible before, with the same value,
    unless it was written in between. *)
Lemma redis_lookup_earlier t t' d key r :
  t <= t' -> redis_lookup t' d key = Some r -> redis_lookup t d key = Some r.
Proof.
  unfold redis_lookup. intros Ht. destruct (d !! key) as [[v [ex|]]|]; try tauto.
  destruct (Z.ltb_spec t' ex); [|discriminate]. intros [= <-].
  destruct (Z.ltb_spec t ex); [reflexivity|lia].
Qed.

(** The bucket the GET brings back is the stored one. *)
Lemma bucket_read_stored env w ip v :
  bucket_read env w ip = Some v -> stored_bucket w ip = Some v.
Proof.
  unfold bucket_read. destruct (redisAvailable w); [|discriminate].
  destruct (redisOutcome env (redisCalls w)); [tauto|discriminate].
Qed.

(** C7: [checkRateLimit] starts from the bucket the GET brings back (the
    stored one when Redis is available and answers, tokens [null] counting
    for 0) and from a full bucket when it brings back nothing; it refills it,
    in double precision, by the elapsed seconds times the sustained rate,
    capped at [sustainedRps + burstCapacity]; it allows the request iff the
    refilled count is at least 1 and then subtracts one token.  The SETEX,
    when Redis is available and accepts it, stores the resulting count with
    the time of the call for 60 s, and nothing else is written.  For a
    positive rate, a non-negative burst and a stored bucket whose count is
    [null] or a non-negative double, the count returned and handed to the
    cache is a double between 0 and the capacity, the token taken is exactly
    one as long as the capacity is at most 2^53, and the bucket left for the
    client is again of that kind. *)
Theorem checkRateLimit_token_bucket (env : Env) (ip : string)
        (sustainedRps burstCapacity : float) (w : World) :
  exists rl w' got refilled,
    checkRateLimit env ip sustainedRps burstCapacity w = (Resolved rl, w') /\
    got = default JNull (bucket_read env w ip) /\
    refilled = (if truthy got
                then refill_state sustainedRps burstCapacity (now w) got
                else refill sustainedRps burstCapacity (now w)
                            (fadd sustainedRps burstCapacity) (now w)) /\
    (forall tk ts, got = JBucket tk ts ->
       refilled = fmin (fadd sustainedRps burstCapacity)
                    (fadd (default (of_Z 0) tk)
                       (fmul (fmax (of_Z 0) (fdiv (of_Z (now w - ts)) (of_Z 1000)))
                             sustainedRps))) /\
    (got = JNull ->
       refilled = fmin (fadd sustainedRps burstCapacity)
                    (fadd (fadd sustainedRps burstCapacity)
                       (fmul (fmax (of_Z 0) (fdiv (of_Z (now w - now w)) (of_Z 1000)))
                             sustainedRps))) /\
    allowed rl = fle (of_Z 1) refilled /\
    tokens rl = (if allowed rl then fsub refilled (of_Z 1) else refilled) /\
    capacity rl = fadd sustainedRps burstCapacity /\
    redisData w' =
      (if redisAvailable w then
         match redisOutcome env (S (redisCalls w)) with
         | RReply _ =>
             <["tb:" +:+ ip :=
                 (JBucket (json_number (tokens rl)) (now w),
                  Some (now w + redis_latency (redisOutcome env (redisCalls w))
                        + 60 * 1000))]> (redisData w)
         | RReject _ _ => redisData w
         end
       else redisData w) /\
    (positive_double sustainedRps ->
     is_double burstCapacity -> nonneg burstCapacity ->
     (forall v, stored_bucket w ip = Some v -> bucket_ok v) ->
     nonneg (tokens rl) /\
     fle (tokens rl) (fadd sustainedRps burstCapacity) = true /\
     is_double (tokens rl) /\
     (allowed rl = true ->
      fle (fadd sustainedRps burstCapacity) (of_Z (2 ^ 53)) = true ->
      exists a b, fvalue refilled = Some a /\ fvalue (tokens rl) = Some b /\
                  (b == a - 1)%Q) /\
     (forall v, stored_bucket w' ip = Some v -> bucket_ok v)).
Proof.
  set (cap := fadd sustainedRps burstCapacity).
  set (got := default JNull (bucket_read env w ip)).
  set (refilled := if truthy got
                   then refill_state sustainedRps burstCapacity (now w) got
                   else refill sustainedRps burstCapacity (now w) cap (now w)).
  set (tokens' := if fle (of_Z 1) refilled then fsub refilled (of_Z 1) else refilled).
  (* the GET *)
  assert (Hget : exists w1,
    cacheService_get env ("tb:" +:+ ip) w = (Resolved got, w1) /\
    redisData w1 = redisData w /\ redisAvailable w1 = redisAvailable w /\
    redisCalls w1 = (if redisAvailable w then S (redisCalls w) else redisCalls w) /\
    now w1 = (if redisAvailable w
              then now w + redis_latency (redisOutcome env (redisCalls w))
              else now w)).
  { unfold got, bucket_read, stored_bucket, cacheService_get, redis_get, redis_command,
           parse_or_null.
    js_unfold.
    destruct (redisAvailable w) eqn:Eav; simpl;
      [|eexists; split; [reflexivity|]; simpl; auto].
    destruct (redisOutcome env (redisCalls w)) eqn:Eo; simpl;
      eexists; (split; [reflexivity|]); setters; simpl; rewrite Eav; auto. }
  destruct Hget as (w1 & Hg & Hd1 & Hav1 & Hc1 & Hn1).
  (* the SETEX *)
  assert (Hset : forall v, exists b w2,
    cacheService_set env ("tb:" +:+ ip) v 60 w1 = (Resolved b, w2) /\
    now w1 <= now w2 /\
    redisData w2 =
      (if redisAvailable w then
         match redisOutcome env (S (redisCalls w)) with
         | RReply _ =>
             <["tb:" +:+ ip :=
                 (v, Some (now w + redis_latency (redisOutcome env (redisCalls w))
                           + 60 * 1000))]> (redisData w)
         | RReject _ _ => redisData w
         end
       else redisData w)).
  { intros v. unfold cacheService_set, redis_setex, redis_command. js_unfold.
    rewrite Hav1. destruct (redisAvailable w) eqn:Eav; simpl;
      [|eexists _, _; split; [reflexivity|]; split; [lia|exact Hd1]].
    rewrite Hc1.
    destruct (redisOutcome env (S (redisCalls w))); simpl;
      eexists _, _; (split; [reflexivity|]); setters; simpl;
      (split; [lia|]); rewrite ?Hd1, ?Hn1; reflexivity. }
  unfold checkRateLimit. js_unfold. rewrite Hg. cbn beta iota.
  fold cap. fold refilled. fold tokens'.
  destruct (Hset (JBucket (json_number tokens') (now w))) as (b & w2 & Hs & Hle & Hd2).
  rewrite Hs. cbn beta iota.
  eexists _, w2, got, refilled.
  split; [reflexivity|]. cbn [allowed tokens capacity].
  split; [reflexivity|].
  split; [reflexivity|].
  split; [intros tk ts E; unfold refilled; rewrite E; reflexivity|].
  split; [intros E; unfold refilled; rewrite E; reflexivity|].
  split; [reflexivity|].
  split; [reflexivity|].
  split; [reflexivity|].
  split; [exact Hd2|].
  (* the bounds *)
  intros Hr Hbd Hbn Hst.
  assert (Hcapn : nonneg cap) by (apply fadd_nonneg; [|assumption];
    destruct (positive_double_cases _ Hr) as (? & ? & _ & _ & ?); assumption).
  assert (Hcapd : is_double cap) by (apply fadd_is_double; [|assumption];
    destruct (positive_double_cases _ Hr) as (? & ? & _ & ? & _); assumption).
  assert (Hrefill : nonneg refilled /\ fle refilled cap = true /\ is_double refilled).
  { unfold refilled, got.
    destruct (bucket_read env w ip) as [v|] eqn:Ev; simpl.
    - destruct (Hst v (bucket_read_stored _ _ _ _ Ev)) as (tk & ts & -> & Htk). simpl.
      apply refill_sound; try assumption;
        destruct tk as [x|]; simpl;
        try (apply Htk; reflexivity); try exact I; reflexivity.
    - apply refill_sound; assumption. }
  destruct Hrefill as (Hfn & Hfc & Hfd).
  pose proof (consume_sound cap refilled Hfd Hfn Hfc) as Hcons. cbv zeta in Hcons.
  fold tokens' in Hcons. destruct Hcons as (Htn & Htc & Htd).
  split; [exact Htn|]. split; [exact Htc|]. split; [exact Htd|].
  split.
  { intros Ha Hcap53. unfold tokens'. rewrite Ha.
    apply fsub_one_exact; [exact Hfd|exact Ha|].
    exact (fle_trans _ _ _ Hfc Hcap53). }
  (* the bucket left behind *)
  assert (Hnow : now w <= now w2).
  { assert (now w <= now w1); [|lia]. rewrite Hn1.
    destruct (redisAvailable w); [|lia].
    destruct (redisOutcome env (redisCalls w)); simpl; lia. }
  intros v Hv. unfold stored_bucket in Hv.
  destruct (redis_lookup (now w2) (redisData w2) ("tb:" +:+ ip)) as [[v' ex]|] eqn:El;
    [|discriminate]. simpl in Hv. injection Hv as ->.
  assert (Hold : redisData w2 = redisData w -> bucket_ok v).
  { intros E. rewrite E in El. apply (redis_lookup_earlier (now w)) in El; [|exact Hnow].
    apply Hst. unfold stored_bucket. rewrite El. reflexivity. }
  rewrite Hd2 in El, Hold.
  destruct (redisAvailable w); [|apply Hold; reflexivity].
  destruct (redisOutcome env (S (redisCalls w))); [|apply Hold; reflexivity].
  unfold redis_lookup in El. rewrite lookup_insert_eq in El.
  destruct (_ <? _) in El; [|discriminate]. injection El as <- _.
  eexists _, _. split; [reflexivity|]. apply json_number_ok; assumption.
Qed.

(** The second request of a client, 12 ms after the first, with the limits
    of app.js: the token bucket holds 449 tokens, is refilled to the cap of
    450, lets the request through and stores 449 again. *)
Lemma checkRateLimit_token_bucket_witness :
  exists rl w',
    checkRateLimit steady_env "203.0.113.7" (of_Z 150) (of_Z 300)
                   world_after_first_request = (Resolved rl, w') /\
    allowed rl = true /\
    tokens rl = of_Z 449 /\
    nonneg (tokens rl) /\
    fle (tokens rl) (fadd (of_Z 150) (of_Z 300)) = true /\
    stored_bucket w' "203.0.113.7"
      = Some (JBucket (Some (of_Z 449)) (now world_after_first_request)).
Proof.
  destruct (checkRateLimit_token_bucket steady_env "203.0.113.7" (of_Z 150) (of_Z 300)
              world_after_first_request)
    as (rl & w' & got & refilled & Heq & Hgot & _ & Hbucket & _ & Hal & Htk & _ & Hdata & Hb).
  assert (Hr : refilled = of_Z 450).
  { rewrite (Hbucket (Some (of_Z 449)) 1000); [vm_compute; reflexivity|].
    rewrite Hgot. vm_compute. reflexivity. }
  assert (Ha : allowed rl = true) by (rewrite Hal, Hr; reflexivity).
  assert (Ht : tokens rl = of_Z 449) by (rewrite Htk, Ha, Hr; reflexivity).
  destruct Hb as (Hn & Hc & _).
  - vm_compute. split; discriminate.
  - vm_compute. split; discriminate.
  - reflexivity.
  - intros v Hv. vm_compute in Hv. injection Hv as <-.
    eexists _, _. split; [reflexivity|]. intros x [= <-].
    split; [vm_compute; split; discriminate|reflexivity].
  - exists rl, w'. split; [exact Heq|]. split; [exact Ha|]. split; [exact Ht|].
    split; [exact Hn|]. split; [exact Hc|].
    assert (Hw' : w' = snd (checkRateLimit steady_env "203.0.113.7" (of_Z 150) (of_Z 300)
                              world_after_first_request)) by (rewrite Heq; reflexivity).
    rewrite Hw'. vm_compute. reflexivity.
Defined.

(** The arithmetic is that of the doubles: a client whose stored bucket is
    empty at time 1000 and who calls at 1007, 1016 and 1020 with a rate of
    150 per second gets 1.05 and then 1.4 tokens (less one each time), and at
    the third call 0.4 + 0.004 * 150, which in double precision is
    0.9999999999999999 and not 1: the third call is refused. *)
Lemma third_call_is_refused_in_double_precision :
  let rps := of_Z 150 in
  let burst := of_Z 300 in
  let r1 := refill rps burst 1007 (of_Z 0) 1000 in
  let r2 := refill rps burst 1016 (fsub r1 (of_Z 1)) 1007 in
  let r3 := refill rps burst 1020 (fsub r2 (of_Z 1)) 1016 in
  fle (of_Z 1) r1 = true /\ fle (of_Z 1) r2 = true /\
  r3 = S754_finite false 9007199254740991 (-53) /\
  fle (of_Z 1) r3 = false.
Proof. vm_compute. repeat split. Qed.

(** ** The request queue *)

Ltac adm_setters :=
  unfold res_on, res_status_json, res_removeListener, res_set, dispatch in *;
  unfold modify_response in *;
  js_unfold;
  unfold set_globalRequestCount, set_globalWindowStart, set_activeConnections,
         set_connectionRejections, set_requestQueue, set_processingRequests,
         set_queueRejections, set_responses, set_dispatched in *;
  setters.

(** With the concurrency limit reached, [processNextQueuedRequest] leaves
    everything as it is. *)
Lemma processNextQueuedRequest_busy w :
  MAX_CONCURRENT_REQUESTS <= processingRequests (adm w) ->
  processNextQueuedRequest w = (Resolved tt, w).
Proof.
  intros H. unfold processNextQueuedRequest. js_unfold.
  destruct (requestQueue (adm w)); [reflexivity|].
  apply Z.leb_le in H. rewrite H. reflexivity.
Qed.

(** C9: while the concurrency limit is reached, an arrival is queued when
    the queue has room (health and metrics requests at the front, all others
    at the back) and is neither answered nor passed on; it is answered 503
    "server overloaded" with the current queue depth when the queue is full;
    and [processNextQueuedRequest] hands the front of the queue to the routes
    as soon as the limit is no longer reached. *)
Theorem requestQueue_priority_fifo_overflow (w : World) (req : Request) :
  (MAX_CONCURRENT_REQUESTS <= processingRequests (adm w) ->
   queueLength (adm w) < MAX_QUEUE_SIZE ->
   exists w',
     requestQueueMiddleware req w = (Resolved Stop, w') /\
     requestQueue (adm w') =
       (if isHealthCheck req then req :: requestQueue (adm w)
        else requestQueue (adm w) ++ [req]) /\
     dispatched (adm w') = dispatched (adm w) /\
     responses (adm w') = responses (adm w)) /\
  (MAX_CONCURRENT_REQUESTS <= processingRequests (adm w) ->
   MAX_QUEUE_SIZE <= queueLength (adm w) ->
   exists w',
     requestQueueMiddleware req w = (Resolved Stop, w') /\
     requestQueue (adm w') = requestQueue (adm w) /\
     dispatched (adm w') = dispatched (adm w) /\
     queueRejections (adm w') = queueRejections (adm w) + 1 /\
     sent <$> (responses (adm w') !! reqId req) =
       Some (Some {| status := 503;
                     body := ServerOverloaded 2 (queueLength (adm w)) MAX_QUEUE_SIZE |})) /\
  (forall head rest,
     requestQueue (adm w) = head :: rest ->
     processingRequests (adm w) < MAX_CONCURRENT_REQUESTS ->
     exists w',
       processNextQueuedRequest w = (Resolved tt, w') /\
       requestQueue (adm w') = rest /\
       dispatched (adm w') = dispatched (adm w) ++ [reqId head] /\
       processingRequests (adm w') = processingRequests (adm w) + 1).
Proof.
  split; [|split].
  - intros Hbusy Hroom. unfold requestQueueMiddleware. js_unfold.
    pose proof Hbusy as Hb. apply Z.leb_le in Hb. rewrite Hb.
    assert (Hq : (MAX_QUEUE_SIZE <=? queueLength (adm w)) = false)
      by (apply Z.leb_gt; exact Hroom).
    rewrite Hq. simpl.
    rewrite processNextQueuedRequest_busy by (destruct w; exact Hbusy).
    eexists; split; [reflexivity|].
    destruct w as [t ra rd rc rs md mc ic cb mo ti [g gs ac cr q pr qr rsp dsp]].
    simpl. auto.
  - intros Hbusy Hfull. unfold requestQueueMiddleware. js_unfold.
    apply Z.leb_le in Hbusy. rewrite Hbusy.
    apply Z.leb_le in Hfull. rewrite Hfull. simpl.
    eexists; split; [reflexivity|].
    destruct w as [t ra rd rc rs md mc ic cb mo ti [g gs ac cr q pr qr rsp dsp]].
    adm_setters. rewrite lookup_insert_eq. auto.
  - intros head rest Hq Hfree. unfold processNextQueuedRequest. js_unfold.
    rewrite Hq.
    assert (Hc : (MAX_CONCURRENT_REQUESTS <=? processingRequests (adm w)) = false)
      by (apply Z.leb_gt; exact Hfree).
    rewrite Hc. simpl.
    eexists; split; [reflexivity|].
    destruct w as [t ra rd rc rs md mc ic cb mo ti [g gs ac cr q pr qr rsp dsp]].
    adm_setters. auto.
Qed.

Lemma requestQueue_priority_fifo_overflow_witness :
  (exists w',
     requestQueueMiddleware (health_request 3) busy_world = (Resolved Stop, w') /\
     requestQueue (adm w') =
       [health_request 3; ordinary_request 1; ordinary_request 2]) /\
  (exists w',
     requestQueueMiddleware (ordinary_request 4) busy_world = (Resolved Stop, w') /\
     requestQueue (adm w') =
       [ordinary_request 1; ordinary_request 2; ordinary_request 4]) /\
  (exists w',
     requestQueueMiddleware (health_request 5000) full_world = (Resolved Stop, w') /\
     sent <$> (responses (adm w') !! 5000%nat) =
       Some (Some {| status := 503; body := ServerOverloaded 2 5000 5000 |})) /\
  (exists w',
     processNextQueuedRequest freed_world = (Resolved tt, w') /\
     requestQueue (adm w') = [ordinary_request 1; ordinary_request 2] /\
     dispatched (adm w') = [3%nat]).
Proof.
  split; [|split; [|split]].
  - destruct (proj1 (requestQueue_priority_fifo_overflow busy_world (health_request 3)))
      as (w' & H1 & H2 & _);
      [vm_compute; discriminate | vm_compute; reflexivity |].
    exists w'. split; [exact H1 | exact H2].
  - destruct (proj1 (requestQueue_priority_fifo_overflow busy_world (ordinary_request 4)))
      as (w' & H1 & H2 & _);
      [vm_compute; discriminate | vm_compute; reflexivity |].
    exists w'. split; [exact H1 | exact H2].
  - destruct (proj1 (proj2 (requestQueue_priority_fifo_overflow full_world
                              (health_request 5000))))
      as (w' & H1 & _ & _ & _ & H2);
      [vm_compute; discriminate | vm_compute; discriminate |].
    exists w'. split; [exact H1 | exact H2].
  - destruct (proj2 (proj2 (requestQueue_priority_fifo_overflow freed_world
                              (ordinary_request 9)))
                (health_request 3) [ordinary_request 1; ordinary_request 2])
      as (w' & H1 & H2 & H3 & _);
      [reflexivity | vm_compute; reflexivity |].
    exists w'. split; [exact H1 | split; [exact H2 | exact H3]].
Defined.

(** ** Frames: what the cache operations leave alone *)

Lemma only_redis_refl w : only_redis w w.
Proof. destruct w. reflexivity. Qed.

Lemma only_redis_trans w1 w2 w3 :
  only_redis w1 w2 -> only_redis w2 w3 -> only_redis w1 w3.
Proof.
  unfold only_redis. destruct w1, w2, w3. setters.
  intros [= -> -> -> -> -> -> -> -> ->] [= -> -> -> -> -> -> -> -> ->].
  reflexivity.
Qed.

Lemma redis_command_only_redis env {A} run w (r : Outcome A) w' :
  redis_command env run w = (r, w') -> only_redis w w'.
Proof.
  unfold redis_command, only_redis. destruct w. setters.
  destruct (redisOutcome env _).
  - destruct (run _ _) as [e|[a d]]; intros [= <- <-]; reflexivity.
  - intros [= <- <-]; reflexivity.
Qed.

Lemma wrapper_only_redis env {A B}
      (run : Z -> gmap string (JsonVal * option Z) ->
             Err + A * gmap string (JsonVal * option Z))
      (f : A -> B) (dflt : B) (w : World) :
  exists r w',
    (avail ← reads redisAvailable;
     if negb avail then mret dflt
     else try_catch (x ← redis_command env run; mret (f x)) (fun _ => mret dflt)) w
    = (Resolved r, w') /\
    only_redis w w'.
Proof.
  js_unfold.
  destruct (redisAvailable w); simpl.
  2: { eexists _, _; split; [reflexivity|apply only_redis_refl]. }
  destruct (redis_command env run w) as [[a|e|] w'] eqn:E;
    pose proof (redis_command_only_redis _ _ _ _ _ E);
    pose proof (redis_command_settles env run w) as Hs; rewrite E in Hs;
    simpl in *; try congruence; eauto.
Qed.

Lemma cacheService_get_only_redis env key w :
  exists r w', cacheService_get env key w = (Resolved r, w') /\ only_redis w w'.
Proof. apply (wrapper_only_redis env _ parse_or_null JNull). Qed.

Lemma cacheService_set_only_redis env key v ttl w :
  exists r w', cacheService_set env key v ttl w = (Resolved r, w') /\ only_redis w w'.
Proof. apply (wrapper_only_redis env _ (fun _ => true) false). Qed.

Lemma checkRateLimit_only_redis env ip rps burst w :
  exists rl w', checkRateLimit env ip rps burst w = (Resolved rl, w') /\ only_redis w w'.
Proof.
  unfold checkRateLimit. js_unfold.
  destruct (cacheService_get_only_redis env ("tb:" +:+ ip) w) as (got & w1 & -> & H1).
  match goal with
  | |- context [cacheService_set env ?k ?v ?ttl w1] =>
      destruct (cacheService_set_only_redis env k v ttl w1) as (b & w2 & -> & H2)
  end.
  eexists _, _; split; [reflexivity|]. eapply only_redis_trans; eassumption.
Qed.

Lemma only_redis_adm w w' : only_redis w w' -> adm w' = adm w.
Proof. intros H. rewrite H. reflexivity. Qed.

(** ** The order of the admission checks *)

(** The per-IP limiter always lets Express go on or answers 429 itself, and
    touches none of the counters of the other three checks. *)
Lemma rateLimiter_resolves env options req w :
  exists s w', rateLimiter env options req w = (Resolved s, w') /\
               same_counters w w' /\
               (s = Stop ->
                exists retry,
                  sent <$> (responses (adm w') !! reqId req) =
                  Some (Some {| status := 429;
                                body := TooManyRequests (message_opt options) retry |})).
Proof.
  unfold rateLimiter. js_unfold.
  destruct (checkRateLimit_only_redis env (clientIp req) (max options)
              (default (of_Z 800) (burstCapacity options)) w) as (rl & w1 & -> & H1).
  apply only_redis_adm in H1.
  adm_setters.
  destruct (standardHeaders options), (legacyHeaders options), (allowed rl); simpl;
    (eexists _, _; split; [reflexivity|]);
    (split; [unfold same_counters; simpl; rewrite H1; repeat split|]);
    try discriminate;
    intros _; simpl; rewrite lookup_insert_eq; simpl; eauto.
Qed.

(** The verdict of the limiter is the verdict of the token bucket: it goes
    on exactly when [checkRateLimit] allowed the request. *)
Lemma rateLimiter_verdict env options req w :
  exists rl wr s w',
    checkRateLimit env (clientIp req) (max options)
                   (default (of_Z 800) (burstCapacity options)) w = (Resolved rl, wr) /\
    rateLimiter env options req w = (Resolved s, w') /\
    s = (if allowed rl then Next else Stop).
Proof.
  unfold rateLimiter. js_unfold.
  destruct (checkRateLimit_only_redis env (clientIp req) (max options)
              (default (of_Z 800) (burstCapacity options)) w) as (rl & w1 & -> & _).
  exists rl, w1. adm_setters.
  destruct (standardHeaders options), (legacyHeaders options), (allowed rl); simpl;
    eexists _, _; (split; [reflexivity|]); split; reflexivity.
Qed.

(** The token bucket reads the clock and Redis only: what the admission
    counters and the responses hold makes no difference to it. *)
Lemma checkRateLimit_set_adm env ip rps burst a w :
  checkRateLimit env ip rps burst (set_adm a w) =
  (fst (checkRateLimit env ip rps burst w),
   set_adm a (snd (checkRateLimit env ip rps burst w))).
Proof.
  unfold checkRateLimit, cacheService_get, cacheService_set, redis_get, redis_setex,
         redis_command.
  js_unfold. destruct w as [t ra rd rc rs md mc ic cb mo ti ad]. setters.
  destruct ra; simpl; [|reflexivity].
  destruct (redisOutcome env rc); simpl;
    destruct (redisOutcome env (S rc)); reflexivity.
Qed.

(** The three in-process checks always let Express go on or answer. *)
Lemma in_process_checks_resolve req w :
  exists ran w',
    run_stack [ (GlobalRateCeiling, globalRateLimiter);
                (ConnectionCeiling, connectionLimiter);
                (ConcurrencyQueue, requestQueueMiddleware) ] req w
      = (Resolved ran, w') /\
    (ran = [GlobalRateCeiling] \/
     ran = [GlobalRateCeiling; ConnectionCeiling] \/
     ran = [GlobalRateCeiling; ConnectionCeiling; ConcurrencyQueue]).
Proof.
  unfold run_stack, globalRateLimiter, connectionLimiter, requestQueueMiddleware,
         processNextQueuedRequest.
  adm_setters.
  repeat match goal with
         | |- context [if ?c then _ else _] => destruct c; simpl
         | |- context [match ?l with [] => _ | _ :: _ => _ end] => destruct l; simpl
         end;
    eexists _, _; (split; [reflexivity|]); auto.
Qed.

(** C4, as the code has it: the per-IP token bucket is the first of the
    four admission checks.  It runs for every inbound request; the global
    rate ceiling, the connection ceiling and the queue gate run after it,
    in that order, and exactly for a request the bucket allowed.  When the
    bucket refuses the request, the token bucket is the only check that
    ran: the counters of the other three are untouched and the response is
    the 429 of the limiter. *)
Theorem token_bucket_applied_first (env : Env) (w : World) (req : Request) :
  exists rl wr ran w',
    checkRateLimit env (clientIp req) (of_Z 150) (of_Z 300) w = (Resolved rl, wr) /\
    handle_request env req w = (Resolved ran, w') /\
    (ran = [PerIpTokenBucket] \/
     ran = [PerIpTokenBucket; GlobalRateCeiling] \/
     ran = [PerIpTokenBucket; GlobalRateCeiling; ConnectionCeiling] \/
     ran = [PerIpTokenBucket; GlobalRateCeiling; ConnectionCeiling; ConcurrencyQueue]) /\
    (allowed rl = false <-> ran = [PerIpTokenBucket]) /\
    (allowed rl = true <-> In GlobalRateCeiling ran) /\
    (ran = [PerIpTokenBucket] ->
     same_counters w w' /\
     exists retry,
       sent <$> (responses (adm w') !! reqId req) =
       Some (Some {| status := 429;
                     body := TooManyRequests (message_opt app_rateLimiter_options)
                                             retry |})).
Proof.
  unfold handle_request, app_stack.
  change (run_stack ((PerIpTokenBucket, rateLimiter env app_rateLimiter_options) :: ?rest) req)
    with (s ← rateLimiter env app_rateLimiter_options req;
          match s with
          | Next => ran ← run_stack rest req; mret (PerIpTokenBucket :: ran)
          | Stop => mret [PerIpTokenBucket]
          end).
  unfold modify_response at 1. js_unfold. cbv beta iota.
  match goal with
  | |- context [rateLimiter env _ req ?w0] =>
      destruct (rateLimiter_resolves env app_rateLimiter_options req w0)
        as (s & w1 & Hrun & Hsame & Hstop);
      destruct (rateLimiter_verdict env app_rateLimiter_options req w0)
        as (rl & wr & s' & w1' & Hcheck & Hrun' & Hs)
  end.
  rewrite Hrun in Hrun'. injection Hrun' as <- <-. rewrite Hrun.
  destruct (checkRateLimit_only_redis env (clientIp req) (of_Z 150) (of_Z 300) w)
    as (rl0 & wr0 & Hc & _).
  match type of Hcheck with
  | checkRateLimit _ _ _ _ ?x = _ =>
      change (checkRateLimit env (clientIp req) (of_Z 150) (of_Z 300) x
              = (Resolved rl, wr)) in Hcheck
  end.
  rewrite checkRateLimit_set_adm, Hc in Hcheck. simpl in Hcheck.
  injection Hcheck as -> _.
  exists rl, wr0. rewrite Hc.
  destruct (allowed rl) eqn:Hal; subst s.
  - destruct (in_process_checks_resolve req w1) as (ran & w2 & -> & Hran).
    eexists _, _; split; [reflexivity|]. split; [reflexivity|]. split.
    + destruct Hran as [->|[->| ->]]; auto.
    + split; [|split].
      * split; [discriminate|]. destruct Hran as [->|[->| ->]]; discriminate.
      * split; [intros _|reflexivity].
        destruct Hran as [->|[->| ->]]; simpl; auto.
      * destruct Hran as [->|[->| ->]]; discriminate.
  - eexists _, _; split; [reflexivity|]. split; [reflexivity|]. split; [auto|].
    split; [split; reflexivity|]. split.
    + split; [discriminate|]. simpl. intros [C|[]]. discriminate C.
    + intros _. split; [|auto].
      destruct w as [t ra rd rc rs md mc ic cb mo ti [g gs ac cr q pr qr rsp dsp]].
      exact Hsame.
Qed.

Lemma token_bucket_applied_first_witness :
  exists w',
    handle_request instant_env (ordinary_request 451) world_with_exhausted_bucket
      = (Resolved [PerIpTokenBucket], w') /\
    same_counters world_with_exhausted_bucket w'.
Proof.
  destruct (token_bucket_applied_first instant_env world_with_exhausted_bucket
              (ordinary_request 451)) as (rl & wr & ran & w' & _ & Heq & _ & _ & _ & Hstop).
  assert (Hran : fst (handle_request instant_env (ordinary_request 451)
                        world_with_exhausted_bucket) = Resolved [PerIpTokenBucket])
    by (vm_compute; reflexivity).
  rewrite Heq in Hran. simpl in Hran. injection Hran as ->.
  exists w'. split; [exact Heq|]. apply Hstop. reflexivity.
Defined.

(** C4 as stated fails: a request arriving when the global budget of the
    window is used up is rejected by the global rate ceiling (429), after the
    token bucket has run and made its two cache round trips. *)
Lemma token_bucket_runs_for_globally_rejected_request :
  fst (handle_request steady_env (ordinary_request 1) saturated_world)
    = Resolved [PerIpTokenBucket; GlobalRateCeiling] /\
  sent <$> (responses (adm (snd (handle_request steady_env (ordinary_request 1)
                                   saturated_world))) !! 1%nat)
    = Some (Some {| status := 429; body := GlobalRateLimitExceeded 1 |}) /\
  redisCalls (snd (handle_request steady_env (ordinary_request 1) saturated_world))
    = 2%nat /\
  activeConnections (adm (snd (handle_request steady_env (ordinary_request 1)
                                 saturated_world))) = 0.
Proof. vm_compute. repeat split. Qed.

(** ** The connection counter *)

(** Whatever the load, a request that went through the connection
    middleware with a fresh response and whose response emits ['finish'] and
    then ['close'] leaves [activeConnections] one below where it was before
    the request arrived. *)
Lemma finish_then_close_decrements_twice req w :
  responses (adm w) !! reqId req = None ->
  activeConnections
    (adm (snd ((connectionLimiter req;;
                emit (reqId req) finish;;
                emit (reqId req) close) w)))
  = activeConnections (adm w) - 1.
Proof.
  intros Hfresh. unfold connectionLimiter, emit, listeners.
  adm_setters. rewrite Hfresh. simpl.
  rewrite !lookup_insert_eq. simpl.
  destruct (MAX_CONNECTIONS <? activeConnections (adm w) + 1); simpl;
    do 3 (adm_setters; rewrite ?lookup_insert_eq; simpl); lia.
Qed.

(** C1 fails on the code: the connection middleware registers its decrement
    once on ['finish'] and once on ['close'] and never removes either, so a
    request whose response is sent normally (both events fire) takes two
    off [activeConnections].  After one such request on a fresh server the
    counter is -1, while [processingRequests], whose [onDone] listener removes
    itself from both events, is back at 0; an aborted request (only ['close'])
    leaves both at 0. *)
Theorem activeConnections_decremented_twice :
  activeConnections
    (adm (snd (run_events steady_env one_completed_request (initial_world 0)))) = -1 /\
  processingRequests
    (adm (snd (run_events steady_env one_completed_request (initial_world 0)))) = 0 /\
  activeConnections
    (adm (snd (run_events steady_env one_aborted_request (initial_world 0)))) = 0 /\
  processingRequests
    (adm (snd (run_events steady_env one_aborted_request (initial_world 0)))) = 0.
Proof. vm_compute. repeat split. Qed.

(** ** The read path *)

Lemma only_cache_refl w : only_cache w w.
Proof. destruct w. reflexivity. Qed.

Lemma only_cache_trans w1 w2 w3 :
  only_cache w1 w2 -> only_cache w2 w3 -> only_cache w1 w3.
Proof.
  unfold only_cache. destruct w1, w2, w3. setters.
  intros [= -> -> -> -> -> -> -> ->] [= -> -> -> -> -> -> -> ->].
  reflexivity.
Qed.

Lemma only_redis_cache w w' : only_redis w w' -> only_cache w w'.
Proof.
  unfold only_redis, only_cache. destruct w, w'. setters.
  intros [= -> -> -> -> -> -> -> -> ->]. reflexivity.
Qed.

Lemma only_cache_set_now w w' t : only_cache w w' -> only_cache w (set_now t w').
Proof.
  unfold only_cache. destruct w, w'. setters.
  intros [= -> -> -> -> -> -> -> ->]. reflexivity.
Qed.

Lemma only_mongo_set_now w w' t : only_mongo w w' -> only_mongo w (set_now t w').
Proof.
  unfold only_mongo. destruct w, w'. setters.
  intros [= -> -> -> -> -> -> -> -> ->]. reflexivity.
Qed.

(** The two ways a race ends. *)
Lemma race_cases {A} (m : Js A) ms msg w :
  (race m ms msg w = m w /\ fst (m w) <> Pending) \/
  race m ms msg w = (Rejected (Error msg), set_now (now w + ms) (snd (m w))).
Proof.
  unfold race. destruct (m w) as [[a|e|] w']; simpl;
    try (destruct (now w' - now w <? ms)); auto; left; split; auto; discriminate.
Qed.

(** [urlSchema.findOneAndUpdate] behind the DAO: what it can give back and
    what it does to the collection. *)
Lemma getShortUrlFromDB_cases env code w :
  exists r w',
    getShortUrlFromDB env code w = (r, w') /\
    r <> Pending /\
    only_mongo w w' /\
    (mongoCalls w <= mongoCalls w' <= S (mongoCalls w))%nat /\
    ((mongoDocs w' = mongoDocs w /\
      forall v, r = Resolved v -> v = JNull) \/
     (exists d, mongoDocs w !! code = Some d /\
                mongoDocs w' = <[code := inc_clicks d]> (mongoDocs w) /\
                forall v, r = Resolved v -> v = JUrl (inc_clicks d))) /\
    (store_failed env w w' -> exists e, r = Rejected e).
Proof.
  unfold getShortUrlFromDB, checkConnectionHealth, race, urlSchema_findOneAndUpdate,
         mongo_command, dao_rethrow, store_failed, query_fails, only_mongo.
  js_unfold. destruct w as [t ra rd rc rs md mc ic cb mo ti ad]. setters.
  destruct (rs =? 1) eqn:Hrs; simpl.
  2: { destruct (includes _ "timeout");
       (eexists _, _; split; [reflexivity|]; simpl);
       (split; [discriminate|]); (split; [reflexivity|]); (split; [lia|]);
       (split; [left; split; [reflexivity|]; discriminate | eauto]). }
  apply Z.eqb_eq in Hrs. subst rs.
  destruct (mongoOutcome env mc) as [lat|lat e|] eqn:Ho; simpl.
  - destruct (md !! code) as [d|] eqn:Hd; simpl;
      destruct (t + Z.of_nat lat - t <? 1500) eqn:Hlat; simpl;
      (eexists _, _; split; [reflexivity|]; simpl);
      (split; [discriminate|]); (split; [reflexivity|]); (split; [lia|]);
      (split;
       [ first [ right; eexists; split; [reflexivity|]; split; [reflexivity|];
                 intros v [= <-]; reflexivity
               | right; eexists; split; [reflexivity|]; split; [reflexivity|];
                 discriminate
               | left; split; [reflexivity|]; intros v [= <-]; reflexivity
               | left; split; [reflexivity|]; discriminate ]
       | intros [?|Hdown]; [congruence|];
         specialize (Hdown mc ltac:(lia)); rewrite Ho in Hdown;
         try (apply Z.ltb_lt in Hlat; lia); eauto ]).
  - destruct (t + Z.of_nat lat - t <? 1500) eqn:Hlat; simpl;
      repeat match goal with
             | |- context [if ?c then _ else _] => destruct c; simpl
             end;
      (eexists _, _; split; [reflexivity|]; simpl);
      (split; [discriminate|]); (split; [reflexivity|]); (split; [lia|]);
      (split; [left; split; [reflexivity|]; discriminate | eauto]).
  - eexists _, _; split; [reflexivity|]. simpl.
    split; [discriminate|]. split; [reflexivity|]. split; [lia|].
    split; [left; split; [reflexivity|]; discriminate | eauto].
Qed.

Lemma race_getShortUrlFromDB_cases env code ms msg w :
  exists r w',
    race (getShortUrlFromDB env code) ms msg w = (r, w') /\
    r <> Pending /\
    only_mongo w w' /\
    (mongoCalls w <= mongoCalls w' <= S (mongoCalls w))%nat /\
    ((mongoDocs w' = mongoDocs w /\
      forall v, r = Resolved v -> v = JNull) \/
     (exists d, mongoDocs w !! code = Some d /\
                mongoDocs w' = <[code := inc_clicks d]> (mongoDocs w) /\
                forall v, r = Resolved v -> v = JUrl (inc_clicks d))) /\
    (store_failed env w w' -> exists e, r = Rejected e).
Proof.
  destruct (getShortUrlFromDB_cases env code w)
    as (r & w' & Heq & Hnp & Hfr & Hcalls & Hdocs & Hdown).
  destruct (race_cases (getShortUrlFromDB env code) ms msg w) as [[-> _]| ->];
    rewrite Heq; simpl.
  - exists r, w'. auto 10.
  - eexists _, _. split; [reflexivity|]. simpl.
    split; [discriminate|]. split; [apply only_mongo_set_now; exact Hfr|].
    split; [exact Hcalls|]. split; [|eauto].
    destruct Hdocs as [[Hd _]|(d & Hd1 & Hd2 & _)].
    + left. split; [exact Hd|discriminate].
    + right. exists d. split; [exact Hd1|]. split; [exact Hd2|discriminate].
Qed.

(** What the cache-side operations leave alone. *)
Lemma only_cache_fields w w' :
  only_cache w w' ->
  redisAvailable w' = redisAvailable w /\ readyState w' = readyState w /\
  mongoDocs w' = mongoDocs w /\ mongoCalls w' = mongoCalls w /\
  idCalls w' = idCalls w /\ monitor w' = monitor w /\
  timers w' = timers w /\ adm w' = adm w.
Proof. intros H. rewrite H. repeat split. Qed.

Lemma only_mongo_fields w w' :
  only_mongo w w' ->
  redisAvailable w' = redisAvailable w /\ redisData w' = redisData w /\
  redisCalls w' = redisCalls w /\ readyState w' = readyState w /\
  idCalls w' = idCalls w /\ breaker w' = breaker w /\ monitor w' = monitor w /\
  timers w' = timers w /\ adm w' = adm w.
Proof. intros H. rewrite H. repeat split. Qed.

(** The guarded cache read of [getShortUrl] settles and stays on the cache
    side. *)
Lemma cache_lookup_cases env key w :
  exists r w',
    execute (race (cacheService_get env key) 2000 "Cache timeout") w = (r, w') /\
    r <> Pending /\ only_cache w w'.
Proof.
  unfold execute. js_unfold.
  destruct (execute_gate (now w) (breaker w)) as [cb'|].
  2: { eexists _, _. split; [reflexivity|]. split; [discriminate|apply only_cache_refl]. }
  set (w0 := set_breaker cb' w).
  assert (H0 : only_cache w w0) by (destruct w; reflexivity).
  destruct (cacheService_get_only_redis env key w0) as (v & w1 & Hg & H1).
  destruct (race_cases (cacheService_get env key) 2000 "Cache timeout" w0) as [[-> _]| ->];
    rewrite Hg; simpl.
  - eexists _, _. split; [reflexivity|]. split; [discriminate|].
    eapply only_cache_trans; [exact H0|].
    eapply only_cache_trans; [apply only_redis_cache; exact H1|].
    destruct w1; reflexivity.
  - eexists _, _. split; [reflexivity|]. split; [discriminate|].
    eapply only_cache_trans; [exact H0|].
    eapply only_cache_trans; [apply only_redis_cache; exact H1|].
    destruct w1; reflexivity.
Qed.

Lemma cacheService_incr_only_redis env key ttl w :
  exists r w', cacheService_incr env key ttl w = (Resolved r, w') /\ only_redis w w'.
Proof.
  unfold cacheService_incr, redis_incr, redis_expire. js_unfold.
  destruct (redisAvailable w); simpl.
  2: { eexists _, _; split; [reflexivity|apply only_redis_refl]. }
  match goal with
  | |- context [redis_command env ?run w] =>
      destruct (redis_command env run w) as [[a|e|] w1] eqn:E;
      pose proof (redis_command_only_redis _ _ _ _ _ E) as H1;
      pose proof (redis_command_settles env run w) as Hs; rewrite E in Hs
  end; simpl in *; try congruence; eauto.
  destruct (a =? 1); eauto.
  match goal with
  | |- context [redis_command env ?run w1] =>
      destruct (redis_command env run w1) as [[a2|e|] w2] eqn:E2;
      pose proof (redis_command_only_redis _ _ _ _ _ E2) as H2;
      pose proof (redis_command_settles env run w1) as Hs2; rewrite E2 in Hs2
  end; simpl in *; try congruence;
    (eexists _, _; split; [reflexivity|]; eapply only_redis_trans; eassumption).
Qed.

Lemma incrementClicks_only_redis env code w :
  exists w', incrementClicks env code w = (Resolved tt, w') /\ only_redis w w'.
Proof.
  unfold incrementClicks. js_unfold.
  match goal with
  | |- context [cacheService_incr env ?k ?ttl w] =>
      destruct (cacheService_incr_only_redis env k ttl w) as (n & w1 & -> & H1)
  end.
  match goal with
  | |- context [cacheService_get env ?k w1] =>
      destruct (cacheService_get_only_redis env k w1) as (got & w2 & -> & H2)
  end.
  pose proof (only_redis_trans _ _ _ H1 H2) as H12.
  destruct (if truthy got then got else JAnalytics 0 ∅); eauto.
  match goal with
  | |- context [cacheService_set env ?k ?v ?ttl w2] =>
      destruct (cacheService_set_only_redis env k v ttl w2) as (b & w3 & -> & H3)
  end.
  eexists; split; [reflexivity|]. eapply only_redis_trans; eassumption.
Qed.

Lemma clicks_monotone_refl w w' : mongoDocs w' = mongoDocs w -> clicks_monotone w w'.
Proof. intros H code d Hd. rewrite H. exists d. split; [exact Hd|lia]. Qed.

Lemma clicks_monotone_trans w1 w2 w3 :
  clicks_monotone w1 w2 -> clicks_monotone w2 w3 -> clicks_monotone w1 w3.
Proof.
  intros H12 H23 code d Hd.
  destruct (H12 code d Hd) as (d2 & Hd2 & Hle2).
  destruct (H23 code d2 Hd2) as (d3 & Hd3 & Hle3).
  exists d3. split; [exact Hd3|lia].
Qed.

Lemma clicks_monotone_inc w w' code d :
  mongoDocs w !! code = Some d ->
  mongoDocs w' = <[code := inc_clicks d]> (mongoDocs w) ->
  clicks_monotone w w'.
Proof.
  intros Hd Hw c d0 Hd0. rewrite Hw.
  destruct (decide (code = c)) as [->|Hne].
  - rewrite lookup_insert_eq. exists (inc_clicks d). split; [reflexivity|].
    assert (d0 = d) by congruence. subst. simpl. lia.
  - rewrite lookup_insert_ne by exact Hne. exists d0. split; [exact Hd0|lia].
Qed.

(** A store that failed over a span of queries failed over each part of
    it, while mongoose's state is untouched. *)
Lemma store_failed_part env w w' a b :
  store_failed env w w' -> readyState a = readyState w ->
  (mongoCalls w <= mongoCalls a)%nat -> (mongoCalls b <= mongoCalls w')%nat ->
  store_failed env a b.
Proof.
  intros [H|H] Hrs Ha Hb; [left; congruence|right].
  intros n Hn. apply H. lia.
Qed.

(** The [catch] block of [getShortUrl] always resolves. *)
Lemma getShortUrl_catch_block_cases env code startTime w :
  exists v w',
    getShortUrl_catch_block env code startTime w = (Resolved v, w') /\
    readyState w' = readyState w /\
    (mongoCalls w <= mongoCalls w' <= S (mongoCalls w))%nat /\
    cacheHits (monitor w') = cacheHits (monitor w) /\
    ((mongoDocs w' = mongoDocs w /\ v = JNull) \/
     (exists d, mongoDocs w !! code = Some d /\
                mongoDocs w' = <[code := inc_clicks d]> (mongoDocs w) /\
                (v = JNull \/ v = JUrl (inc_clicks d)))) /\
    (store_failed env w w' -> v = JNull).
Proof.
  unfold getShortUrl_catch_block, record_elapsed. js_unfold.
  set (w0 := set_monitor (recordDbFallback (monitor (set_monitor
                (recordRedisError (monitor w)) w))) (set_monitor
                (recordRedisError (monitor w)) w)).
  destruct (race_getShortUrlFromDB_cases env code 2500 "Fallback timeout" w0)
    as (r & w1 & Heq & Hnp & Hfr & Hcalls & Hdocs & Hdown).
  cbv beta iota. fold w0. rewrite Heq.
  destruct (only_mongo_fields _ _ Hfr) as (_ & _ & _ & Hrs & _ & _ & Hmon & _ & _).
  assert (Hw0 : readyState w0 = readyState w /\ mongoCalls w0 = mongoCalls w /\
                mongoDocs w0 = mongoDocs w /\
                cacheHits (monitor w0) = cacheHits (monitor w))
    by (destruct w; repeat split).
  destruct Hw0 as (Hrs0 & Hc0 & Hd0 & Hh0).
  destruct r as [v|e|]; [| |congruence].
  - eexists _, _. split; [reflexivity|]. setters.
    split; [congruence|]. split; [lia|].
    split; [rewrite Hmon; reflexivity|].
    split.
    + destruct Hdocs as [[Hsame Hv]|(d & Hd1 & Hd2 & Hv)].
      * left. split; [congruence|]. apply Hv. reflexivity.
      * right. exists d. split; [exact Hd1|].
        split; [exact Hd2|]. right. apply Hv. reflexivity.
    + intros H. destruct Hdown as (e & He); [|discriminate].
      apply (store_failed_part env _ _ _ _ H); simpl; [reflexivity|lia|lia].
  - eexists _, _. split; [reflexivity|]. setters.
    split; [congruence|]. split; [lia|].
    split; [rewrite Hmon; reflexivity|].
    split; [|reflexivity].
    destruct Hdocs as [[Hsame Hv]|(d & Hd1 & Hd2 & Hv)].
    + left. split; [congruence|reflexivity].
    + right. exists d. split; [exact Hd1|].
      split; [exact Hd2|]. left. reflexivity.
Qed.

(** The [try] block of [getShortUrl]: a cache hit, or else whatever the
    database query gives. *)
Lemma getShortUrl_try_block_cases env code startTime w :
  exists r w',
    getShortUrl_try_block env code startTime w = (r, w') /\
    r <> Pending /\
    readyState w' = readyState w /\
    (mongoCalls w <= mongoCalls w' <= S (mongoCalls w))%nat /\
    ((exists v, r = Resolved v /\ truthy v = true /\
                cacheHits (monitor w') = cacheHits (monitor w) + 1 /\
                mongoDocs w' = mongoDocs w) \/
     (cacheHits (monitor w') = cacheHits (monitor w) /\
      ((mongoDocs w' = mongoDocs w /\ forall v, r = Resolved v -> v = JNull) \/
       (exists d, mongoDocs w !! code = Some d /\
                  mongoDocs w' = <[code := inc_clicks d]> (mongoDocs w) /\
                  forall v, r = Resolved v -> v = JUrl (inc_clicks d))) /\
      (store_failed env w w' -> exists e, r = Rejected e))).
Proof.
  unfold getShortUrl_try_block, record_elapsed. js_unfold.
  destruct (cache_lookup_cases env (CACHE_KEYS_SHORT_URL code) w)
    as (r & w1 & -> & Hnp & Hc1).
  destruct (only_cache_fields _ _ Hc1) as (_ & Hrs1 & Hdocs1 & Hcalls1 & _ & Hmon1 & _ & _).
  destruct r as [urlData|e|]; [| |congruence].
  2: { eexists _, _. split; [reflexivity|]. split; [discriminate|].
       split; [exact Hrs1|]. split; [lia|]. right.
       split; [congruence|]. split; [|eauto].
       left. split; [exact Hdocs1|discriminate]. }
  destruct (truthy urlData) eqn:Ht.
  - (* hit *)
    cbv beta iota.
    set (w2 := set_monitor (recordCacheHit (monitor w1)) w1).
    destruct (incrementClicks_only_redis env code w2) as (w3 & Hinc & H3).
    unfold detached. rewrite Hinc. cbv beta iota.
    apply only_redis_cache, only_cache_fields in H3.
    destruct H3 as (_ & Hrs3 & Hdocs3 & Hcalls3 & _ & Hmon3 & _ & _).
    eexists _, _. split; [reflexivity|]. split; [discriminate|].
    subst w2. setters.
    split; [congruence|]. split; [lia|]. left.
    exists urlData. split; [reflexivity|]. split; [exact Ht|].
    split; [rewrite Hmon3, Hmon1; reflexivity|congruence].
  - (* miss *)
    cbv beta iota.
    set (w2 := set_monitor (recordCacheMiss (monitor w1)) w1).
    destruct (race_getShortUrlFromDB_cases env code 3000 "DB timeout" w2)
      as (r & w3 & -> & Hnp3 & Hfr3 & Hcalls3 & Hdocs3 & Hdown3).
    destruct (only_mongo_fields _ _ Hfr3) as (_ & _ & _ & Hrs3 & _ & _ & Hmon3 & _ & _).
    subst w2. setters.
    destruct r as [v|e|]; [| |congruence].
    + assert (Hfin : exists w4,
          (if truthy v
           then detached (cacheService_set env (CACHE_KEYS_SHORT_URL code) v
                            CACHE_TTL_SHORT_URL)
           else (fun w => (Resolved tt, w))) w3 = (Resolved tt, w4) /\
          only_cache w3 w4).
      { destruct (truthy v).
        - destruct (cacheService_set_only_redis env (CACHE_KEYS_SHORT_URL code) v
                      CACHE_TTL_SHORT_URL w3) as (b & w4 & Hset & H4).
          unfold detached. rewrite Hset. eexists; split; [reflexivity|].
          apply only_cache_set_now, only_redis_cache. exact H4.
        - eexists; split; [reflexivity|apply only_cache_refl]. }
      destruct Hfin as (w4 & -> & H4).
      destruct (only_cache_fields _ _ H4) as (_ & Hrs4 & Hdocs4 & Hcalls4 & _ & Hmon4 & _ & _).
      eexists _, _. split; [reflexivity|]. split; [discriminate|]. simpl.
      split; [congruence|]. split; [lia|]. right.
      split; [rewrite Hmon4, Hmon3, Hmon1; reflexivity|].
      split.
      * destruct Hdocs3 as [[Hsame Hv]|(d & Hd1 & Hd2 & Hv)].
        -- left. split; [congruence|exact Hv].
        -- right. exists d. rewrite <- Hdocs1. split; [exact Hd1|].
           split; [congruence|exact Hv].
      * intros H. apply Hdown3.
        apply (store_failed_part env _ _ _ _ H); simpl; [congruence|lia|lia].
    + eexists _, _. split; [reflexivity|]. split; [discriminate|].
      split; [congruence|]. split; [lia|]. right.
      split; [rewrite Hmon3, Hmon1; reflexivity|].
      split; [|eauto].
      destruct Hdocs3 as [[Hsame Hv]|(d & Hd1 & Hd2 & Hv)].
      * left. split; [congruence|discriminate].
      * right. exists d. rewrite <- Hdocs1. split; [exact Hd1|].
        split; [congruence|discriminate].
Qed.

(** [urlCacheService.getShortUrl] always resolves: with a cache hit, which
    leaves the collection alone, or else with [null] or the document the
    database just updated. *)
Lemma getShortUrl_cases env code w :
  exists v w',
    urlCacheService_getShortUrl env code w = (Resolved v, w') /\
    ((truthy v = true /\
      cacheHits (monitor w') = cacheHits (monitor w) + 1 /\
      mongoDocs w' = mongoDocs w) \/
     (cacheHits (monitor w') = cacheHits (monitor w) /\
      clicks_monotone w w' /\
      (v = JNull \/
       exists d0 d, mongoDocs w !! code = Some d0 /\
                    mongoDocs w' !! code = Some d /\
                    v = JUrl d /\ clicks d0 < clicks d) /\
      (store_failed env w w' -> v = JNull))).
Proof.
  unfold urlCacheService_getShortUrl. js_unfold.
  destruct (getShortUrl_try_block_cases env code (now w) w)
    as (r & w1 & -> & Hnp & Hrs1 & Hcalls1 & Hcase).
  destruct Hcase as [(v & -> & Ht & Hhits & Hdocs)|(Hhits & Hdocs & Hdown)].
  { eexists _, _. split; [reflexivity|]. left. auto. }
  assert (Hmono1 : clicks_monotone w w1).
  { destruct Hdocs as [[Hsame _]|(d & Hd1 & Hd2 & _)].
    - apply clicks_monotone_refl. exact Hsame.
    - eapply clicks_monotone_inc; eassumption. }
  destruct r as [v|e|]; [| |congruence].
  - (* the database answered inside the try block *)
    eexists _, _. split; [reflexivity|]. right.
    split; [exact Hhits|]. split; [exact Hmono1|]. split.
    + destruct Hdocs as [[Hsame Hv]|(d & Hd1 & Hd2 & Hv)].
      * left. apply Hv. reflexivity.
      * right. exists d, (inc_clicks d). split; [exact Hd1|].
        split; [rewrite Hd2; apply lookup_insert_eq|].
        split; [apply Hv; reflexivity|simpl; lia].
    + intros H. destruct Hdown as (e & He); [exact H|discriminate].
  - (* the catch block *)
    destruct (getShortUrl_catch_block_cases env code (now w) w1)
      as (v & w2 & -> & Hrs2 & Hcalls2 & Hhits2 & Hdocs2 & Hdown2).
    eexists _, _. split; [reflexivity|]. right.
    assert (Hmono2 : clicks_monotone w1 w2).
    { destruct Hdocs2 as [[Hsame _]|(d & Hd1 & Hd2 & _)].
      - apply clicks_monotone_refl. exact Hsame.
      - eapply clicks_monotone_inc; eassumption. }
    split; [congruence|].
    split; [eapply clicks_monotone_trans; eassumption|].
    split.
    + destruct Hdocs2 as [[_ ->]|(d & Hd1 & Hd2 & [->| ->])]; [left; reflexivity..|].
      right.
      destruct Hdocs as [[Hsame _]|(d0 & Hd01 & Hd02 & _)].
      * exists d, (inc_clicks d). split; [rewrite <- Hsame; exact Hd1|].
        split; [rewrite Hd2; apply lookup_insert_eq|].
        split; [reflexivity|simpl; lia].
      * exists d0, (inc_clicks d). split; [exact Hd01|].
        split; [rewrite Hd2; apply lookup_insert_eq|].
        split; [reflexivity|].
        rewrite Hd02, lookup_insert_eq in Hd1. injection Hd1 as <-. simpl. lia.
    + intros H. apply Hdown2.
      apply (store_failed_part env _ _ _ _ H); [congruence|lia|lia].
Qed.

(** C5, as the code has it: a lookup through [urlCacheService.getShortUrl]
    never lowers a click count in the persistent store; when it is answered
    without a cache hit by a document, that document is the stored mapping
    with a click count strictly above the one before the lookup; when it is
    answered by a cache hit, the persistent store is left as it was, so the
    mapping's click count is not incremented. *)
Theorem lookup_click_count (env : Env) (code : string) (w : World) :
  exists v w',
    urlCacheService_getShortUrl env code w = (Resolved v, w') /\
    clicks_monotone w w' /\
    (cacheHits (monitor w') = cacheHits (monitor w) ->
     v <> JNull ->
     exists d0 d, mongoDocs w !! code = Some d0 /\
                  mongoDocs w' !! code = Some d /\
                  v = JUrl d /\ clicks d0 < clicks d) /\
    (cacheHits (monitor w') <> cacheHits (monitor w) ->
     truthy v = true /\ mongoDocs w' = mongoDocs w).
Proof.
  destruct (getShortUrl_cases env code w)
    as (v & w' & Heq & [(Ht & Hhits & Hdocs)|(Hhits & Hmono & Hv & _)]).
  - exists v, w'. split; [exact Heq|].
    split; [apply clicks_monotone_refl; exact Hdocs|].
    split; [intros H; lia|auto].
  - exists v, w'. split; [exact Heq|]. split; [exact Hmono|].
    split; [|intros H; congruence].
    intros _ Hnn. destruct Hv as [->|Hv]; [congruence|exact Hv].
Qed.

(** C8: [urlCacheService.getShortUrl] resolves for every behaviour of Redis
    and MongoDB, so no dependency error reaches its caller; and when there
    is no cache hit and mongoose is disconnected or every query the read
    sent to the store failed or timed out, it resolves to [null]. *)
Theorem getShortUrl_never_rejects (env : Env) (code : string) (w : World) :
  exists v w',
    urlCacheService_getShortUrl env code w = (Resolved v, w') /\
    (store_failed env w w' ->
     cacheHits (monitor w') = cacheHits (monitor w) ->
     v = JNull).
Proof.
  destruct (getShortUrl_cases env code w)
    as (v & w' & Heq & [(_ & Hhits & _)|(_ & _ & _ & Hdown)]).
  - exists v, w'. split; [exact Heq|]. intros _ H. lia.
  - exists v, w'. split; [exact Heq|]. intros H _. exact (Hdown H).
Qed.

Lemma lookup_click_count_witness :
  exists d,
    fst (urlCacheService_getShortUrl steady_env "V1StGXR8" world_with_cold_cache)
      = Resolved (JUrl d) /\
    mongoDocs (snd (urlCacheService_getShortUrl steady_env "V1StGXR8"
                      world_with_cold_cache)) !! "V1StGXR8" = Some d /\
    clicks d = 1.
Proof.
  destruct (lookup_click_count steady_env "V1StGXR8" world_with_cold_cache)
    as (v & w' & Heq & _ & Hstore & _).
  assert (Hv : fst (urlCacheService_getShortUrl steady_env "V1StGXR8"
                      world_with_cold_cache)
               = Resolved (JUrl (mkUrlData "https://example.com" "V1StGXR8" 1
                                           None (Some 0))))
    by (vm_compute; reflexivity).
  assert (Hh : cacheHits (monitor (snd (urlCacheService_getShortUrl steady_env
                                          "V1StGXR8" world_with_cold_cache))) = 0)
    by (vm_compute; reflexivity).
  rewrite Heq in Hv, Hh |- *. simpl in *.
  injection Hv as ->.
  destruct Hstore as (d0 & d & _ & Hd & Hvd & _); [exact Hh|discriminate|].
  injection Hvd as <-.
  eexists. split; [reflexivity|]. split; [exact Hd|reflexivity].
Defined.

(** C5 as stated fails on a cache hit: after a create on a healthy server
    the mapping is cached; the lookup that follows is served from the cache,
    and the click count of the mapping is 0 before and after it, in the
    collection and in the cached copy. *)
Lemma cache_hit_does_not_count_the_click :
  fst (urlCacheService_getShortUrl steady_env "V1StGXR8" world_after_create)
    = Resolved (JUrl (mkUrlData "https://example.com" "V1StGXR8" 0 None None)) /\
  clicks <$> (mongoDocs world_after_create !! "V1StGXR8") = Some 0 /\
  clicks <$> (mongoDocs (snd (urlCacheService_getShortUrl steady_env "V1StGXR8"
                                world_after_create)) !! "V1StGXR8") = Some 0 /\
  fst <$> (redisData (snd (urlCacheService_getShortUrl steady_env "V1StGXR8"
                             world_after_create)) !! "url:V1StGXR8")
    = Some (JUrl (mkUrlData "https://example.com" "V1StGXR8" 0 None None)).
Proof. vm_compute. repeat split. Qed.

Lemma getShortUrl_never_rejects_witness :
  fst (urlCacheService_getShortUrl hanging_store_env "V1StGXR8" healthy_world)
    = Resolved JNull.
Proof.
  destruct (getShortUrl_never_rejects hanging_store_env "V1StGXR8" healthy_world)
    as (v & w' & Heq & Hnull).
  assert (Hh : cacheHits (monitor (snd (urlCacheService_getShortUrl hanging_store_env
                                          "V1StGXR8" healthy_world))) = 0)
    by (vm_compute; reflexivity).
  rewrite Heq in Hh |- *. simpl in *.
  rewrite Hnull; [reflexivity| |exact Hh].
  right. intros n _. exact I.
Defined.

(** ** The write path *)

Lemma saveShortUrl_cases env code url userId w :
  exists r w',
    saveShortUrl env code url userId w = (r, w') /\
    r <> Pending /\
    only_mongo w w' /\
    (mongoCalls w <= mongoCalls w' <= S (mongoCalls w))%nat.
Proof.
  unfold saveShortUrl, checkConnectionHealth, race, urlSchema_create,
         mongo_command, dao_rethrow, only_mongo.
  js_unfold. destruct w as [t ra rd rc rs md mc ic cb mo ti ad]. setters.
  destruct (rs =? 1) eqn:Hrs; simpl.
  2: { destruct (includes _ "timeout");
       (eexists _, _; split; [reflexivity|]; simpl);
       (split; [discriminate|]); (split; [reflexivity|lia]). }
  destruct (mongoOutcome env mc) as [lat|lat e|] eqn:Ho; simpl.
  - destruct (md !! code) as [d|] eqn:Hd; simpl;
      destruct (t + Z.of_nat lat - t <? 5000) eqn:Hlat; simpl;
      (eexists _, _; split; [reflexivity|]; simpl);
      (split; [discriminate|]); (split; [reflexivity|lia]).
  - destruct (t + Z.of_nat lat - t <? 5000) eqn:Hlat; simpl;
      repeat match goal with
             | |- context [if ?c then _ else _] => destruct c; simpl
             end;
      (eexists _, _; split; [reflexivity|]; simpl);
      (split; [discriminate|]); (split; [reflexivity|lia]).
  - eexists _, _; split; [reflexivity|]. simpl.
    split; [discriminate|]. split; [reflexivity|lia].
Qed.

(** An insert that is not answered within 2500 ms loses the race. *)
Lemma save_quick_timeout env code url w :
  readyState w = 1 ->
  insert_times_out env (mongoCalls w) ->
  exists w',
    race (saveShortUrl env code url None) 2500 "Save quick-timeout" w
      = (Rejected (Error "Save quick-timeout"), w') /\
    only_mongo w w' /\
    now w' = now w + 2500.
Proof.
  intros Hrs Hslow.
  destruct (saveShortUrl_cases env code url None w) as (r & w1 & Heq & Hnp & Hfr & _).
  assert (Hlate : 2500 <= now w1 - now w \/ r = Pending).
  { revert Heq.
    unfold saveShortUrl, checkConnectionHealth, race, urlSchema_create,
           mongo_command, dao_rethrow, insert_times_out in *.
    js_unfold. destruct w as [t ra rd rc rs md mc ic cb mo ti ad]. setters.
    subst rs. simpl.
    destruct (mongoOutcome env mc) as [lat|lat e|] eqn:Ho; simpl.
    - destruct (md !! code) as [d|] eqn:Hd; simpl;
        destruct (t + Z.of_nat lat - t <? 5000) eqn:Hlat; simpl;
        intros [= <- <-]; simpl; left; lia.
    - destruct (t + Z.of_nat lat - t <? 5000) eqn:Hlat; simpl;
        repeat match goal with
               | |- context [if ?c then _ else _] => destruct c; simpl
               end;
        intros [= <- <-]; simpl; left; lia.
    - intros [= <- <-]. simpl. left. lia. }
  unfold race. rewrite Heq.
  destruct Hlate as [Hlate| ->]; [|congruence].
  assert (Hcmp : (now w1 - now w <? 2500) = false) by (apply Z.ltb_ge; exact Hlate).
  exists (set_now (now w + 2500) w1).
  split.
  - destruct r; [rewrite Hcmp; reflexivity..|congruence].
  - split; [apply only_mongo_set_now; exact Hfr|reflexivity].
Qed.

(** The degradation always ends by returning the code, with the background
    persistence scheduled 100 ms later; when Redis takes the write, the
    mapping is cached for 600 s. *)
Lemma degrade_cases env code url w :
  exists w1 w',
    degrade env code url w = (Resolved code, w') /\
    only_redis w w1 /\
    w' = set_timers (insert_timer (now w1 + 100, RetrySave code url 0) (timers w1)) w1 /\
    (forall lat, redisAvailable w = true ->
                 redisOutcome env (redisCalls w) = RReply lat ->
                 now w1 = now w + Z.of_nat lat /\
                 redisCalls w1 = S (redisCalls w) /\
                 redisData w1 !! ("url:" +:+ code)
                 = Some (JUrl (mkUrlData url code 0 None None),
                         Some (now w + 600 * 1000))).
Proof.
  unfold degrade, schedule. js_unfold.
  destruct (cacheService_set_only_redis env ("url:" +:+ code)
              (JUrl (mkUrlData url code 0 None None)) 600 w) as (b & w1 & Hset & H1).
  rewrite Hset. exists w1. eexists. split; [reflexivity|].
  split; [exact H1|]. split; [reflexivity|].
  intros lat Hav Ho. revert Hset.
  unfold cacheService_set, redis_setex, redis_command. js_unfold.
  rewrite Hav. simpl. rewrite Ho. simpl.
  intros [= <- <-]. simpl. rewrite lookup_insert_eq. auto.
Qed.

Lemma degrade_resolves env code url w :
  exists w', degrade env code url w = (Resolved code, w').
Proof. destruct (degrade_cases env code url w) as (w1 & w' & H & _). eauto. Qed.

(** The statement after the retry loop is never reached: with at least one
    iteration to go, [create_attempts] returns a code or fails because
    nanoid gave nothing. *)
Lemma create_attempts_outcome env url n w :
  (0 < n)%nat ->
  exists w',
    (exists code, create_attempts env n url w = (Resolved code, w')) \/
    create_attempts env n url w = (Rejected (Error "Short URL not generated"), w').
Proof.
  revert w. induction n as [|n IH]; intros w Hn; [lia|].
  simpl create_attempts. unfold generateNanoId. js_unfold.
  set (code := nanoid env (idCalls w) 8).
  destruct (code =? "")%string; [eauto|].
  set (w1 := set_idCalls (S (idCalls w)) w).
  pose proof (race_settles (saveShortUrl env code url None) 2500 "Save quick-timeout" w1)
    as Hs.
  destruct (race (saveShortUrl env code url None) 2500 "Save quick-timeout" w1)
    as [[d|e|] w2]; simpl in Hs; [eauto| |congruence].
  destruct ((message e =? "Short URL already exists")%string
            && (maxCollisions - Z.of_nat n <? maxCollisions)) eqn:Hretry.
  - apply andb_prop in Hretry as [_ Hlt]. apply Z.ltb_lt in Hlt.
    apply IH. lia.
  - destruct (degrade_resolves env code url w2) as (w3 & ->). eauto.
Qed.

(** A live cache entry is served by the read path when the breaker lets
    the call through and Redis answers in time. *)
Lemma cached_mapping_is_served env code v ex w cb lat :
  redisAvailable w = true ->
  redisData w !! ("url:" +:+ code) = Some (v, Some ex) ->
  now w < ex ->
  truthy v = true ->
  execute_gate (now w) (breaker w) = Some cb ->
  redisOutcome env (redisCalls w) = RReply lat ->
  Z.of_nat lat < 2000 ->
  exists w', urlCacheService_getShortUrl env code w = (Resolved v, w').
Proof.
  intros Hav Hkey Hlive Ht Hgate Ho Hlat.
  unfold urlCacheService_getShortUrl, getShortUrl_try_block, execute, race,
         cacheService_get, redis_get, redis_command, redis_lookup,
         CACHE_KEYS_SHORT_URL, record_elapsed, detached.
  js_unfold. rewrite Hgate. setters. rewrite Hav. simpl. rewrite Ho. simpl.
  rewrite Hkey. apply Z.ltb_lt in Hlive. rewrite Hlive. simpl.
  assert (Hcmp : (now w + Z.of_nat lat - now w <? 2000) = true)
    by (apply Z.ltb_lt; lia).
  rewrite Hcmp. simpl. rewrite Ht. simpl. eauto.
Qed.

(** One run of [retrySave]: one save at most, and either nothing is left to
    do or the next run is scheduled with the count moved up, which only
    happens below the third. *)
Lemma retrySave_step env code url retryCount w :
  timers w = [] ->
  exists w',
    retrySave env code url retryCount w = (Resolved tt, w') /\
    (mongoCalls w <= mongoCalls w' <= S (mongoCalls w))%nat /\
    (timers w' = [] \/
     (retryCount + 1 < 3 /\
      exists due, timers w' = [(due, RetrySave code url (retryCount + 1))])).
Proof.
  intros Hti. unfold retrySave, schedule. js_unfold.
  destruct (saveShortUrl_cases env code url None w) as (r & w1 & -> & Hnp & Hfr & Hcalls).
  destruct (only_mongo_fields _ _ Hfr) as (_ & _ & _ & _ & _ & _ & _ & Hti1 & _).
  rewrite Hti in Hti1.
  destruct r as [d|e|]; [| |congruence].
  - eexists. split; [reflexivity|]. auto.
  - destruct ((retryCount + 1 <? 3) && negb (includes (message e) "already exists"))
      eqn:Hagain.
    + apply andb_prop in Hagain as [Hlt _]. apply Z.ltb_lt in Hlt.
      eexists. split; [reflexivity|]. simpl. split; [exact Hcalls|].
      right. split; [exact Hlt|]. rewrite Hti1. simpl. eauto.
    + eexists. split; [reflexivity|]. auto.
Qed.

Lemma fire_timer_step env code url retryCount due w :
  timers w = [(due, RetrySave code url retryCount)] ->
  exists w',
    fire_timer env w = (Resolved true, w') /\
    (mongoCalls w <= mongoCalls w' <= S (mongoCalls w))%nat /\
    (timers w' = [] \/
     (retryCount + 1 < 3 /\
      exists due', timers w' = [(due', RetrySave code url (retryCount + 1))])).
Proof.
  intros Hti. unfold fire_timer. rewrite Hti. js_unfold.
  destruct (retrySave_step env code url retryCount
              (set_now (Z.max (now w) due) (set_timers [] w)))
    as (w' & -> & Hcalls & Hnext); [reflexivity|].
  eexists. split; [reflexivity|]. auto.
Qed.

Lemma run_timers_idle env n w :
  timers w = [] -> run_timers env n w = (Resolved tt, w).
Proof.
  intros Hti. destruct n; [reflexivity|].
  simpl. unfold fire_timer. js_unfold. rewrite Hti. reflexivity.
Qed.

(** The background persistence is bounded: started with [retryCount = 0],
    it is over after three timer callbacks at most, having sent at most
    three inserts, whatever MongoDB does. *)
Lemma background_persistence_bounded env code url due w :
  timers w = [(due, RetrySave code url 0)] ->
  exists w',
    run_timers env 3 w = (Resolved tt, w') /\
    timers w' = [] /\
    (mongoCalls w' <= mongoCalls w + 3)%nat.
Proof.
  intros Hti.
  destruct (fire_timer_step env code url 0 due w Hti) as (w1 & H1 & Hc1 & Hn1).
  change (run_timers env 3) with
    (fired ← fire_timer env; if fired : bool then run_timers env 2 else mret tt).
  js_unfold. rewrite H1.
  destruct Hn1 as [Hn1|(_ & due1 & Hn1)].
  { rewrite run_timers_idle by exact Hn1. eexists. split; [reflexivity|].
    split; [exact Hn1|lia]. }
  destruct (fire_timer_step env code url (0 + 1) due1 w1 Hn1) as (w2 & H2 & Hc2 & Hn2).
  change (run_timers env 2) with
    (fired ← fire_timer env; if fired : bool then run_timers env 1 else mret tt).
  js_unfold. rewrite H2.
  destruct Hn2 as [Hn2|(_ & due2 & Hn2)].
  { rewrite run_timers_idle by exact Hn2. eexists. split; [reflexivity|].
    split; [exact Hn2|lia]. }
  destruct (fire_timer_step env code url (0 + 1 + 1) due2 w2 Hn2) as (w3 & H3 & Hc3 & Hn3).
  change (run_timers env 1) with
    (fired ← fire_timer env; if fired : bool then run_timers env 0 else mret tt).
  js_unfold. rewrite H3.
  destruct Hn3 as [Hn3|(Hlt & _)]; [|lia].
  eexists. split; [reflexivity|]. split; [exact Hn3|lia].
Qed.

Lemma create_attempts_S env n url :
  create_attempts env (S n) url =
  (shortUrl ← generateNanoId env 8;
   if (shortUrl =? "")%string then throw (Error "Short URL not generated")
   else
     try_catch
       (race (saveShortUrl env shortUrl url None) 2500 "Save quick-timeout";;
        mret shortUrl)
       (fun error =>
          if (message error =? "Short URL already exists")%string
             && (maxCollisions - Z.of_nat n <? maxCollisions)
          then sleep (2 ^ (maxCollisions - Z.of_nat n) * 10);; create_attempts env n url
          else degrade env shortUrl url)).
Proof. reflexivity. Qed.

(** The [throw] that follows the retry loop is dead code. *)
Lemma create_never_reports_exhaustion env url w :
  fst (createShortUrlWithoutUser env url None w)
  <> Rejected (Error "Failed to generate unique short URL after maximum attempts").
Proof.
  unfold createShortUrlWithoutUser.
  change (Z.to_nat (maxCollisions + 1)) with 6%nat.
  destruct (create_attempts_outcome env url 6 w) as (w' & [(code & ->)| ->]);
    [lia|discriminate..].
Qed.

(** C3 fails on the code: the store holds the code the generator keeps
    producing, so each of the six attempts ends in "Short URL already
    exists"; the sixth is not retried ([attempt < maxCollisions] is false)
    but falls into the degradation, and the call returns the colliding code
    instead of failing.  The cache now maps that code to the new URL while
    the store keeps the old one, and a background insert is scheduled. *)
Theorem create_returns_colliding_code_after_six_collisions :
  fst (saveShortUrl colliding_env "V1StGXR8" "https://other.example" None
         world_with_cold_cache)
    = Rejected (Error "Short URL already exists") /\
  fst (createShortUrlWithoutUser colliding_env "https://other.example" None
         world_with_cold_cache) = Resolved "V1StGXR8" /\
  mongoCalls (snd (createShortUrlWithoutUser colliding_env "https://other.example" None
                     world_with_cold_cache))
    = (mongoCalls world_with_cold_cache + 6)%nat /\
  full_url <$> (mongoDocs (snd (createShortUrlWithoutUser colliding_env
                                  "https://other.example" None world_with_cold_cache))
                !! "V1StGXR8") = Some "https://example.com" /\
  fst <$> (redisData (snd (createShortUrlWithoutUser colliding_env
                             "https://other.example" None world_with_cold_cache))
           !! "url:V1StGXR8")
    = Some (JUrl (mkUrlData "https://other.example" "V1StGXR8" 0 None None)) /\
  snd <$> timers (snd (createShortUrlWithoutUser colliding_env "https://other.example"
                         None world_with_cold_cache))
    = [RetrySave "V1StGXR8" "https://other.example" 0].
Proof. vm_compute. repeat split. Qed.

(** ** The model at work *)

(** Ten consecutive failures open a fresh breaker, and an open breaker
    refuses the next call without running the operation. *)
Example breaker_opens_after_ten_failures :
  state (breaker (snd (repeat_js 10 (guarded failing_operation) (initial_world 0))))
    = OPEN /\
  execute visible_operation
          (snd (repeat_js 10 (guarded failing_operation) (initial_world 0)))
    = (Rejected (Error "Circuit breaker is OPEN - Redis temporarily unavailable"),
       snd (repeat_js 10 (guarded failing_operation) (initial_world 0))).
Proof. vm_compute. split; reflexivity. Qed.

(** After the recovery timeout three successful probes close it again. *)
Example breaker_closes_after_three_successes :
  state (breaker (snd ((repeat_js 10 (guarded failing_operation);;
                        sleep 60001;;
                        repeat_js 2 (guarded (mret tt))) (initial_world 0))))
    = HALF_OPEN /\
  state (breaker (snd ((repeat_js 10 (guarded failing_operation);;
                        sleep 60001;;
                        repeat_js 3 (guarded (mret tt))) (initial_world 0))))
    = CLOSED.
Proof. vm_compute. split; reflexivity. Qed.

(** A collision on the first generated code is retried with a new one. *)
Example create_retries_after_a_collision :
  fst ((createShortUrlWithoutUser repeating_env "https://example.com" None;;
        createShortUrlWithoutUser repeating_env "https://example.org" None)
         healthy_world) = Resolved "Z5jdHi6B".
Proof. vm_compute. reflexivity. Qed.

(** A create followed by a lookup gives the long URL back. *)
Example create_then_lookup :
  fst (urlCacheService_getShortUrl steady_env "V1StGXR8" world_after_create)
    = Resolved (JUrl (mkUrlData "https://example.com" "V1StGXR8" 0 None None)) /\
  fst (urlCacheService_getShortUrl steady_env "Z5jdHi6B" world_after_create)
    = Resolved JNull.
Proof. vm_compute. split; reflexivity. Qed.


(** * More properties *)

(** ** The circuit breaker, call by call *)

(** One guarded call of a failing operation on a breaker that is not OPEN:
    the failure is counted. *)
Lemma guarded_failure_step (operation : Js unit) w :
  always_fails operation ->
  state (breaker w) <> OPEN ->
  guarded operation w
  = (Resolved tt, set_breaker (onFailure (now w) (breaker w)) w).
Proof.
  intros Hop Hst. unfold guarded, execute, execute_gate. js_unfold.
  destruct w as [t ra rd rc rs md mc ic cb mo ti ad]. setters.
  destruct (state cb) eqn:E; [|congruence|];
    match goal with
    | |- context [operation ?w0] => destruct (Hop w0) as (e & ->)
    end; reflexivity.
Qed.

(** One guarded call on an OPEN breaker before the recovery timeout:
    nothing happens. *)
Lemma guarded_refused_step (operation : Js unit) w :
  state (breaker w) = OPEN ->
  now w - default 0 (lastFailureTime (breaker w)) <= recoveryTimeout (breaker w) ->
  guarded operation w = (Resolved tt, w).
Proof.
  intros Hst Hrec. unfold guarded, execute, execute_gate. js_unfold.
  rewrite Hst.
  assert (H : (recoveryTimeout (breaker w)
               <? now w - default 0 (lastFailureTime (breaker w))) = false)
    by (apply Z.ltb_ge; exact Hrec).
  rewrite H. reflexivity.
Qed.

Lemma repeat_refused (operation : Js unit) n w :
  state (breaker w) = OPEN ->
  now w - default 0 (lastFailureTime (breaker w)) <= recoveryTimeout (breaker w) ->
  repeat_js n (guarded operation) w = (Resolved tt, w).
Proof.
  intros Hst Hrec. induction n as [|n IH]; [reflexivity|].
  simpl. js_unfold. rewrite guarded_refused_step by assumption. exact IH.
Qed.

Lemma repeat_failures (operation : Js unit) n : forall w,
  always_fails operation ->
  state (breaker w) = CLOSED ->
  0 <= failureCount (breaker w) < failureThreshold (breaker w) ->
  0 <= recoveryTimeout (breaker w) ->
  let w' := snd (repeat_js n (guarded operation) w) in
  state (breaker w')
  = (if failureThreshold (breaker w) <=? failureCount (breaker w) + Z.of_nat n
     then OPEN else CLOSED) /\
  failureCount (breaker w')
  = Z.min (failureCount (breaker w) + Z.of_nat n) (failureThreshold (breaker w)) /\
  now w' = now w.
Proof.
  induction n as [|n IH]; intros w Hop Hst Hfc Hrt.
  - simpl. rewrite Z.add_0_r.
    assert (H : (failureThreshold (breaker w) <=? failureCount (breaker w)) = false)
      by (apply Z.leb_gt; lia).
    rewrite H. repeat split; [exact Hst|lia].
  - cbv zeta. simpl repeat_js. js_unfold.
    rewrite guarded_failure_step by (assumption || congruence).
    remember (set_breaker (onFailure (now w) (breaker w)) w) as w1 eqn:Ew1.
    assert (Hw1 : breaker w1 = onFailure (now w) (breaker w) /\ now w1 = now w)
      by (rewrite Ew1; destruct w; split; reflexivity).
    clear Ew1. destruct Hw1 as [Hb1 Hn1].
    destruct (Z.leb_spec (failureThreshold (breaker w)) (failureCount (breaker w) + 1))
      as [Hopen|Hclosed].
    + (* this failure opens the breaker; the remaining calls are refused *)
      assert (Hs1 : state (breaker w1) = OPEN).
      { rewrite Hb1. unfold onFailure. simpl.
        apply Z.leb_le in Hopen. rewrite Hopen. reflexivity. }
      rewrite repeat_refused;
        [|exact Hs1|rewrite Hb1, Hn1; unfold onFailure; simpl; lia].
      cbn [snd]. rewrite Hs1, Hb1, Hn1. unfold onFailure. simpl.
      assert (H : (failureThreshold (breaker w)
                   <=? failureCount (breaker w) + Z.of_nat (S n)) = true)
        by (apply Z.leb_le; lia).
      rewrite H. repeat split; lia.
    + assert (Hs1 : state (breaker w1) = CLOSED).
      { rewrite Hb1. unfold onFailure. simpl.
        apply Z.leb_gt in Hclosed. rewrite Hclosed. exact Hst. }
      destruct (IH w1 Hop Hs1) as (H1 & H2 & H3).
      * rewrite Hb1. unfold onFailure. simpl. lia.
      * rewrite Hb1. unfold onFailure. simpl. exact Hrt.
      * rewrite Hb1 in H1, H2. unfold onFailure in H1, H2. simpl in H1, H2.
        replace (failureCount (breaker w) + Z.of_nat (S n))
          with (failureCount (breaker w) + 1 + Z.of_nat n) by lia.
        rewrite H1, H2, H3, Hn1. repeat split.
Qed.

(** X1: on a breaker that is CLOSED with no failure counted, [n] calls
    made one after the other of an operation that fails at once leave it
    OPEN exactly when [n] reaches [failureThreshold]; the operation is run
    for the first [failureThreshold] calls only (each run is counted in
    [failureCount]), the later ones are refused. *)
Theorem breaker_opens_at_threshold (operation : Js unit) (n : nat) (w : World) :
  always_fails operation ->
  state (breaker w) = CLOSED ->
  failureCount (breaker w) = 0 ->
  1 <= failureThreshold (breaker w) ->
  0 <= recoveryTimeout (breaker w) ->
  (state (breaker (snd (repeat_js n (guarded operation) w))) = OPEN
   <-> failureThreshold (breaker w) <= Z.of_nat n) /\
  failureCount (breaker (snd (repeat_js n (guarded operation) w)))
  = Z.min (Z.of_nat n) (failureThreshold (breaker w)).
Proof.
  intros Hop Hst Hfc Hth Hrt.
  destruct (repeat_failures operation n w Hop Hst) as (H1 & H2 & _); [lia|exact Hrt|].
  rewrite Hfc, Z.add_0_l in H1, H2. rewrite H1, H2. split; [|reflexivity].
  destruct (Z.leb_spec (failureThreshold (breaker w)) (Z.of_nat n)); split; intros H0;
    solve [reflexivity | discriminate | lia | assumption].
Qed.

Lemma breaker_opens_at_threshold_witness :
  (state (breaker (snd (repeat_js 9 (guarded failing_operation) (initial_world 0))))
   = OPEN <-> 10 <= 9) /\
  (state (breaker (snd (repeat_js 12 (guarded failing_operation) (initial_world 0))))
   = OPEN <-> 10 <= 12) /\
  failureCount (breaker (snd (repeat_js 12 (guarded failing_operation)
                                (initial_world 0)))) = 10.
Proof.
  assert (Hop : always_fails failing_operation)
    by (intros w; eexists; reflexivity).
  split; [|split].
  - apply (proj1 (breaker_opens_at_threshold failing_operation 9 (initial_world 0)
                    Hop eq_refl eq_refl ltac:(discriminate) ltac:(discriminate))).
  - apply (proj1 (breaker_opens_at_threshold failing_operation 12 (initial_world 0)
                    Hop eq_refl eq_refl ltac:(discriminate) ltac:(discriminate))).
  - apply (proj2 (breaker_opens_at_threshold failing_operation 12 (initial_world 0)
                    Hop eq_refl eq_refl ltac:(discriminate) ltac:(discriminate))).
Defined.

(** One guarded call of a succeeding operation on a breaker that is not
    OPEN: the success is counted. *)
Lemma guarded_success_step (operation : Js unit) w :
  always_succeeds operation ->
  state (breaker w) <> OPEN ->
  exists w', guarded operation w = (Resolved tt, w') /\
             breaker w' = onSuccess (breaker w).
Proof.
  intros Hop Hst. unfold guarded, execute, execute_gate. js_unfold.
  destruct w as [t ra rd rc rs md mc ic cb mo ti ad]. setters.
  destruct (state cb) eqn:E; [|congruence|];
    match goal with
    | |- context [operation ?w0] => destruct (Hop w0) as ([] & w1 & -> & Hb)
    end; simpl in Hb; (eexists; split; [reflexivity|]); simpl; rewrite Hb; reflexivity.
Qed.

Lemma repeat_successes_closed (operation : Js unit) n : forall w,
  always_succeeds operation ->
  state (breaker w) = CLOSED ->
  state (breaker (snd (repeat_js n (guarded operation) w))) = CLOSED.
Proof.
  induction n as [|n IH]; intros w Hop Hst; [exact Hst|].
  simpl repeat_js. js_unfold.
  destruct (guarded_success_step operation w Hop) as (w1 & -> & Hb1); [congruence|].
  apply IH; [exact Hop|]. rewrite Hb1. unfold onSuccess. rewrite Hst. reflexivity.
Qed.

Lemma repeat_successes (operation : Js unit) n : forall w,
  always_succeeds operation ->
  state (breaker w) = HALF_OPEN ->
  0 <= successCount (breaker w) < minSuccessCount (breaker w) ->
  state (breaker (snd (repeat_js n (guarded operation) w)))
  = (if minSuccessCount (breaker w) <=? successCount (breaker w) + Z.of_nat n
     then CLOSED else HALF_OPEN).
Proof.
  induction n as [|n IH]; intros w Hop Hst Hsc.
  - simpl. rewrite Z.add_0_r.
    assert (H : (minSuccessCount (breaker w) <=? successCount (breaker w)) = false)
      by (apply Z.leb_gt; lia).
    rewrite H. exact Hst.
  - simpl repeat_js. js_unfold.
    destruct (guarded_success_step operation w Hop) as (w1 & -> & Hb1); [congruence|].
    assert (H : (minSuccessCount (breaker w)
                 <=? successCount (breaker w) + Z.of_nat (S n))
                = (minSuccessCount (breaker w)
                   <=? successCount (breaker w) + 1 + Z.of_nat n))
      by (f_equal; lia).
    rewrite H. clear H.
    destruct (Z.leb_spec (minSuccessCount (breaker w)) (successCount (breaker w) + 1))
      as [Hclose|Hstay].
    + (* this success closes the breaker *)
      assert (Hs1 : state (breaker w1) = CLOSED).
      { rewrite Hb1. unfold onSuccess. rewrite Hst. simpl.
        apply Z.leb_le in Hclose. rewrite Hclose. reflexivity. }
      rewrite repeat_successes_closed by assumption.
      assert (H : (minSuccessCount (breaker w)
                   <=? successCount (breaker w) + 1 + Z.of_nat n) = true)
        by (apply Z.leb_le; lia).
      rewrite H. reflexivity.
    + assert (Hs1 : state (breaker w1) = HALF_OPEN).
      { rewrite Hb1. unfold onSuccess. rewrite Hst. simpl.
        apply Z.leb_gt in Hstay. rewrite Hstay. reflexivity. }
      rewrite (IH w1 Hop Hs1).
      * rewrite Hb1. unfold onSuccess. rewrite Hst. reflexivity.
      * rewrite Hb1. unfold onSuccess. rewrite Hst. simpl. lia.
Qed.

(** The probe: one guarded call of a succeeding operation on an OPEN
    breaker whose recovery timeout has elapsed. *)
Lemma guarded_probe_step (operation : Js unit) w :
  always_succeeds operation ->
  state (breaker w) = OPEN ->
  recoveryTimeout (breaker w) < now w - default 0 (lastFailureTime (breaker w)) ->
  exists w', guarded operation w = (Resolved tt, w') /\
             minSuccessCount (breaker w') = minSuccessCount (breaker w) /\
             successCount (breaker w') = 1 /\
             state (breaker w')
             = if minSuccessCount (breaker w) <=? 1 then CLOSED else HALF_OPEN.
Proof.
  intros Hop Hst Hrec. unfold guarded, execute, execute_gate. js_unfold.
  rewrite Hst. apply Z.ltb_lt in Hrec. rewrite Hrec. cbv beta iota.
  match goal with
  | |- context [operation ?w0] => destruct (Hop w0) as ([] & w1 & -> & Hb)
  end.
  eexists. split; [reflexivity|]. setters. rewrite Hb.
  destruct w as [t ra rd rc rs md mc ic cb mo ti ad]. simpl in *.
  unfold onSuccess. simpl. auto.
Qed.

(** X2: once the recovery timeout of an OPEN breaker has elapsed, [n >= 1]
    calls one after the other of an operation that succeeds leave it CLOSED
    exactly when [n] reaches [minSuccessCount], and HALF_OPEN before that. *)
Theorem breaker_closes_after_successes (operation : Js unit) (n : nat) (w : World) :
  always_succeeds operation ->
  state (breaker w) = OPEN ->
  recoveryTimeout (breaker w) < now w - default 0 (lastFailureTime (breaker w)) ->
  1 <= minSuccessCount (breaker w) ->
  state (breaker (snd (repeat_js (S n) (guarded operation) w)))
  = (if minSuccessCount (breaker w) <=? Z.of_nat (S n) then CLOSED else HALF_OPEN).
Proof.
  intros Hop Hst Hrec Hmin.
  simpl repeat_js. js_unfold.
  destruct (guarded_probe_step operation w Hop Hst Hrec) as (w1 & -> & Hm1 & Hsc1 & Hs1).
  cbn [snd].
  destruct (Z.leb_spec (minSuccessCount (breaker w)) 1) as [Hone|Hmore].
  - rewrite repeat_successes_closed by assumption.
    assert (H : (minSuccessCount (breaker w) <=? Z.of_nat (S n)) = true)
      by (apply Z.leb_le; lia).
    rewrite H. reflexivity.
  - rewrite (repeat_successes operation n w1 Hop Hs1) by lia.
    rewrite Hm1, Hsc1.
    replace (1 + Z.of_nat n) with (Z.of_nat (S n)) by lia. reflexivity.
Qed.

Lemma breaker_closes_after_successes_witness :
  state (breaker (snd (repeat_js 2 (guarded (mret tt))
                         (snd ((repeat_js 10 (guarded failing_operation);; sleep 60001)
                                 (initial_world 0))))))
  = HALF_OPEN /\
  state (breaker (snd (repeat_js 3 (guarded (mret tt))
                         (snd ((repeat_js 10 (guarded failing_operation);; sleep 60001)
                                 (initial_world 0))))))
  = CLOSED.
Proof.
  assert (Hop : always_succeeds (mret tt : Js unit))
    by (intros w; exists tt, w; split; reflexivity).
  split.
  - rewrite (breaker_closes_after_successes (mret tt) 1
               (snd ((repeat_js 10 (guarded failing_operation);; sleep 60001)
                       (initial_world 0))) Hop);
      [reflexivity|vm_compute; reflexivity|vm_compute; reflexivity
      |vm_compute; discriminate].
  - rewrite (breaker_closes_after_successes (mret tt) 2
               (snd ((repeat_js 10 (guarded failing_operation);; sleep 60001)
                       (initial_world 0))) Hop);
      [reflexivity|vm_compute; reflexivity|vm_compute; reflexivity
      |vm_compute; discriminate].
Defined.

(** ** The performance monitor *)

Lemma monitor_inv_call m c : monitor_inv m -> monitor_inv (monitor_call m c).
Proof.
  intros (Hh & Hm & Ht & Hl).
  destruct c; unfold monitor_inv, monitor_call, reset; simpl;
    try (repeat split; solve [lia | assumption]).
  repeat split; try assumption.
  rewrite length_app. simpl.
  destruct (Nat.ltb_spec 100 (length (responseTimes m) + 1)) as [Hgt|Hle].
  - destruct (responseTimes m ++ [time]) eqn:E.
    + simpl. lia.
    + simpl. apply (f_equal (@length Z)) in E. rewrite length_app in E. simpl in E. lia.
  - rewrite length_app. simpl. lia.
Qed.

Lemma monitor_inv_calls calls : forall m,
  monitor_inv m -> monitor_inv (fold_left monitor_call calls m).
Proof.
  induction calls as [|c calls IH]; intros m Hm; [exact Hm|].
  simpl. apply IH, monitor_inv_call, Hm.
Qed.

(** X3: whatever calls are made on a monitor since its construction, every
    counted request is a hit or a miss, at most 100 response times are
    kept, and the reported cache hit rate lies between 0 and 100. *)
Theorem cacheHitRate_is_a_percentage (calls : list MonitorCall) :
  let m := fold_left monitor_call calls new_PerformanceMonitor in
  totalRequests m = cacheHits m + cacheMisses m /\
  (length (responseTimes m) <= 100)%nat /\
  (0 <= cacheHitRate (getMetrics m) <= 100)%Q.
Proof.
  intros m.
  assert (Hinv : monitor_inv m).
  { apply monitor_inv_calls. unfold monitor_inv. simpl. repeat split; lia. }
  destruct Hinv as (Hh & Hm & Ht & Hl).
  split; [exact Ht|]. split; [exact Hl|].
  unfold getMetrics. simpl.
  destruct (Z.ltb_spec 0 (totalRequests m)) as [Hpos|Hzero]; [|split; discriminate].
  assert (Hq : (0 < inject_Z (totalRequests m))%Q)
    by (rewrite <- (Zlt_Qlt 0); exact Hpos).
  assert (Hle : (inject_Z (cacheHits m) <= inject_Z (totalRequests m))%Q)
    by (rewrite <- Zle_Qle; lia).
  assert (Hge : (0 <= inject_Z (cacheHits m))%Q)
    by (rewrite <- (Zle_Qle 0); lia).
  split.
  - apply Qmult_le_0_compat; [|discriminate].
    apply Qle_shift_div_l; [exact Hq|]. rewrite Qmult_0_l. exact Hge.
  - apply (Qle_trans _ (1 * 100)%Q); [|compute; discriminate].
    apply Qmult_le_compat_r; [|discriminate].
    apply Qle_shift_div_r; [exact Hq|]. rewrite Qmult_1_l. exact Hle.
Qed.

Lemma tl_skipn {A} (l : list A) k : tl (skipn k l) = skipn (S k) l.
Proof.
  revert l. induction k as [|k IH]; intros [|x l]; simpl; try reflexivity.
  apply IH.
Qed.

(** X4: the monitor keeps the most recent 100 response times: after the
    times [ts] have been recorded on a new monitor, in that order, its
    window is [ts] without its first [length ts - 100] entries. *)
Theorem responseTimes_keeps_last_100 (ts : list Z) :
  responseTimes (fold_left (fun m t => recordResponseTime t m) ts new_PerformanceMonitor)
  = skipn (length ts - 100) ts.
Proof.
  induction ts as [|t ts IH] using rev_ind; [reflexivity|].
  rewrite fold_left_app. simpl. rewrite IH.
  rewrite !length_app, length_skipn. simpl.
  destruct (Nat.ltb_spec 100 (length ts - (length ts - 100) + 1)) as [Hgt|Hle].
  - replace (skipn (length ts - 100) ts ++ [t])
      with (skipn (length ts - 100) (ts ++ [t]))
      by (rewrite skipn_app;
          replace (length ts - 100 - length ts)%nat with 0%nat by lia; reflexivity).
    rewrite tl_skipn. f_equal. lia.
  - replace (length ts + 1 - 100)%nat with 0%nat by lia.
    replace (length ts - 100)%nat with 0%nat by lia. reflexivity.
Qed.

(** ** The cache wrappers of redis.config.js *)



(** X6: [clearUrlCache] always resolves and touches nothing but Redis; when
    Redis is available and answers, the entry of the code is gone and no
    other key is affected. *)
Theorem clearUrlCache_removes_the_entry (env : Env) (code : string) (w : World) :
  exists w',
    clearUrlCache env code w = (Resolved tt, w') /\
    only_redis w w' /\
    (forall lat, redisAvailable w = true ->
                 redisOutcome env (redisCalls w) = RReply lat ->
                 redisData w' = delete ("url:" +:+ code) (redisData w)).
Proof.
  unfold clearUrlCache, cacheService_del, redis_del, CACHE_KEYS_SHORT_URL.
  js_unfold. simpl.
  destruct (redisAvailable w) eqn:Hav; simpl.
  - match goal with
    | |- context [redis_command env ?run w] =>
        pose proof (redis_command_only_redis env run w) as Hfr;
        unfold redis_command in *
    end.
    destruct (redisOutcome env (redisCalls w)) as [lat|lat e] eqn:Ho; simpl in *.
    + eexists. split; [reflexivity|]. split; [eapply Hfr; reflexivity|].
      intros lat' _ _. reflexivity.
    + eexists. split; [reflexivity|]. split; [eapply Hfr; reflexivity|].
      intros lat' _ [=].
  - eexists. split; [reflexivity|]. split; [apply only_redis_refl|].
    intros lat [=].
Qed.

(** X7: [incr] on a counter that exists returns the next number with one
    command, and leaves the expiry of the key as it was. *)
Theorem incr_counts (env : Env) (key : string) (ttlSeconds n : Z) (ex : option Z)
        (lat : nat) (w : World) :
  redisAvailable w = true ->
  redis_lookup (now w) (redisData w) key = Some (JNum n, ex) ->
  n <> 0 ->
  redisOutcome env (redisCalls w) = RReply lat ->
  exists w',
    cacheService_incr env key ttlSeconds w = (Resolved (n + 1), w') /\
    redisData w' = <[key := (JNum (n + 1), ex)]> (redisData w) /\
    redisCalls w' = S (redisCalls w).
Proof.
  intros Hav Hl Hn Ho.
  unfold cacheService_incr, redis_incr, redis_command. js_unfold.
  rewrite Hav. simpl. rewrite Ho, Hl. simpl.
  destruct (Z.eqb_spec (n + 1) 1) as [E|_]; [lia|].
  eexists. split; [reflexivity|]. split; reflexivity.
Qed.

Lemma incr_counts_witness :
  exists w',
    cacheService_incr steady_env "clicks:V1StGXR8:2024-05-17" 86400
      (snd (cacheService_incr steady_env "clicks:V1StGXR8:2024-05-17" 86400 healthy_world))
    = (Resolved (1 + 1), w') /\
    redisData w'
    = <["clicks:V1StGXR8:2024-05-17" := (JNum (1 + 1), Some 86400001)]>
        (redisData (snd (cacheService_incr steady_env "clicks:V1StGXR8:2024-05-17" 86400
                           healthy_world))) /\
    redisCalls w'
    = S (redisCalls (snd (cacheService_incr steady_env "clicks:V1StGXR8:2024-05-17" 86400
                            healthy_world))).
Proof.
  apply (incr_counts steady_env "clicks:V1StGXR8:2024-05-17" 86400 1 (Some 86400001) 1).
  - reflexivity.
  - vm_compute. reflexivity.
  - discriminate.
  - reflexivity.
Defined.

(** X8: [incr] on a key that does not exist creates the counter at 1 and
    then sets its expiry with a second command.  When that second command
    is rejected the call reports 0, although the counter now exists, and
    the key is left without an expiry. *)
Theorem incr_creates_the_counter (env : Env) (key : string) (ttlSeconds : Z)
        (lat1 : nat) (w : World) :
  redisAvailable w = true ->
  redis_lookup (now w) (redisData w) key = None ->
  redisOutcome env (redisCalls w) = RReply lat1 ->
  exists r w',
    cacheService_incr env key ttlSeconds w = (Resolved r, w') /\
    redisCalls w' = S (S (redisCalls w)) /\
    match redisOutcome env (S (redisCalls w)) with
    | RReply _ =>
        r = 1 /\
        redisData w' !! key
        = Some (JNum 1, Some (now w + Z.of_nat lat1 + ttlSeconds * 1000))
    | RReject _ _ =>
        r = 0 /\ redisData w' !! key = Some (JNum 1, None)
    end.
Proof.
  intros Hav Hl Ho.
  unfold cacheService_incr, redis_incr, redis_expire, redis_command. js_unfold.
  rewrite Hav. simpl. rewrite Ho, Hl. simpl.
  destruct (redisOutcome env (S (redisCalls w))) as [lat2|lat2 e]; simpl.
  - unfold redis_lookup. rewrite lookup_insert_eq. simpl.
    eexists _, _. split; [reflexivity|]. split; [reflexivity|].
    split; [reflexivity|]. apply lookup_insert_eq.
  - eexists _, _. split; [reflexivity|]. split; [reflexivity|].
    split; [reflexivity|]. apply lookup_insert_eq.
Qed.

Lemma incr_creates_the_counter_witness :
  exists r w',
    cacheService_incr steady_env "clicks:V1StGXR8:2024-05-17" 86400 healthy_world
      = (Resolved r, w') /\
    redisCalls w' = 2%nat /\
    r = 1 /\
    redisData w' !! "clicks:V1StGXR8:2024-05-17" = Some (JNum 1, Some 86400001).
Proof.
  destruct (incr_creates_the_counter steady_env "clicks:V1StGXR8:2024-05-17" 86400 1
              healthy_world eq_refl eq_refl eq_refl) as (r & w' & H1 & H2 & H3).
  exists r, w'. split; [exact H1|]. split; [exact H2|]. exact H3.
Defined.

(** ** The DAO *)

(** A decimal numeral has no letter [t] in it. *)
Lemma pretty_N_go_no_t x : forall s,
  Forall (fun c => code_unit c <> 116%nat) (list_ascii_of_string s) ->
  Forall (fun c => code_unit c <> 116%nat) (list_ascii_of_string (pretty_N_go x s)).
Proof.
  induction (N.lt_wf_0 x) as [x _ IH]. intros s Hs.
  assert (x = 0 \/ 0 < x)%N as [->|Hpos] by lia.
  - rewrite pretty_N_go_0. exact Hs.
  - rewrite pretty_N_go_step by exact Hpos.
    apply IH; [apply N.div_lt; lia|].
    simpl. constructor; [|exact Hs].
    unfold pretty_N_char. repeat case_match; compute; discriminate.
Qed.

Lemma pretty_Z_no_t (z : Z) :
  Forall (fun c => code_unit c <> 116%nat) (list_ascii_of_string (pretty z)).
Proof.
  assert (HN : forall n : N,
             Forall (fun c => code_unit c <> 116%nat) (list_ascii_of_string (pretty n))).
  { intros n. unfold pretty, pretty_N. case_decide.
    - simpl. repeat constructor. compute. discriminate.
    - apply pretty_N_go_no_t. constructor. }
  destruct z as [|p|p]; unfold pretty, pretty_Z.
  - simpl. repeat constructor. compute. discriminate.
  - apply HN.
  - simpl. constructor; [compute; discriminate|]. apply HN.
Qed.

Lemma includes_timeout_skip c s :
  code_unit c <> 116%nat ->
  includes (String c s) "timeout" = includes s "timeout".
Proof.
  intros Hc. cbn [includes String.prefix].
  destruct (Ascii.ascii_dec _ c) as [E|_]; [subst c; exfalso; apply Hc; reflexivity|].
  reflexivity.
Qed.

Lemma includes_timeout_skip_t c s :
  code_unit c <> 105%nat ->
  includes (String (Ascii.ascii_of_nat 116) (String c s)) "timeout"
  = includes (String c s) "timeout".
Proof.
  intros Hc.
  change (includes (String (Ascii.ascii_of_nat 116) (String c s)) "timeout")
    with (if String.prefix "timeout" (String (Ascii.ascii_of_nat 116) (String c s))
          then true else includes (String c s) "timeout").
  cbn [String.prefix].
  destruct (Ascii.ascii_dec _ _) as [_|]; [|reflexivity].
  destruct (Ascii.ascii_dec _ c) as [E|_]; [subst c; exfalso; apply Hc; reflexivity|].
  reflexivity.
Qed.

Lemma includes_timeout_no_t s :
  Forall (fun c => code_unit c <> 116%nat) (list_ascii_of_string s) ->
  includes s "timeout" = false.
Proof.
  induction s as [|c s IH]; intros Hs; [reflexivity|].
  simpl in Hs. inversion Hs as [|? ? Hc Hs']; subst.
  rewrite includes_timeout_skip by exact Hc. apply IH, Hs'.
Qed.

(** The error of [checkConnectionHealth] is rethrown by the DAO as a
    connection error. *)
Lemma dao_rethrow_not_connected {A} duplicates (st : Z) (w : World) :
  dao_rethrow (A:=A) duplicates
    (Error ("Database not connected. State: " +:+ pretty st)) w
  = (Rejected (Error "Database connection error - please try again"), w).
Proof.
  unfold dao_rethrow, Error. cbn [code message].
  match goal with
  | |- context [@bool_decide ?P ?d] =>
      assert (Hc : @bool_decide P d = false) by reflexivity
  end.
  rewrite Hc, andb_false_r.
  assert (Ht : includes ("Database not connected. State: " +:+ pretty st) "timeout"
               = false).
  { cbv beta iota fix delta [String.append].
    repeat first
      [ rewrite includes_timeout_skip by (compute; discriminate)
      | rewrite includes_timeout_skip_t by (compute; discriminate) ].
    apply includes_timeout_no_t, pretty_Z_no_t. }
  rewrite Ht. reflexivity.
Qed.

Lemma saveShortUrl_not_connected env code url userId w :
  readyState w <> 1 ->
  saveShortUrl env code url userId w
  = (Rejected (Error "Database connection error - please try again"), w).
Proof.
  intros Hrs. apply Z.eqb_neq in Hrs.
  unfold saveShortUrl, checkConnectionHealth.
  unfold mbind, Js_bind, try_catch, reads, throw. rewrite Hrs. cbn [negb].
  apply dao_rethrow_not_connected.
Qed.

Lemma getShortUrlFromDB_not_connected env code w :
  readyState w <> 1 ->
  getShortUrlFromDB env code w
  = (Rejected (Error "Database connection error - please try again"), w).
Proof.
  intros Hrs. apply Z.eqb_neq in Hrs.
  unfold getShortUrlFromDB, checkConnectionHealth.
  unfold mbind, Js_bind, try_catch, reads, throw. rewrite Hrs. cbn [negb].
  apply dao_rethrow_not_connected.
Qed.

(** X9: while mongoose is not connected, [saveShortUrl] and [getShortUrl]
    reject with the connection error at once: no command is sent and
    nothing changes. *)
Theorem dao_refuses_when_not_connected (env : Env) (code url : string)
        (userId : option string) (w : World) :
  readyState w <> 1 ->
  saveShortUrl env code url userId w
  = (Rejected (Error "Database connection error - please try again"), w) /\
  getShortUrlFromDB env code w
  = (Rejected (Error "Database connection error - please try again"), w).
Proof.
  intros Hrs. split.
  - apply saveShortUrl_not_connected, Hrs.
  - apply getShortUrlFromDB_not_connected, Hrs.
Qed.

Lemma dao_refuses_when_not_connected_witness :
  saveShortUrl steady_env "V1StGXR8" "https://example.com" None (initial_world 0)
  = (Rejected (Error "Database connection error - please try again"), initial_world 0) /\
  getShortUrlFromDB steady_env "V1StGXR8" (initial_world 0)
  = (Rejected (Error "Database connection error - please try again"), initial_world 0).
Proof.
  apply dao_refuses_when_not_connected. simpl. discriminate.
Defined.

(** What [saveShortUrl] does to the collection, by outcome. *)
Lemma saveShortUrl_effect env code url userId w :
  exists r w',
    saveShortUrl env code url userId w = (r, w') /\
    r <> Pending /\
    only_mongo w w' /\
    (mongoCalls w <= mongoCalls w' <= S (mongoCalls w))%nat /\
    (mongoDocs w' = mongoDocs w \/
     (mongoDocs w !! code = None /\
      mongoDocs w' = <[code := mkUrlData url code 0 userId (Some (now w))]>
                       (mongoDocs w))) /\
    (forall doc, r = Resolved doc ->
       readyState w = 1 /\
       mongoDocs w !! code = None /\
       doc = mkUrlData url code 0 userId (Some (now w)) /\
       mongoDocs w' = <[code := doc]> (mongoDocs w) /\
       now w <= now w' < now w + 5000) /\
    (mongoDocs w !! code <> None ->
     mongoDocs w' = mongoDocs w /\ exists e, r = Rejected e).
Proof.
  unfold saveShortUrl, checkConnectionHealth, race, urlSchema_create,
         mongo_command, dao_rethrow, only_mongo.
  js_unfold. destruct w as [t ra rd rc rs md mc ic cb mo ti ad]. setters.
  destruct (rs =? 1) eqn:Hrs; simpl.
  2: { destruct (includes _ "timeout");
       (eexists _, _; split; [reflexivity|]; simpl);
       (split; [discriminate|]); (split; [reflexivity|]); (split; [lia|]);
       (split; [left; reflexivity|]); (split; [discriminate|]);
       (intros _; split; [reflexivity|eauto]). }
  apply Z.eqb_eq in Hrs. subst rs.
  destruct (mongoOutcome env mc) as [lat|lat e|] eqn:Ho; simpl.
  - destruct (md !! code) as [d|] eqn:Hd; simpl;
      destruct (t + Z.of_nat lat - t <? 5000) eqn:Hlat; simpl;
      (eexists _, _; split; [reflexivity|]; simpl);
      (split; [discriminate|]); (split; [reflexivity|]); (split; [lia|]).
    + split; [left; reflexivity|]. split; [discriminate|].
      intros _. split; [reflexivity|eauto].
    + split; [left; reflexivity|]. split; [discriminate|].
      intros _. split; [reflexivity|eauto].
    + split; [right; split; reflexivity|].
      split; [|intros H; congruence].
      intros doc [= <-]. apply Z.ltb_lt in Hlat. repeat split; lia.
    + split; [right; split; reflexivity|].
      split; [discriminate|intros H; congruence].
  - destruct (t + Z.of_nat lat - t <? 5000) eqn:Hlat; simpl;
      repeat match goal with
             | |- context [if ?c then _ else _] => destruct c; simpl
             end;
      (eexists _, _; split; [reflexivity|]; simpl);
      (split; [discriminate|]); (split; [reflexivity|]); (split; [lia|]);
      (split; [left; reflexivity|]); (split; [discriminate|]);
      (intros _; split; [reflexivity|eauto]).
  - eexists _, _; split; [reflexivity|]. simpl.
    split; [discriminate|]. split; [reflexivity|]. split; [lia|].
    split; [left; reflexivity|]. split; [discriminate|].
    intros _; split; [reflexivity|eauto].
Qed.

(** X10: [saveShortUrl] only ever inserts.  No document of the collection
    is changed or removed, whatever the outcome; when it resolves, the
    code was free and now maps to the new document, with no clicks; when
    the code is taken it rejects and the collection is as before. *)
Theorem saveShortUrl_only_inserts (env : Env) (code url : string)
        (userId : option string) (w : World) :
  exists r w',
    saveShortUrl env code url userId w = (r, w') /\
    r <> Pending /\
    (forall c d, mongoDocs w !! c = Some d -> mongoDocs w' !! c = Some d) /\
    (forall doc, r = Resolved doc ->
       mongoDocs w !! code = None /\
       full_url doc = url /\ short_url doc = code /\ clicks doc = 0 /\
       mongoDocs w' !! code = Some doc) /\
    (mongoDocs w !! code <> None ->
     mongoDocs w' = mongoDocs w /\ exists e, r = Rejected e).
Proof.
  destruct (saveShortUrl_effect env code url userId w)
    as (r & w' & Heq & Hnp & _ & _ & Hdocs & Hres & Hdup).
  exists r, w'. split; [exact Heq|]. split; [exact Hnp|].
  split; [|split; [|exact Hdup]].
  - intros c d Hc. destruct Hdocs as [->|[Hfree ->]]; [exact Hc|].
    destruct (decide (c = code)) as [->|Hne]; [congruence|].
    rewrite lookup_insert_ne by congruence. exact Hc.
  - intros doc Hdoc. destruct (Hres doc Hdoc) as (_ & Hfree & -> & -> & _).
    split; [exact Hfree|]. repeat (split; [reflexivity|]). apply lookup_insert_eq.
Qed.

(** X11: a command that MongoDB does not answer in time is reported by the
    DAO as a timeout, after 5000 ms for an insert and 1500 ms for a
    lookup. *)
Theorem dao_reports_timeouts (env : Env) (code url : string)
        (userId : option string) (w : World) :
  readyState w = 1 ->
  (unanswered_for env (mongoCalls w) 5000 ->
   exists w',
     saveShortUrl env code url userId w
     = (Rejected (Error "Database operation timeout - please try again"), w') /\
     now w' = now w + 5000 /\ mongoCalls w' = S (mongoCalls w)) /\
  (unanswered_for env (mongoCalls w) 1500 ->
   exists w',
     getShortUrlFromDB env code w
     = (Rejected (Error "Database operation timeout - please try again"), w') /\
     now w' = now w + 1500 /\ mongoCalls w' = S (mongoCalls w)).
Proof.
  intros Hrs.
  unfold saveShortUrl, getShortUrlFromDB, checkConnectionHealth, race,
         urlSchema_create, urlSchema_findOneAndUpdate, mongo_command, dao_rethrow,
         unanswered_for.
  js_unfold. destruct w as [t ra rd rc rs md mc ic cb mo ti ad]. setters.
  subst rs. simpl.
  split; intros Hslow.
  - destruct (mongoOutcome env mc) as [lat|lat e|] eqn:Ho; simpl.
    + assert (Hlat : (t + Z.of_nat lat - t <? 5000) = false) by (apply Z.ltb_ge; lia).
      destruct (md !! code) as [d|]; simpl; rewrite Hlat; simpl;
        (eexists; split; [reflexivity|]; split; reflexivity).
    + assert (Hlat : (t + Z.of_nat lat - t <? 5000) = false) by (apply Z.ltb_ge; lia).
      rewrite Hlat. simpl. eexists; split; [reflexivity|]; split; reflexivity.
    + eexists; split; [reflexivity|]; split; reflexivity.
  - destruct (mongoOutcome env mc) as [lat|lat e|] eqn:Ho; simpl.
    + assert (Hlat : (t + Z.of_nat lat - t <? 1500) = false) by (apply Z.ltb_ge; lia).
      destruct (md !! code) as [d|]; simpl; rewrite Hlat; simpl;
        (eexists; split; [reflexivity|]; split; reflexivity).
    + assert (Hlat : (t + Z.of_nat lat - t <? 1500) = false) by (apply Z.ltb_ge; lia).
      rewrite Hlat. simpl. eexists; split; [reflexivity|]; split; reflexivity.
    + eexists; split; [reflexivity|]; split; reflexivity.
Qed.

Lemma dao_reports_timeouts_witness :
  (exists w',
     saveShortUrl hanging_store_env "V1StGXR8" "https://example.com" None healthy_world
     = (Rejected (Error "Database operation timeout - please try again"), w') /\
     now w' = 5000 /\ mongoCalls w' = 1%nat) /\
  (exists w',
     getShortUrlFromDB hanging_store_env "V1StGXR8" healthy_world
     = (Rejected (Error "Database operation timeout - please try again"), w') /\
     now w' = 1500 /\ mongoCalls w' = 1%nat).
Proof.
  destruct (dao_reports_timeouts hanging_store_env "V1StGXR8" "https://example.com"
              None healthy_world eq_refl) as (Hs & Hg).
  split; [apply Hs|apply Hg]; exact I.
Defined.

(** X12: a mapping that [saveShortUrl] has stored is found by the first
    lookup that MongoDB answers in time, with the URL it was saved with
    and that one click counted on it. *)
Theorem save_then_lookup (env : Env) (code url : string) (userId : option string)
        (doc : UrlData) (lat : nat) (w w1 : World) :
  saveShortUrl env code url userId w = (Resolved doc, w1) ->
  mongoOutcome env (mongoCalls w1) = MReply lat ->
  Z.of_nat lat < 1500 ->
  exists d w2,
    getShortUrlFromDB env code w1 = (Resolved (JUrl d), w2) /\
    full_url d = url /\ short_url d = code /\ clicks d = 1 /\
    mongoDocs w2 !! code = Some d.
Proof.
  intros Hsave Ho Hlat.
  destruct (saveShortUrl_effect env code url userId w)
    as (r & w' & Heq & _ & Hfr & _ & _ & Hres & _).
  rewrite Hsave in Heq. injection Heq as <- <-.
  destruct (Hres doc eq_refl) as (Hrs & _ & -> & Hdocs & _).
  destruct (only_mongo_fields _ _ Hfr) as (_ & _ & _ & Hrs1 & _).
  rewrite Hrs in Hrs1.
  unfold getShortUrlFromDB, checkConnectionHealth, race, urlSchema_findOneAndUpdate,
         mongo_command.
  js_unfold. rewrite Hrs1. simpl. rewrite Ho. simpl.
  rewrite Hdocs, lookup_insert_eq. simpl.
  replace (now w1 + Z.of_nat lat - now w1) with (Z.of_nat lat) by lia.
  apply Z.ltb_lt in Hlat. rewrite Hlat.
  eexists _, _. split; [reflexivity|]. simpl.
  repeat (split; [reflexivity|]). apply lookup_insert_eq.
Qed.

Lemma save_then_lookup_witness :
  exists d w2,
    getShortUrlFromDB steady_env "V1StGXR8"
      (snd (saveShortUrl steady_env "V1StGXR8" "https://example.com" None healthy_world))
    = (Resolved (JUrl d), w2) /\
    full_url d = "https://example.com" /\ short_url d = "V1StGXR8" /\ clicks d = 1 /\
    mongoDocs w2 !! "V1StGXR8" = Some d.
Proof.
  apply (save_then_lookup steady_env "V1StGXR8" "https://example.com" None
           (mkUrlData "https://example.com" "V1StGXR8" 0 None (Some 0)) 5 healthy_world).
  - vm_compute. reflexivity.
  - reflexivity.
  - reflexivity.
Defined.

(** ** The write path *)

(** An insert of a free code that MongoDB answers in time. *)
Lemma saveShortUrl_succeeds env code url userId lat w :
  readyState w = 1 ->
  mongoDocs w !! code = None ->
  mongoOutcome env (mongoCalls w) = MReply lat ->
  Z.of_nat lat < 5000 ->
  saveShortUrl env code url userId w
  = (Resolved (mkUrlData url code 0 userId (Some (now w))),
     set_mongoDocs (<[code := mkUrlData url code 0 userId (Some (now w))]> (mongoDocs w))
       (set_now (now w + Z.of_nat lat) (set_mongoCalls (S (mongoCalls w)) w))).
Proof.
  intros Hrs Hfree Ho Hlat.
  unfold saveShortUrl, checkConnectionHealth, race, urlSchema_create, mongo_command.
  js_unfold. rewrite Hrs. simpl. rewrite Ho, Hfree. simpl.
  replace (now w + Z.of_nat lat - now w) with (Z.of_nat lat) by lia.
  apply Z.ltb_lt in Hlat. rewrite Hlat. reflexivity.
Qed.

(** An insert of a taken code that MongoDB answers in time. *)
Lemma saveShortUrl_duplicate env code url userId lat w :
  readyState w = 1 ->
  mongoDocs w !! code <> None ->
  mongoOutcome env (mongoCalls w) = MReply lat ->
  Z.of_nat lat < 5000 ->
  saveShortUrl env code url userId w
  = (Rejected (Error "Short URL already exists"),
     set_now (now w + Z.of_nat lat) (set_mongoCalls (S (mongoCalls w)) w)).
Proof.
  intros Hrs Htaken Ho Hlat.
  unfold saveShortUrl, checkConnectionHealth, race, urlSchema_create, mongo_command,
         dao_rethrow.
  js_unfold. rewrite Hrs. simpl. rewrite Ho.
  destruct (mongoDocs w !! code) as [d|]; [|congruence]. simpl.
  replace (now w + Z.of_nat lat - now w) with (Z.of_nat lat) by lia.
  apply Z.ltb_lt in Hlat. rewrite Hlat. reflexivity.
Qed.

Lemma insert_timer_In e l : In e (insert_timer e l).
Proof.
  induction l as [|x l IH]; simpl; [left; reflexivity|].
  destruct (fst e <? fst x); simpl; auto.
Qed.

(** X13: with a custom code the service never degrades: it touches MongoDB
    only (no cache entry, no background timer).  When it resolves, the code
    was free and is now stored with the URL; when the code is taken the
    collection is left as it was and the call rejects, with the "already
    exists" message if MongoDB answers within the 2500 ms it waits. *)
Theorem custom_code_is_stored_or_refused (env : Env) (url custom : string) (w : World) :
  custom <> "" ->
  exists r w',
    createShortUrlWithoutUser env url (Some custom) w = (r, w') /\
    r <> Pending /\
    only_mongo w w' /\
    (forall c, r = Resolved c ->
       c = custom /\ mongoDocs w !! custom = None /\
       exists doc, mongoDocs w' !! custom = Some doc /\
                   full_url doc = url /\ clicks doc = 0) /\
    (mongoDocs w !! custom <> None ->
     mongoDocs w' = mongoDocs w /\
     exists e, r = Rejected e /\
       forall lat, readyState w = 1 ->
                   mongoOutcome env (mongoCalls w) = MReply lat ->
                   Z.of_nat lat < 2500 ->
                   e = Error "Custom short URL already exists - please choose a different one").
Proof.
  intros Hne. unfold createShortUrlWithoutUser.
  assert (Hb : negb (custom =? "")%string = true)
    by (apply negb_true_iff, String.eqb_neq; exact Hne).
  rewrite Hb. js_unfold.
  destruct (saveShortUrl_effect env custom url None w)
    as (r & w1 & Heq & Hnp & Hfr & _ & Hdocs & Hres & Hdup).
  destruct (race_cases (saveShortUrl env custom url None) 2500 "Save quick-timeout" w)
    as [[Hrace _]|Hrace]; rewrite Hrace, Heq; simpl.
  - destruct r as [doc|e|]; [| |congruence].
    + eexists _, _. split; [reflexivity|]. split; [discriminate|].
      split; [exact Hfr|]. split.
      * intros c [= <-]. destruct (Hres doc eq_refl) as (_ & Hfree & -> & -> & _).
        split; [reflexivity|]. split; [exact Hfree|].
        eexists. split; [apply lookup_insert_eq|]. split; reflexivity.
      * intros Htaken. destruct (Hdup Htaken) as (_ & e & [=]).
    + destruct (message e =? "Short URL already exists")%string eqn:Hm;
        (eexists _, _; split; [reflexivity|]; split; [discriminate|];
         split; [exact Hfr|]; split; [discriminate|]).
      * intros Htaken. destruct (Hdup Htaken) as (Hsame & _).
        split; [exact Hsame|]. eexists. split; [reflexivity|]. reflexivity.
      * intros Htaken. destruct (Hdup Htaken) as (Hsame & _).
        split; [exact Hsame|]. eexists. split; [reflexivity|].
        intros lat Hrs Ho Hlat.
        rewrite (saveShortUrl_duplicate env custom url None lat w Hrs Htaken Ho) in Heq
          by lia.
        injection Heq as <- _. discriminate.
  - eexists _, _. split; [reflexivity|]. split; [discriminate|].
    split; [apply only_mongo_set_now; exact Hfr|]. split; [discriminate|].
    intros Htaken. destruct (Hdup Htaken) as (Hsame & _).
    split; [exact Hsame|]. eexists. split; [reflexivity|].
    intros lat Hrs Ho Hlat. exfalso.
    rewrite (saveShortUrl_duplicate env custom url None lat w Hrs Htaken Ho) in Heq
      by lia.
    injection Heq as <- <-.
    unfold race in Hrace.
    rewrite (saveShortUrl_duplicate env custom url None lat w Hrs Htaken Ho) in Hrace
      by lia.
    simpl in Hrace.
    replace (now w + Z.of_nat lat - now w) with (Z.of_nat lat) in Hrace by lia.
    apply Z.ltb_lt in Hlat. rewrite Hlat in Hrace. discriminate.
Qed.

Lemma custom_code_is_stored_or_refused_witness :
  exists r w',
    createShortUrlWithoutUser steady_env "https://example.org" (Some "V1StGXR8")
      world_with_cold_cache = (r, w') /\
    r = Rejected (Error "Custom short URL already exists - please choose a different one") /\
    mongoDocs w' = mongoDocs world_with_cold_cache.
Proof.
  destruct (custom_code_is_stored_or_refused steady_env "https://example.org" "V1StGXR8"
              world_with_cold_cache ltac:(discriminate))
    as (r & w' & Heq & _ & _ & _ & Hdup).
  exists r, w'. split; [exact Heq|].
  destruct Hdup as (Hsame & e & -> & He); [vm_compute; discriminate|].
  split; [|exact Hsame].
  f_equal. apply (He 5%nat); [reflexivity|reflexivity|reflexivity].
Defined.
(** What the degradation leaves: the code, with its background persistence
    among the timers; MongoDB and the generator are not touched. *)
Lemma degrade_schedules env code url w :
  exists w',
    degrade env code url w = (Resolved code, w') /\
    idCalls w' = idCalls w /\ mongoCalls w' = mongoCalls w /\
    mongoDocs w' = mongoDocs w /\
    In (RetrySave code url 0) (map snd (timers w')).
Proof.
  destruct (degrade_cases env code url w) as (w1 & w' & Heq & Hfr & -> & _).
  exists (set_timers (insert_timer (now w1 + 100, RetrySave code url 0) (timers w1)) w1).
  split; [exact Heq|].
  apply only_redis_cache, only_cache_fields in Hfr.
  destruct Hfr as (_ & _ & Hdocs & Hcalls & Hid & _).
  simpl. split; [exact Hid|]. split; [exact Hcalls|]. split; [exact Hdocs|].
  apply (in_map snd _ (now w1 + 100, RetrySave code url 0)), insert_timer_In.
Qed.

Lemma create_attempts_result env url n : forall w,
  (forall k, nanoid env k 8 <> "") ->
  exists code w',
    create_attempts env (S n) url w = (Resolved code, w') /\
    code <> "" /\
    (idCalls w < idCalls w' <= idCalls w + S n)%nat /\
    (mongoCalls w <= mongoCalls w' <= mongoCalls w + S n)%nat /\
    code = nanoid env (pred (idCalls w')) 8 /\
    ((exists doc, mongoDocs w' !! code = Some doc /\ full_url doc = url /\
                  clicks doc = 0 /\ timers w' = timers w) \/
     In (RetrySave code url 0) (map snd (timers w'))).
Proof.
  induction n as [|n IH]; intros w Hid.
  - rewrite create_attempts_S. unfold generateNanoId. js_unfold.
    assert (Hb : (nanoid env (idCalls w) 8 =? "")%string = false)
      by (apply String.eqb_neq, Hid).
    rewrite Hb.
    set (code := nanoid env (idCalls w) 8) in *.
    set (w0 := set_idCalls (S (idCalls w)) w).
    destruct (saveShortUrl_effect env code url None w0)
      as (r & w1 & Heq & Hnp & Hfr & Hcalls & _ & Hres & _).
    destruct (only_mongo_fields _ _ Hfr) as (_ & _ & _ & _ & Hid1 & _ & _ & Hti1 & _).
    assert (Hdeg : forall e wx,
               idCalls wx = idCalls w0 -> mongoCalls wx = mongoCalls w1 ->
               exists code' w',
                 (if (message e =? "Short URL already exists")%string
                     && (maxCollisions - Z.of_nat 0 <? maxCollisions)
                  then sleep (2 ^ (maxCollisions - Z.of_nat 0) * 10);;
                       create_attempts env 0 url
                  else degrade env code url) wx = (Resolved code', w') /\
                 code' <> "" /\
                 (idCalls w < idCalls w' <= idCalls w + 1)%nat /\
                 (mongoCalls w <= mongoCalls w' <= mongoCalls w + 1)%nat /\
                 code' = nanoid env (pred (idCalls w')) 8 /\
                 ((exists doc, mongoDocs w' !! code' = Some doc /\ full_url doc = url /\
                               clicks doc = 0 /\ timers w' = timers w) \/
                  In (RetrySave code' url 0) (map snd (timers w')))).
    { intros e wx Hix Hmx.
      rewrite andb_false_r.
      destruct (degrade_schedules env code url wx) as (w' & Hd & Hi & Hm & _ & Hin).
      exists code, w'. split; [exact Hd|]. split; [apply Hid|].
      rewrite Hi, Hix, Hm, Hmx. subst w0. simpl in *.
      split; [lia|]. split; [lia|]. split; [reflexivity|]. right. exact Hin. }
    destruct (race_cases (saveShortUrl env code url None) 2500 "Save quick-timeout" w0)
      as [[Hrace _]|Hrace]; rewrite Hrace, Heq; cbn [fst snd].
    + destruct r as [doc|e|]; [| |congruence].
      * exists code, w1. split; [reflexivity|]. split; [apply Hid|].
        destruct (Hres doc eq_refl) as (_ & _ & -> & Hd & _).
        rewrite Hid1. subst w0. simpl in *.
        split; [lia|]. split; [lia|]. split; [reflexivity|]. left.
        eexists. split; [rewrite Hd; apply lookup_insert_eq|].
        split; [reflexivity|]. split; [reflexivity|exact Hti1].
      * apply Hdeg; [exact Hid1|reflexivity].
    + apply Hdeg; [exact Hid1|reflexivity].
  - rewrite create_attempts_S. unfold generateNanoId. js_unfold.
    assert (Hb : (nanoid env (idCalls w) 8 =? "")%string = false)
      by (apply String.eqb_neq, Hid).
    rewrite Hb.
    set (code := nanoid env (idCalls w) 8) in *.
    set (w0 := set_idCalls (S (idCalls w)) w).
    destruct (saveShortUrl_effect env code url None w0)
      as (r & w1 & Heq & Hnp & Hfr & Hcalls & _ & Hres & _).
    destruct (only_mongo_fields _ _ Hfr) as (_ & _ & _ & _ & Hid1 & _ & _ & Hti1 & _).
    assert (Hdeg : forall e wx,
               idCalls wx = idCalls w0 -> mongoCalls wx = mongoCalls w1 ->
               timers wx = timers w ->
               exists code' w',
                 (if (message e =? "Short URL already exists")%string
                     && (maxCollisions - Z.of_nat (S n) <? maxCollisions)
                  then sleep (2 ^ (maxCollisions - Z.of_nat (S n)) * 10);;
                       create_attempts env (S n) url
                  else degrade env code url) wx = (Resolved code', w') /\
                 code' <> "" /\
                 (idCalls w < idCalls w' <= idCalls w + S (S n))%nat /\
                 (mongoCalls w <= mongoCalls w' <= mongoCalls w + S (S n))%nat /\
                 code' = nanoid env (pred (idCalls w')) 8 /\
                 ((exists doc, mongoDocs w' !! code' = Some doc /\ full_url doc = url /\
                               clicks doc = 0 /\ timers w' = timers w) \/
                  In (RetrySave code' url 0) (map snd (timers w')))).
    { intros e wx Hix Hmx Htx.
      destruct ((message e =? "Short URL already exists")%string
                && (maxCollisions - Z.of_nat (S n) <? maxCollisions)).
      - js_unfold.
        set (wy := set_now (now wx + 2 ^ (maxCollisions - Z.of_nat (S n)) * 10) wx).
        destruct (IH wy Hid) as (code' & w' & Hc & Hne & Hi & Hm & Hcode & Hst).
        exists code', w'. split; [exact Hc|]. split; [exact Hne|].
        assert (Hwy : idCalls wy = idCalls wx /\ mongoCalls wy = mongoCalls wx /\
                      timers wy = timers wx) by (destruct wx; repeat split).
        destruct Hwy as (Hiy & Hmy & Hty).
        rewrite Hiy, Hix in Hi. rewrite Hmy, Hmx in Hm.
        subst w0. simpl in *.
        split; [lia|]. split; [lia|]. split; [exact Hcode|].
        destruct Hst as [(doc & H1 & H2 & H3 & H4)|Hin]; [left|right; exact Hin].
        exists doc. split; [exact H1|]. split; [exact H2|]. split; [exact H3|].
        congruence.
      - destruct (degrade_schedules env code url wx) as (w' & Hd & Hi & Hm & _ & Hin).
        exists code, w'. split; [exact Hd|]. split; [apply Hid|].
        rewrite Hi, Hix, Hm, Hmx. subst w0. simpl in *.
        split; [lia|]. split; [lia|]. split; [reflexivity|]. right. exact Hin. }
    destruct (race_cases (saveShortUrl env code url None) 2500 "Save quick-timeout" w0)
      as [[Hrace _]|Hrace]; rewrite Hrace, Heq; cbn [fst snd].
    + destruct r as [doc|e|]; [| |congruence].
      * exists code, w1. split; [reflexivity|]. split; [apply Hid|].
        destruct (Hres doc eq_refl) as (_ & _ & -> & Hd & _).
        rewrite Hid1. subst w0. simpl in *.
        split; [lia|]. split; [lia|]. split; [reflexivity|]. left.
        eexists. split; [rewrite Hd; apply lookup_insert_eq|].
        split; [reflexivity|]. split; [reflexivity|exact Hti1].
      * apply Hdeg; [exact Hid1|reflexivity|exact Hti1].
    + apply Hdeg; [exact Hid1|reflexivity|exact Hti1].
Qed.

(** X14: without a custom code, and with a generator that yields non-empty
    identifiers, creation always returns a code, after at most six
    identifiers and six inserts.  The code is the last identifier drawn,
    and either it is stored in MongoDB with the URL, or its background
    persistence is among the timers. *)
Theorem generated_code_is_stored_or_scheduled (env : Env) (url : string) (w : World) :
  (forall k, nanoid env k 8 <> "") ->
  exists code w',
    createShortUrlWithoutUser env url None w = (Resolved code, w') /\
    code <> "" /\
    (idCalls w < idCalls w' <= idCalls w + 6)%nat /\
    (mongoCalls w <= mongoCalls w' <= mongoCalls w + 6)%nat /\
    code = nanoid env (pred (idCalls w')) 8 /\
    ((exists doc, mongoDocs w' !! code = Some doc /\ full_url doc = url /\
                  clicks doc = 0 /\ timers w' = timers w) \/
     In (RetrySave code url 0) (map snd (timers w'))).
Proof.
  intros Hid. unfold createShortUrlWithoutUser.
  change (Z.to_nat (maxCollisions + 1)) with 6%nat.
  apply (create_attempts_result env url 5 w Hid).
Qed.

Lemma generated_code_is_stored_or_scheduled_witness :
  exists code w',
    createShortUrlWithoutUser hanging_store_env "https://example.com" None healthy_world
    = (Resolved code, w') /\
    code <> "" /\
    In (RetrySave code "https://example.com" 0) (map snd (timers w')).
Proof.
  assert (Hid : forall k, nanoid hanging_store_env k 8 <> "").
  { intros k. simpl.
    do 8 (destruct k as [|k]; [discriminate|]). destruct k; discriminate. }
  destruct (generated_code_is_stored_or_scheduled hanging_store_env
              "https://example.com" healthy_world Hid)
    as (code & w' & Heq & Hne & _ & _ & _ & Hst).
  exists code, w'. split; [exact Heq|]. split; [exact Hne|].
  destruct Hst as [(doc & Hdoc & _)|Hin]; [|exact Hin].
  exfalso. revert Heq Hdoc. vm_compute. intros [= <- <-]. discriminate.
Defined.

(** ** The background persistence *)

(** X15: when the timer of a degraded creation fires and MongoDB is
    connected, answers in time and the code is still free, the mapping is
    stored and no further timer is set. *)
Theorem background_persistence_stores (env : Env) (code url : string)
        (retryCount due : Z) (rest : list (Z * Timer)) (lat : nat) (w : World) :
  timers w = (due, RetrySave code url retryCount) :: rest ->
  readyState w = 1 ->
  mongoDocs w !! code = None ->
  mongoOutcome env (mongoCalls w) = MReply lat ->
  Z.of_nat lat < 5000 ->
  exists doc w',
    fire_timer env w = (Resolved true, w') /\
    timers w' = rest /\
    mongoDocs w' !! code = Some doc /\
    full_url doc = url /\ short_url doc = code /\ clicks doc = 0.
Proof.
  intros Hti Hrs Hfree Ho Hlat.
  unfold fire_timer. rewrite Hti. unfold retrySave. js_unfold.
  set (w0 := set_now (Z.max (now w) due) (set_timers rest w)).
  rewrite (saveShortUrl_succeeds env code url None lat w0); try assumption.
  eexists _, _. split; [reflexivity|]. simpl.
  split; [reflexivity|]. split; [apply lookup_insert_eq|].
  repeat split.
Qed.

Lemma background_persistence_stores_witness :
  exists doc w',
    fire_timer steady_env
      (set_readyState 1
         (snd (createShortUrlWithoutUser steady_env "https://example.com" None
                 (set_redisAvailable true (initial_world 0)))))
    = (Resolved true, w') /\
    timers w' = [] /\
    mongoDocs w' !! "V1StGXR8" = Some doc /\
    full_url doc = "https://example.com" /\ short_url doc = "V1StGXR8" /\ clicks doc = 0.
Proof.
  apply (background_persistence_stores steady_env "V1StGXR8" "https://example.com"
           0 101 [] 5); reflexivity.
Defined.

(** X16: if mongoose is still not connected when the timer of a degraded
    creation fires, the persistence is tried three times, 2 s and 4 s
    apart, without a command being sent, and is then given up: no timer is
    left and the mapping is not in the collection. *)
Theorem background_persistence_gives_up (env : Env) (code url : string) (due : Z)
        (w : World) :
  timers w = [(due, RetrySave code url 0)] ->
  readyState w <> 1 ->
  run_timers env 3 w
  = (Resolved tt, set_now (Z.max (now w) due + 2000 + 4000) (set_timers [] w)).
Proof.
  intros Hti Hrs.
  assert (Hnc : forall t (ti : list (Z * Timer)),
             saveShortUrl env code url None (set_now t (set_timers ti w))
             = (Rejected (Error "Database connection error - please try again"),
                set_now t (set_timers ti w))).
  { intros t ti. apply saveShortUrl_not_connected. destruct w; exact Hrs. }
  unfold run_timers, fire_timer. js_unfold. rewrite Hti.
  unfold retrySave at 1. js_unfold. rewrite Hnc.
  cbn [message Error]. unfold schedule at 1.
  assert (H1 : (0 + 1 <? 3) && negb (includes "Database connection error - please try again"
                                       "already exists") = true) by reflexivity.
  rewrite H1. cbn [timers set_timers set_now now insert_timer].
  destruct w as [t ra rd rc rs md mc ic cb mo ti ad]. setters.
  unfold retrySave at 1. js_unfold.
  match goal with
  | |- context [saveShortUrl env code url None ?w0] =>
      rewrite (Hnc (now w0) (timers w0) : saveShortUrl env code url None w0 = _)
  end.
  cbn [message Error]. unfold schedule at 1.
  assert (H2 : (0 + 1 + 1 <? 3) && negb (includes "Database connection error - please try again"
                                           "already exists") = true) by reflexivity.
  rewrite H2. simpl.
  unfold retrySave at 1. js_unfold.
  match goal with
  | |- context [saveShortUrl env code url None ?w0] =>
      rewrite (Hnc (now w0) (timers w0) : saveShortUrl env code url None w0 = _)
  end.
  simpl. f_equal. f_equal. lia.
Qed.

Lemma background_persistence_gives_up_witness :
  run_timers hanging_store_env 3
    (snd (createShortUrlWithoutUser hanging_store_env "https://example.com" None
            (initial_world 0)))
  = (Resolved tt,
     set_now (Z.max 0 100 + 2000 + 4000)
       (set_timers []
          (snd (createShortUrlWithoutUser hanging_store_env "https://example.com" None
                  (initial_world 0))))).
Proof.
  apply (background_persistence_gives_up hanging_store_env "V1StGXR8"
           "https://example.com" 100).
  - reflexivity.
  - simpl. discriminate.
Defined.

(** ** The read path *)

(** What [cacheService.get] answers with: [null], or the value the key holds
    when the call is made. *)
Lemma cacheService_get_value env key w :
  exists v w',
    cacheService_get env key w = (Resolved v, w') /\
    only_redis w w' /\
    (v = JNull \/ exists ex, redis_lookup (now w) (redisData w) key = Some (v, ex)).
Proof.
  destruct (cacheService_get_only_redis env key w) as (v & w' & Heq & Hfr).
  exists v, w'. split; [exact Heq|]. split; [exact Hfr|].
  revert Heq. unfold cacheService_get, redis_get, redis_command. js_unfold.
  destruct (redisAvailable w); simpl; [|intros [= <- _]; left; reflexivity].
  destruct (redisOutcome env (redisCalls w)) as [lat|lat e]; simpl;
    [|intros [= <- _]; left; reflexivity].
  destruct (redis_lookup (now w) (redisData w) key) as [[v0 ex]|]; simpl;
    intros [= <- _]; [right; eauto|left; reflexivity].
Qed.

(** The guarded cache read of [getShortUrl], with the value it gives. *)
Lemma cache_lookup_value env key w :
  exists r w',
    execute (race (cacheService_get env key) 2000 "Cache timeout") w = (r, w') /\
    r <> Pending /\ only_cache w w' /\
    (forall v, r = Resolved v ->
       v = JNull \/ exists ex, redis_lookup (now w) (redisData w) key = Some (v, ex)).
Proof.
  unfold execute. js_unfold.
  destruct (execute_gate (now w) (breaker w)) as [cb'|].
  2: { eexists _, _. split; [reflexivity|]. split; [discriminate|].
       split; [apply only_cache_refl|discriminate]. }
  set (w0 := set_breaker cb' w).
  assert (H0 : only_cache w w0) by (destruct w; reflexivity).
  assert (Hsame : now w0 = now w /\ redisData w0 = redisData w)
    by (destruct w; split; reflexivity).
  destruct Hsame as (Hnow & Hdata).
  destruct (cacheService_get_value env key w0) as (v & w1 & Hg & H1 & Hv).
  rewrite Hnow, Hdata in Hv.
  destruct (race_cases (cacheService_get env key) 2000 "Cache timeout" w0) as [[-> _]| ->];
    rewrite Hg; simpl.
  - eexists _, _. split; [reflexivity|]. split; [discriminate|]. split.
    + eapply only_cache_trans; [exact H0|].
      eapply only_cache_trans; [apply only_redis_cache; exact H1|].
      destruct w1; reflexivity.
    + intros v' [= <-]. exact Hv.
  - eexists _, _. split; [reflexivity|]. split; [discriminate|]. split.
    + eapply only_cache_trans; [exact H0|].
      eapply only_cache_trans; [apply only_redis_cache; exact H1|].
      destruct w1; reflexivity.
    + discriminate.
Qed.

(** A lookup of a stored code that MongoDB answers in time. *)
Lemma race_getShortUrlFromDB_succeeds env code d lat ms msg w :
  readyState w = 1 ->
  mongoDocs w !! code = Some d ->
  mongoOutcome env (mongoCalls w) = MReply lat ->
  Z.of_nat lat < 1500 ->
  1500 <= ms ->
  exists w',
    race (getShortUrlFromDB env code) ms msg w = (Resolved (JUrl (inc_clicks d)), w') /\
    only_mongo w w' /\
    mongoDocs w' = <[code := inc_clicks d]> (mongoDocs w).
Proof.
  intros Hrs Hd Ho Hlat Hms.
  assert (Heq : getShortUrlFromDB env code w
                = (Resolved (JUrl (inc_clicks d)),
                   set_mongoDocs (<[code := inc_clicks d]> (mongoDocs w))
                     (set_now (now w + Z.of_nat lat)
                        (set_mongoCalls (S (mongoCalls w)) w)))).
  { unfold getShortUrlFromDB, checkConnectionHealth, race, urlSchema_findOneAndUpdate,
           mongo_command.
    js_unfold. rewrite Hrs. simpl. rewrite Ho, Hd. simpl.
    replace (now w + Z.of_nat lat - now w) with (Z.of_nat lat) by lia.
    apply Z.ltb_lt in Hlat. rewrite Hlat. reflexivity. }
  unfold race. rewrite Heq. simpl.
  replace (now w + Z.of_nat lat - now w) with (Z.of_nat lat) by lia.
  assert (Hc : (Z.of_nat lat <? ms) = true) by (apply Z.ltb_lt; lia).
  rewrite Hc. eexists. split; [reflexivity|]. split; [|reflexivity].
  unfold only_mongo. destruct w; reflexivity.
Qed.

(** The [try] block of [getShortUrl], with where its value comes from. *)
Lemma getShortUrl_try_block_source env code w :
  exists r w',
    getShortUrl_try_block env code (now w) w = (r, w') /\
    r <> Pending /\
    readyState w' = readyState w /\
    ((exists v ex, r = Resolved v /\ truthy v = true /\
                   redis_lookup (now w) (redisData w) ("url:" +:+ code) = Some (v, ex) /\
                   mongoDocs w' = mongoDocs w) \/
     (mongoDocs w' = mongoDocs w /\ forall v, r = Resolved v -> v = JNull) \/
     (exists d, mongoDocs w !! code = Some d /\
                mongoDocs w' = <[code := inc_clicks d]> (mongoDocs w) /\
                forall v, r = Resolved v -> v = JUrl (inc_clicks d))).
Proof.
  unfold getShortUrl_try_block, record_elapsed. js_unfold.
  destruct (cache_lookup_value env (CACHE_KEYS_SHORT_URL code) w)
    as (r & w1 & -> & Hnp & Hc1 & Hsrc).
  destruct (only_cache_fields _ _ Hc1) as (_ & Hrs1 & Hdocs1 & Hcalls1 & _ & Hmon1 & _ & _).
  destruct r as [urlData|e|]; [| |congruence].
  2: { eexists _, _. split; [reflexivity|]. split; [discriminate|].
       split; [exact Hrs1|]. right. left. split; [exact Hdocs1|discriminate]. }
  destruct (truthy urlData) eqn:Ht.
  - cbv beta iota.
    set (w2 := set_monitor (recordCacheHit (monitor w1)) w1).
    destruct (incrementClicks_only_redis env code w2) as (w3 & Hinc & H3).
    unfold detached. rewrite Hinc. cbv beta iota.
    apply only_redis_cache, only_cache_fields in H3.
    destruct H3 as (_ & Hrs3 & Hdocs3 & _).
    eexists _, _. split; [reflexivity|]. split; [discriminate|].
    subst w2. setters. split; [congruence|]. left.
    destruct (Hsrc urlData eq_refl) as [->|(ex & Hex)]; [discriminate|].
    exists urlData, ex. split; [reflexivity|]. split; [exact Ht|].
    split; [exact Hex|congruence].
  - cbv beta iota.
    set (w2 := set_monitor (recordCacheMiss (monitor w1)) w1).
    destruct (race_getShortUrlFromDB_cases env code 3000 "DB timeout" w2)
      as (r & w3 & -> & Hnp3 & Hfr3 & _ & Hdocs3 & _).
    destruct (only_mongo_fields _ _ Hfr3) as (_ & _ & _ & Hrs3 & _).
    subst w2. setters.
    destruct r as [v|e|]; [| |congruence].
    + assert (Hfin : exists w4,
          (if truthy v
           then detached (cacheService_set env (CACHE_KEYS_SHORT_URL code) v
                            CACHE_TTL_SHORT_URL)
           else (fun w => (Resolved tt, w))) w3 = (Resolved tt, w4) /\
          only_cache w3 w4).
      { destruct (truthy v).
        - destruct (cacheService_set_only_redis env (CACHE_KEYS_SHORT_URL code) v
                      CACHE_TTL_SHORT_URL w3) as (b & w4 & Hset & H4).
          unfold detached. rewrite Hset. eexists; split; [reflexivity|].
          apply only_cache_set_now, only_redis_cache. exact H4.
        - eexists; split; [reflexivity|apply only_cache_refl]. }
      destruct Hfin as (w4 & -> & H4).
      destruct (only_cache_fields _ _ H4) as (_ & Hrs4 & Hdocs4 & _).
      eexists _, _. split; [reflexivity|]. split; [discriminate|]. simpl.
      split; [congruence|]. right.
      destruct Hdocs3 as [[Hsame Hv]|(d & Hd1 & Hd2 & Hv)].
      * left. split; [congruence|exact Hv].
      * right. exists d. rewrite <- Hdocs1. split; [exact Hd1|].
        split; [congruence|exact Hv].
    + eexists _, _. split; [reflexivity|]. split; [discriminate|].
      split; [congruence|]. right.
      destruct Hdocs3 as [[Hsame Hv]|(d & Hd1 & Hd2 & Hv)].
      * left. split; [congruence|discriminate].
      * right. exists d. rewrite <- Hdocs1. split; [exact Hd1|].
        split; [congruence|discriminate].
Qed.

(** Where the value of [getShortUrl] comes from: the cache entry of the
    code, or the document MongoDB holds for it; else it is [null]. *)
Lemma getShortUrl_source env code w :
  exists v w',
    urlCacheService_getShortUrl env code w = (Resolved v, w') /\
    (mongoDocs w !! code = None -> mongoDocs w' = mongoDocs w) /\
    (v = JNull \/
     (exists ex, truthy v = true /\
                 redis_lookup (now w) (redisData w) ("url:" +:+ code) = Some (v, ex)) \/
     (exists d0 d, mongoDocs w !! code = Some d0 /\ v = JUrl d /\
                   full_url d = full_url d0 /\ short_url d = short_url d0)).
Proof.
  unfold urlCacheService_getShortUrl. js_unfold.
  destruct (getShortUrl_try_block_source env code w)
    as (r & w1 & -> & Hnp & Hrs1 & Hcase).
  destruct r as [v|e|]; [| |congruence].
  - eexists _, _. split; [reflexivity|].
    destruct Hcase as [(v' & ex & [= <-] & Ht & Hex & Hdocs)
                      |[(Hdocs & Hv)|(d & Hd1 & Hd2 & Hv)]].
    + split; [intros _; exact Hdocs|]. right. left. eauto.
    + split; [intros _; exact Hdocs|]. left. apply Hv. reflexivity.
    + split; [congruence|]. right. right. exists d, (inc_clicks d).
      split; [exact Hd1|]. split; [apply Hv; reflexivity|]. split; reflexivity.
  - destruct (getShortUrl_catch_block_cases env code (now w) w1)
      as (v & w2 & -> & _ & _ & _ & Hdocs2 & _).
    eexists _, _. split; [reflexivity|].
    assert (Hd1 : (mongoDocs w1 = mongoDocs w) \/
                  exists d, mongoDocs w !! code = Some d /\
                            mongoDocs w1 = <[code := inc_clicks d]> (mongoDocs w)).
    { destruct Hcase as [(v' & ex & [=] & _)|[(Hdocs & _)|(d & Hd1 & Hd2 & _)]];
        [left; exact Hdocs|right; eauto]. }
    split.
    + intros Hnone. destruct Hd1 as [Hsame|(d & Hd & _)]; [|congruence].
      destruct Hdocs2 as [[Hsame2 _]|(d & Hd & _)]; [congruence|].
      rewrite Hsame in Hd. congruence.
    + destruct Hdocs2 as [[_ ->]|(d & Hd & Hd2 & [->| ->])]; [left; reflexivity..|].
      right. right.
      destruct Hd1 as [Hsame|(d0 & Hd0 & Hd02)].
      * exists d, (inc_clicks d). rewrite <- Hsame.
        split; [exact Hd|]. split; [reflexivity|]. split; reflexivity.
      * exists d0, (inc_clicks d). split; [exact Hd0|]. split; [reflexivity|].
        rewrite Hd02, lookup_insert_eq in Hd. injection Hd as <-. split; reflexivity.
Qed.

(** X17: the redirect handler always answers, and never with a target of
    its own making: a redirect goes to the URL of the cache entry of the
    code or of its document in MongoDB.  A code that has neither is
    answered 404, and the collection is left as it was. *)
Theorem redirect_comes_from_cache_or_store (env : Env) (id : string) (w : World) :
  exists reply w',
    redirectFromShortUrl env id w = (Resolved reply, w') /\
    (forall u, reply = redirect (Some u) ->
       (exists d ex, redis_lookup (now w) (redisData w) ("url:" +:+ id)
                     = Some (JUrl d, ex) /\ full_url d = u) \/
       (exists d, mongoDocs w !! id = Some d /\ full_url d = u)) /\
    (mongoDocs w !! id = None ->
     redis_lookup (now w) (redisData w) ("url:" +:+ id) = None ->
     reply = json_404 "Short URL not found" /\ mongoDocs w' = mongoDocs w).
Proof.
  unfold redirectFromShortUrl. js_unfold.
  destruct (getShortUrl_source env id w) as (v & w' & -> & Hdocs & Hsrc).
  destruct Hsrc as [->|[(ex & Ht & Hex)|(d0 & d & Hd0 & -> & Hfull & _)]].
  - eexists _, _. split; [reflexivity|]. simpl. split; [discriminate|].
    intros Hnone _. split; [reflexivity|apply Hdocs, Hnone].
  - rewrite Ht. simpl. eexists _, _. split; [reflexivity|]. split.
    + intros u [= Hu]. left. destruct v as [| | |d| |]; try discriminate.
      injection Hu as <-. exists d, ex. split; [exact Hex|reflexivity].
    + intros _ Hnone. congruence.
  - simpl. eexists _, _. split; [reflexivity|]. split.
    + intros u [= <-]. right. exists d0. split; [exact Hd0|congruence].
    + intros Hnone _. congruence.
Qed.

(** ** The degraded write *)

(** A code that neither the cache nor the collection holds is not found. *)
Lemma unknown_code_is_not_found env code w :
  redisData w !! ("url:" +:+ code) = None ->
  mongoDocs w !! code = None ->
  exists w', urlCacheService_getShortUrl env code w = (Resolved JNull, w').
Proof.
  intros Hcache Hdocs.
  destruct (getShortUrl_source env code w) as (v & w' & Heq & _ & Hsrc).
  exists w'. rewrite Heq.
  destruct Hsrc as [->|[(ex & _ & Hl)|(d0 & d & Hd & _)]]; [reflexivity| |congruence].
  unfold redis_lookup in Hl. rewrite Hcache in Hl. discriminate.
Qed.

(** What the cache write of the degradation leaves when Redis does not take
    it. *)
Lemma degrade_without_cache env code url w :
  redisAvailable w = false \/
  (exists lat e, redisOutcome env (redisCalls w) = RReject lat e) ->
  redisData (snd (degrade env code url w)) = redisData w.
Proof.
  intros H. unfold degrade, schedule, cacheService_set, redis_setex, redis_command.
  js_unfold.
  destruct (redisAvailable w) eqn:Hav; simpl; [|reflexivity].
  destruct H as [H|(lat & e & ->)]; [discriminate|]. reflexivity.
Qed.

(** C6, as the code has it: when the insert of a generated code is not
    answered within the 2500 ms race, [createShortUrlWithoutUser] still
    returns that code and schedules the background persistence 100 ms later;
    the cache write is attempted, and when Redis is available and takes it
    the mapping is stored under [url:<code>] for 600 s, so that a read whose
    cache lookup goes through (breaker not refusing, Redis answering in
    time) returns it at once.  When Redis is unavailable or rejects the
    write, the key space is left as it was: the mapping is cached only when
    Redis takes it.  A returned code that is then neither in the cache nor
    in the collection is not retrievable: the read path answers [null].
    The background persistence, started at [retryCount = 0], ends within
    three attempts. *)
Theorem create_degrades_when_insert_times_out (env : Env) (url : string) (w : World) :
  nanoid env (idCalls w) 8 <> "" ->
  readyState w = 1 ->
  insert_times_out env (mongoCalls w) ->
  exists w',
    createShortUrlWithoutUser env url None w
      = (Resolved (nanoid env (idCalls w) 8), w') /\
    timers w' = insert_timer (now w' + 100, RetrySave (nanoid env (idCalls w) 8) url 0)
                             (timers w) /\
    (forall lat,
       redisAvailable w = true ->
       redisOutcome env (redisCalls w) = RReply lat ->
       redisData w' !! ("url:" +:+ nanoid env (idCalls w) 8)
         = Some (JUrl (mkUrlData url (nanoid env (idCalls w) 8) 0 None None),
                 Some (now w + 2500 + 600 * 1000)) /\
       forall cb lat',
         Z.of_nat lat < 600 * 1000 ->
         execute_gate (now w') (breaker w') = Some cb ->
         redisOutcome env (redisCalls w') = RReply lat' ->
         Z.of_nat lat' < 2000 ->
         exists w'',
           urlCacheService_getShortUrl env (nanoid env (idCalls w) 8) w'
           = (Resolved (JUrl (mkUrlData url (nanoid env (idCalls w) 8) 0 None None)),
              w'')) /\
    (redisAvailable w = false \/
     (exists lat e, redisOutcome env (redisCalls w) = RReject lat e) ->
     redisData w' = redisData w) /\
    (redisData w' !! ("url:" +:+ nanoid env (idCalls w) 8) = None ->
     mongoDocs w' !! nanoid env (idCalls w) 8 = None ->
     exists w'',
       urlCacheService_getShortUrl env (nanoid env (idCalls w) 8) w'
       = (Resolved JNull, w'')) /\
    (forall due w0,
       timers w0 = [(due, RetrySave (nanoid env (idCalls w) 8) url 0)] ->
       exists w3,
         run_timers env 3 w0 = (Resolved tt, w3) /\
         timers w3 = [] /\
         (mongoCalls w3 <= mongoCalls w0 + 3)%nat).
Proof.
  intros Hcode Hrs Hslow.
  set (code := nanoid env (idCalls w) 8) in *.
  unfold createShortUrlWithoutUser.
  change (Z.to_nat (maxCollisions + 1)) with 6%nat.
  rewrite create_attempts_S. unfold generateNanoId. js_unfold. fold code.
  destruct (String.eqb_spec code ""); [congruence|].
  set (w1 := set_idCalls (S (idCalls w)) w).
  destruct (save_quick_timeout env code url w1) as (w2 & -> & Hfr2 & Hnow2);
    [exact Hrs|exact Hslow|].
  destruct (only_mongo_fields _ _ Hfr2)
    as (Hav2 & Hdata2 & Hcalls2 & _ & _ & Hbr2 & _ & Hti2 & _).
  assert (Hw1 : redisAvailable w1 = redisAvailable w /\ redisCalls w1 = redisCalls w /\
                timers w1 = timers w /\ now w1 = now w) by (repeat split).
  destruct Hw1 as (Hav1 & Hcalls1 & Hti1 & Hnow1).
  change ((message (Error "Save quick-timeout") =? "Short URL already exists")%string)
    with false.
  cbv beta iota. unfold andb. cbv beta iota.
  pose proof (degrade_without_cache env code url w2) as Hnone.
  destruct (degrade_cases env code url w2) as (w3 & w' & Hdeg & Hfr3 & Hw' & Hcache).
  rewrite Hdeg in Hnone |- *. cbn [snd] in Hnone.
  apply only_redis_cache, only_cache_fields in Hfr3.
  destruct Hfr3 as (Hav3 & _ & _ & _ & _ & _ & Hti3 & _).
  exists w'. split; [reflexivity|].
  split; [subst w'; simpl; congruence|].
  split; [|split; [|split; [|intros due w0; apply background_persistence_bounded]]].
  2: { intros H. rewrite Hnone; [transitivity (redisData w1); [congruence|reflexivity]|].
       destruct H as [H|(lat & e & H)]; [left; congruence|right; exists lat, e; congruence]. }
  2: { apply unknown_code_is_not_found. }
  intros lat Hav Ho.
  destruct (Hcache lat) as (Hnow3 & Hcalls3 & Hkey); [congruence|congruence|].
  assert (Hexp : now w2 + 600 * 1000 = now w + 2500 + 600 * 1000)
    by (rewrite Hnow2, Hnow1; reflexivity).
  split; [subst w'; simpl; rewrite Hkey, Hexp; reflexivity|].
  intros cb lat' Hlat Hgate Ho' Hlat'.
  eapply cached_mapping_is_served with (ex := now w + 2500 + 600 * 1000);
    [subst w'; simpl; congruence
    |subst w'; simpl; rewrite Hkey, Hexp; reflexivity
    |subst w'; simpl; rewrite Hnow3, Hnow2, Hnow1; lia
    |reflexivity
    |exact Hgate
    |exact Ho'
    |exact Hlat'].
Qed.

Lemma create_degrades_when_insert_times_out_witness :
  exists w',
    createShortUrlWithoutUser hanging_store_env "https://example.com" None healthy_world
      = (Resolved "V1StGXR8", w') /\
    timers w' = [(2601, RetrySave "V1StGXR8" "https://example.com" 0)] /\
    exists w'',
      urlCacheService_getShortUrl hanging_store_env "V1StGXR8" w'
      = (Resolved (JUrl (mkUrlData "https://example.com" "V1StGXR8" 0 None None)), w'').
Proof.
  destruct (create_degrades_when_insert_times_out hanging_store_env
              "https://example.com" healthy_world)
    as (w' & Heq & Hti & Hcache & _ & _ & _).
  - vm_compute. discriminate.
  - reflexivity.
  - exact I.
  - assert (Hw' : w' = snd (createShortUrlWithoutUser hanging_store_env
                              "https://example.com" None healthy_world))
      by (rewrite Heq; reflexivity).
    exists w'. split; [exact Heq|]. split.
    + rewrite Hti. rewrite Hw'. vm_compute. reflexivity.
    + destruct (Hcache 1%nat eq_refl eq_refl) as (_ & Hread).
      apply (Hread (new_CircuitBreaker 10 60000) 1%nat).
      * vm_compute. reflexivity.
      * rewrite Hw'. vm_compute. reflexivity.
      * reflexivity.
      * vm_compute. reflexivity.
Defined.

(** C6 as stated fails when Redis is not available: the insert hangs, the
    call returns the generated code, but nothing was cached and the read
    that follows finds nothing. *)
Lemma degraded_code_is_lost_without_redis :
  fst (createShortUrlWithoutUser hanging_store_env "https://example.com" None
         world_without_redis) = Resolved "V1StGXR8" /\
  redisData (snd (createShortUrlWithoutUser hanging_store_env "https://example.com"
                    None world_without_redis)) !! "url:V1StGXR8" = None /\
  fst (urlCacheService_getShortUrl hanging_store_env "V1StGXR8"
         (snd (createShortUrlWithoutUser hanging_store_env "https://example.com"
                 None world_without_redis))) = Resolved JNull.
Proof. vm_compute. repeat split. Qed.

(** With a store that answers every query in time, a stored code is always
    found: by a cache hit, which leaves the collection alone, or else in
    MongoDB, which counts one click. *)
Lemma stored_code_lookup env code d w :
  readyState w = 1 ->
  mongoDocs w !! code = Some d ->
  (forall n, exists lat, mongoOutcome env n = MReply lat /\ Z.of_nat lat < 1500) ->
  exists v w',
    urlCacheService_getShortUrl env code w = (Resolved v, w') /\
    ((exists ex, truthy v = true /\
                 redis_lookup (now w) (redisData w) ("url:" +:+ code) = Some (v, ex) /\
                 mongoDocs w' = mongoDocs w) \/
     (v = JUrl (inc_clicks d) /\
      mongoDocs w' = <[code := inc_clicks d]> (mongoDocs w))).
Proof.
  intros Hrs Hd Hall.
  unfold urlCacheService_getShortUrl, getShortUrl_try_block, record_elapsed. js_unfold.
  destruct (cache_lookup_value env (CACHE_KEYS_SHORT_URL code) w)
    as (r & w1 & -> & Hnp & Hc1 & Hsrc).
  destruct (only_cache_fields _ _ Hc1) as (_ & Hrs1 & Hdocs1 & _).
  destruct r as [urlData|e|]; [| |congruence].
  - destruct (truthy urlData) eqn:Ht.
    + cbv beta iota.
      set (w2 := set_monitor (recordCacheHit (monitor w1)) w1).
      destruct (incrementClicks_only_redis env code w2) as (w3 & Hinc & H3).
      unfold detached. rewrite Hinc. cbv beta iota.
      apply only_redis_cache, only_cache_fields in H3.
      destruct H3 as (_ & _ & Hdocs3 & _).
      eexists _, _. split; [reflexivity|]. left.
      destruct (Hsrc urlData eq_refl) as [->|(ex & Hex)]; [discriminate|].
      exists ex. split; [exact Ht|]. split; [exact Hex|].
      subst w2. setters. congruence.
    + cbv beta iota.
      set (w2 := set_monitor (recordCacheMiss (monitor w1)) w1).
      destruct (Hall (mongoCalls w2)) as (lat & Ho & Hlat).
      destruct (race_getShortUrlFromDB_succeeds env code d lat 3000 "DB timeout" w2)
        as (w3 & -> & Hfr3 & Hdocs3);
        [subst w2; destruct w1; simpl in *; congruence
        |subst w2; destruct w1; simpl in *; congruence
        |exact Ho|exact Hlat|lia|].
      cbn [truthy].
      destruct (cacheService_set_only_redis env (CACHE_KEYS_SHORT_URL code)
                  (JUrl (inc_clicks d)) CACHE_TTL_SHORT_URL w3) as (b & w4 & Hset & H4).
      unfold detached. rewrite Hset. cbv beta iota.
      apply only_redis_cache, only_cache_fields in H4.
      destruct H4 as (_ & _ & Hdocs4 & _).
      eexists _, _. split; [reflexivity|]. right. split; [reflexivity|].
      setters. rewrite Hdocs4, Hdocs3. subst w2. destruct w1; simpl in *. congruence.
  - unfold getShortUrl_catch_block, record_elapsed. js_unfold.
    set (w2 := set_monitor (recordDbFallback (monitor (set_monitor
                  (recordRedisError (monitor w1)) w1))) (set_monitor
                  (recordRedisError (monitor w1)) w1)).
    cbv beta iota. fold w2.
    destruct (Hall (mongoCalls w2)) as (lat & Ho & Hlat).
    destruct (race_getShortUrlFromDB_succeeds env code d lat 2500 "Fallback timeout" w2)
      as (w3 & -> & Hfr3 & Hdocs3);
      [subst w2; destruct w1; simpl in *; congruence
      |subst w2; destruct w1; simpl in *; congruence
      |exact Ho|exact Hlat|lia|].
    eexists _, _. split; [reflexivity|]. right. split; [reflexivity|].
    setters. rewrite Hdocs3. subst w2. destruct w1; simpl in *. congruence.
Qed.

(** X18: while MongoDB is connected and answers every query in time, a
    stored code is redirected to its URL whatever Redis does, provided the
    cache holds no other mapping for the code; the click is counted in
    MongoDB exactly when the answer does not come from the cache. *)
Theorem stored_code_redirects (env : Env) (id : string) (d : UrlData) (w : World) :
  readyState w = 1 ->
  mongoDocs w !! id = Some d ->
  (forall n, exists lat, mongoOutcome env n = MReply lat /\ Z.of_nat lat < 1500) ->
  (forall v ex, redis_lookup (now w) (redisData w) ("url:" +:+ id) = Some (v, ex) ->
                truthy v = true ->
                exists dc, v = JUrl dc /\ full_url dc = full_url d) ->
  exists w',
    redirectFromShortUrl env id w = (Resolved (redirect (Some (full_url d))), w') /\
    (mongoDocs w' = mongoDocs w \/
     mongoDocs w' = <[id := inc_clicks d]> (mongoDocs w)).
Proof.
  intros Hrs Hd Hall Hcache.
  unfold redirectFromShortUrl. js_unfold.
  destruct (stored_code_lookup env id d w Hrs Hd Hall)
    as (v & w' & -> & [(ex & Ht & Hex & Hdocs)|(-> & Hdocs)]).
  - destruct (Hcache v ex Hex Ht) as (dc & -> & Hfull).
    simpl. rewrite Hfull. eexists. split; [reflexivity|]. left. exact Hdocs.
  - simpl. eexists. split; [reflexivity|]. right. exact Hdocs.
Qed.

Lemma stored_code_redirects_witness :
  exists w',
    redirectFromShortUrl steady_env "V1StGXR8" world_with_cold_cache
    = (Resolved (redirect (Some "https://example.com")), w') /\
    (mongoDocs w' = mongoDocs world_with_cold_cache \/
     mongoDocs w'
     = <["V1StGXR8" := inc_clicks (mkUrlData "https://example.com" "V1StGXR8" 0 None
                                     (Some 0))]> (mongoDocs world_with_cold_cache)).
Proof.
  apply (stored_code_redirects steady_env "V1StGXR8"
           (mkUrlData "https://example.com" "V1StGXR8" 0 None (Some 0))
           world_with_cold_cache).
  - reflexivity.
  - vm_compute. reflexivity.
  - intros n. exists 5%nat. split; [reflexivity|lia].
  - intros v ex H. vm_compute in H. discriminate.
Defined.

(** What [cacheNewUrl] does to Redis. *)
Lemma cacheNewUrl_effect env code v w :
  exists w',
    cacheNewUrl env code v w = (Resolved tt, w') /\
    only_redis w w' /\
    (redisData w' = redisData w \/
     exists ex, redisData w' = <["url:" +:+ code := (v, Some ex)]> (redisData w)).
Proof.
  unfold cacheNewUrl, cacheService_set, redis_setex, CACHE_KEYS_SHORT_URL.
  js_unfold.
  destruct (redisAvailable w) eqn:Hav; simpl.
  - match goal with
    | |- context [redis_command env ?run w] =>
        pose proof (redis_command_only_redis env run w) as Hfr;
        unfold redis_command in *
    end.
    destruct (redisOutcome env (redisCalls w)) as [lat|lat e] eqn:Ho; simpl in *.
    + eexists. split; [reflexivity|]. split; [eapply Hfr; reflexivity|].
      right. eexists. reflexivity.
    + eexists. split; [reflexivity|]. split; [eapply Hfr; reflexivity|].
      left. reflexivity.
  - eexists. split; [reflexivity|]. split; [apply only_redis_refl|]. left. reflexivity.
Qed.

(** X19: creation followed by a visit.  On a server whose MongoDB is
    connected and answers in time, POST /api/create with a URL answers with
    the short URL built from the next identifier (if that identifier is
    free), and a later GET of that code redirects to the URL, whatever
    Redis does in between. *)
Theorem created_code_redirects (env : Env) (APP_URL url : string) (w : World) :
  url <> "" ->
  readyState w = 1 ->
  nanoid env (idCalls w) 8 <> "" ->
  mongoDocs w !! nanoid env (idCalls w) 8 = None ->
  redisData w !! ("url:" +:+ nanoid env (idCalls w) 8) = None ->
  (forall n, exists lat, mongoOutcome env n = MReply lat /\ Z.of_nat lat < 1500) ->
  exists w1 w2,
    createShortUrl env APP_URL url None w
    = (Resolved (json_200 ((if endsWith APP_URL "/" then APP_URL else APP_URL +:+ "/")
                           +:+ nanoid env (idCalls w) 8) url false), w1) /\
    redirectFromShortUrl env (nanoid env (idCalls w) 8) w1
    = (Resolved (redirect (Some url)), w2).
Proof.
  intros Hurl Hrs Hid Hfree Hcold Hall.
  set (code := nanoid env (idCalls w) 8) in *.
  unfold createShortUrl.
  assert (Hb : (url =? "")%string = false) by (apply String.eqb_neq, Hurl).
  rewrite Hb. cbn [given]. cbv beta iota.
  unfold createShortUrlWithoutUser.
  change (Z.to_nat (maxCollisions + 1)) with 6%nat.
  rewrite create_attempts_S. unfold generateNanoId. js_unfold. fold code.
  assert (Hc : (code =? "")%string = false) by (apply String.eqb_neq, Hid).
  rewrite Hc.
  set (w0 := set_idCalls (S (idCalls w)) w).
  destruct (Hall (mongoCalls w0)) as (lat & Ho & Hlat).
  assert (Hsave : race (saveShortUrl env code url None) 2500 "Save quick-timeout" w0
                  = (Resolved (mkUrlData url code 0 None (Some (now w0))),
                     set_mongoDocs (<[code := mkUrlData url code 0 None (Some (now w0))]>
                                      (mongoDocs w0))
                       (set_now (now w0 + Z.of_nat lat)
                          (set_mongoCalls (S (mongoCalls w0)) w0)))).
  { unfold race.
    rewrite (saveShortUrl_succeeds env code url None lat w0);
      [|subst w0; destruct w; exact Hrs|subst w0; destruct w; exact Hfree|exact Ho|lia].
    simpl.
    assert (Hq : (now w + Z.of_nat lat - now w <? 2500) = true)
      by (apply Z.ltb_lt; lia).
    rewrite Hq. reflexivity. }
  rewrite Hsave. cbv beta iota.
  match goal with
  | |- context [detached (cacheNewUrl env code ?v) ?ws] =>
      set (w1s := ws);
      destruct (cacheNewUrl_effect env code v w1s) as (wc & Hcache & Hfrc & Hdata)
  end.
  unfold detached. rewrite Hcache. cbn [snd].
  pose proof (only_redis_cache _ _ Hfrc) as Hfields.
  apply only_cache_fields in Hfields.
  destruct Hfields as (_ & Hrsc & Hdocsc & _).
  set (wf := set_now (now w1s) wc).
  assert (Hrsf : readyState wf = 1).
  { subst wf. destruct wc; simpl in *. rewrite Hrsc. subst w1s w0.
    destruct w; exact Hrs. }
  assert (Hdf : mongoDocs wf !! code = Some (mkUrlData url code 0 None (Some (now w0)))).
  { subst wf. destruct wc; simpl in *. rewrite Hdocsc. subst w1s. simpl.
    apply lookup_insert_eq. }
  assert (Hcf : forall v ex,
             redis_lookup (now wf) (redisData wf) ("url:" +:+ code) = Some (v, ex) ->
             v = JUrl (mkUrlData url code 0 None None)).
  { intros v ex. unfold redis_lookup.
    assert (Hd : redisData wf = redisData wc) by (subst wf; destruct wc; reflexivity).
    rewrite Hd.
    assert (Hw1s : redisData w1s = redisData w)
      by (subst w1s w0; destruct w; reflexivity).
    destruct Hdata as [->|(ex' & ->)].
    - rewrite Hw1s, Hcold. discriminate.
    - rewrite lookup_insert_eq. destruct (now wf <? ex'); congruence. }
  exists wf.
  unfold redirectFromShortUrl. js_unfold.
  destruct (stored_code_lookup env code _ wf Hrsf Hdf Hall)
    as (v & w2 & -> & [(ex & Ht & Hex & _)|(-> & _)]).
  - rewrite (Hcf v ex Hex). simpl. exists w2. split; reflexivity.
  - simpl. exists w2. split; reflexivity.
Qed.

Lemma created_code_redirects_witness :
  exists w1 w2,
    createShortUrl steady_env "https://sho.rt" "https://example.com" None healthy_world
    = (Resolved (json_200 "https://sho.rt/V1StGXR8" "https://example.com" false), w1) /\
    redirectFromShortUrl steady_env "V1StGXR8" w1
    = (Resolved (redirect (Some "https://example.com")), w2).
Proof.
  apply (created_code_redirects steady_env "https://sho.rt" "https://example.com"
           healthy_world).
  - discriminate.
  - reflexivity.
  - discriminate.
  - reflexivity.
  - reflexivity.
  - intros n. exists 5%nat. split; [reflexivity|lia].
Defined.

(** ** The admission counters *)

Ltac adm_cases :=
  repeat match goal with
         | |- context [if ?c then _ else _] => destruct c eqn:?; simpl
         | |- context [match ?l with [] => _ | _ :: _ => _ end] => destruct l eqn:?; simpl
         end.

Ltac adm_arith :=
  unfold admission_inv, queueLength, GLOBAL_RATE_LIMIT, MAX_CONCURRENT_REQUESTS,
         MAX_QUEUE_SIZE, GLOBAL_WINDOW_MS, MAX_CONNECTIONS in *;
  simpl in *;
  repeat match goal with
         | H : (_ <=? _) = true |- _ => apply Z.leb_le in H
         | H : (_ <=? _) = false |- _ => apply Z.leb_gt in H
         | H : (_ <? _) = true |- _ => apply Z.ltb_lt in H
         | H : (_ <? _) = false |- _ => apply Z.ltb_ge in H
         end.

Lemma processNextQueuedRequest_inv w :
  processingRequests (adm w) <= MAX_CONCURRENT_REQUESTS ->
  queueLength (adm w) <= MAX_QUEUE_SIZE ->
  globalRequestCount (adm w) <= GLOBAL_RATE_LIMIT ->
  (requestQueue (adm w) <> [] ->
   MAX_CONCURRENT_REQUESTS - 1 <= processingRequests (adm w)) ->
  exists w', processNextQueuedRequest w = (Resolved tt, w') /\ admission_inv (adm w').
Proof.
  intros Hp Hq Hg Hw. unfold processNextQueuedRequest.
  destruct w as [t ra rd rc rs md mc ic cb mo ti [g gs ac cr q pr qr rsp dsp]].
  adm_setters. adm_cases; (eexists; split; [reflexivity|]); adm_arith;
    repeat split; try lia; try congruence;
    try (intros _; assert (999 <= pr) by (apply Hw; discriminate); lia).
Qed.

Lemma run_listener_inv id l w :
  admission_inv (adm w) ->
  exists w', run_listener id l w = (Resolved tt, w') /\ admission_inv (adm w').
Proof.
  intros (Hg & Hp & Hq & Hw). destruct l; unfold run_listener.
  - destruct w as [t ra rd rc rs md mc ic cb mo ti [g gs ac cr q pr qr rsp dsp]].
    adm_setters. eexists; split; [reflexivity|]. adm_arith. auto.
  - adm_setters.
    match goal with
    | |- context [processNextQueuedRequest ?w0] =>
        destruct (processNextQueuedRequest_inv w0) as (w' & -> & Hinv)
    end; [..|eexists; split; [reflexivity|exact Hinv]];
      destruct w as [t ra rd rc rs md mc ic cb mo ti [g gs ac cr q pr qr rsp dsp]];
      adm_arith; try lia.
    intros Hne. rewrite (Hw Hne). lia.
Qed.

Lemma run_listeners_inv id ls : forall w,
  admission_inv (adm w) ->
  exists w', run_listeners id ls w = (Resolved tt, w') /\ admission_inv (adm w').
Proof.
  induction ls as [|l ls IH]; intros w Hinv.
  - eexists; split; [reflexivity|exact Hinv].
  - simpl. js_unfold.
    destruct (run_listener_inv id l w Hinv) as (w1 & -> & H1).
    apply IH, H1.
Qed.

Lemma emit_inv id ev w :
  admission_inv (adm w) ->
  exists w', emit id ev w = (Resolved tt, w') /\ admission_inv (adm w').
Proof.
  intros Hinv. unfold emit. js_unfold. apply run_listeners_inv, Hinv.
Qed.

Lemma in_process_checks_inv req w :
  admission_inv (adm w) ->
  exists ran w',
    run_stack [ (GlobalRateCeiling, globalRateLimiter);
                (ConnectionCeiling, connectionLimiter);
                (ConcurrencyQueue, requestQueueMiddleware) ] req w
      = (Resolved ran, w') /\
    admission_inv (adm w').
Proof.
  intros (Hg & Hp & Hq & Hw).
  unfold run_stack, globalRateLimiter, connectionLimiter, requestQueueMiddleware,
         processNextQueuedRequest.
  destruct w as [t ra rd rc rs md mc ic cb mo ti [g gs ac cr q pr qr rsp dsp]].
  adm_setters.
  adm_cases; (eexists _, _; split; [reflexivity|]); adm_arith;
    repeat split; try lia; try congruence;
    try (intros Hne; try rewrite length_app in *; simpl in *; lia);
    try (rewrite length_app in *; simpl in *; lia);
    try assumption;
    try (intros Hne; specialize (Hw Hne); lia);
    try (subst; simpl in *; lia);
    try (match goal with
         | H : _ ++ [_] = _ :: _ |- _ =>
             apply (f_equal (@length Request)) in H; rewrite length_app in H;
             simpl in H; lia
         end).
Qed.

Lemma handle_request_inv env req w :
  admission_inv (adm w) ->
  exists ran w', handle_request env req w = (Resolved ran, w') /\ admission_inv (adm w').
Proof.
  intros Hinv. unfold handle_request, app_stack.
  change (run_stack ((PerIpTokenBucket, rateLimiter env app_rateLimiter_options) :: ?rest) req)
    with (s ← rateLimiter env app_rateLimiter_options req;
          match s with
          | Next => ran ← run_stack rest req; mret (PerIpTokenBucket :: ran)
          | Stop => mret [PerIpTokenBucket]
          end).
  unfold modify_response at 1. js_unfold. cbv beta iota.
  match goal with
  | |- context [rateLimiter env _ req ?w0] =>
      assert (H0 : admission_inv (adm w0))
        by (destruct w as [t ra rd rc rs md mc ic cb mo ti [g gs ac cr q pr qr rsp dsp]];
            exact Hinv);
      destruct (rateLimiter_resolves env app_rateLimiter_options req w0)
        as (s & w1 & -> & Hsame & _)
  end.
  assert (H1 : admission_inv (adm w1)).
  { destruct Hsame as (E1 & _ & _ & _ & E5 & E6 & _).
    destruct H0 as (Hg & Hp & Hq & Hw).
    unfold admission_inv, queueLength. rewrite E1, E5, E6. auto. }
  destruct s.
  - destruct (in_process_checks_inv req w1 H1) as (ran & w2 & -> & H2).
    eexists _, _; split; [reflexivity|exact H2].
  - eexists _, _; split; [reflexivity|exact H1].
Qed.

Lemma run_events_inv env es : forall w,
  admission_inv (adm w) ->
  exists w', run_events env es w = (Resolved tt, w') /\ admission_inv (adm w').
Proof.
  induction es as [|e es IH]; intros w Hinv.
  - eexists; split; [reflexivity|exact Hinv].
  - simpl. js_unfold.
    assert (He : exists w1, handle_event env e w = (Resolved tt, w1) /\
                            admission_inv (adm w1)).
    { destruct e as [req|id|id]; simpl.
      - js_unfold. destruct (handle_request_inv env req w Hinv) as (ran & w1 & -> & H1).
        eexists; split; [reflexivity|exact H1].
      - apply emit_inv, Hinv.
      - apply emit_inv, Hinv. }
    destruct He as (w1 & -> & H1). apply IH, H1.
Qed.

Lemma run_happenings_inv env hs : forall w,
  admission_inv (adm w) ->
  exists w', run_happenings env hs w = (Resolved tt, w') /\ admission_inv (adm w').
Proof.
  induction hs as [|h hs IH]; intros w Hinv.
  - eexists; split; [reflexivity|exact Hinv].
  - simpl. js_unfold.
    assert (He : exists w1, handle_happening env h w = (Resolved tt, w1) /\
                            admission_inv (adm w1)).
    { destruct h as [e|ms| |]; simpl.
      - destruct (run_events_inv env [e] w Hinv) as (w1 & H & H1).
        simpl in H. js_unfold.
        destruct (handle_event env e w) as [[[]|err|] w0]; try discriminate.
        injection H as <-. eexists; split; [reflexivity|exact H1].
      - js_unfold. eexists; split; [reflexivity|]. destruct w; exact Hinv.
      - js_unfold. eexists; split; [reflexivity|]. destruct w; exact Hinv.
      - js_unfold. eexists; split; [reflexivity|]. destruct w; exact Hinv. }
    destruct He as (w1 & -> & H1). apply IH, H1.
Qed.

(** The counters of a server that has just started are within their
    ceilings. *)
Lemma initial_world_admission_inv t0 : admission_inv (adm (initial_world t0)).
Proof.
  unfold admission_inv. simpl. repeat split; try discriminate. congruence.
Qed.

(** X20: from any state of the server in which the admission counters are
    within their ceilings (a server that has just started is in such a
    state), whatever requests arrive and whatever responses finish or
    close, in any order, however much time passes in between, whether Redis
    is connected or drops out and whatever it answers, the server handles
    every event and the counters stay within their ceilings: at most 180
    requests counted in the current window, at most 1000 in process, at
    most 5000 queued; and no request is left waiting in the queue while a
    processing slot is free. *)
Theorem admission_ceilings_hold (env : Env) (happenings : list Happening) (w : World) :
  admission_inv (adm w) ->
  exists w',
    run_happenings env happenings w = (Resolved tt, w') /\
    globalRequestCount (adm w') <= GLOBAL_RATE_LIMIT /\
    processingRequests (adm w') <= MAX_CONCURRENT_REQUESTS /\
    queueLength (adm w') <= MAX_QUEUE_SIZE /\
    (requestQueue (adm w') <> [] ->
     processingRequests (adm w') = MAX_CONCURRENT_REQUESTS).
Proof. apply run_happenings_inv. Qed.

Lemma admission_ceilings_hold_witness :
  exists w',
    run_happenings steady_env busy_afternoon busy_world_with_redis = (Resolved tt, w') /\
    globalRequestCount (adm w') <= GLOBAL_RATE_LIMIT /\
    processingRequests (adm w') <= MAX_CONCURRENT_REQUESTS /\
    queueLength (adm w') <= MAX_QUEUE_SIZE /\
    (requestQueue (adm w') <> [] ->
     processingRequests (adm w') = MAX_CONCURRENT_REQUESTS).
Proof.
  apply (admission_ceilings_hold steady_env busy_afternoon busy_world_with_redis).
  vm_compute. repeat split; try discriminate.
Defined.

(** ** The global rate limiter and the per-IP limiter *)

(** X21: the global limiter rejects exactly when 180 requests have been
    counted in a window that began less than a second ago; the rejection
    is a 429 whose [retryAfter] is always 1 and which is not counted.  A
    request that passes is counted, from 0 again if the window is over. *)
Theorem globalRateLimiter_window (req : Request) (w : World) :
  globalWindowStart (adm w) <= now w ->
  exists s w',
    globalRateLimiter req w = (Resolved s, w') /\
    (s = Stop <->
     now w - globalWindowStart (adm w) < GLOBAL_WINDOW_MS /\
     GLOBAL_RATE_LIMIT <= globalRequestCount (adm w)) /\
    (s = Stop ->
     sent <$> (responses (adm w') !! reqId req)
     = Some (Some {| status := 429; body := GlobalRateLimitExceeded 1 |}) /\
     globalRequestCount (adm w') = globalRequestCount (adm w) /\
     globalWindowStart (adm w') = globalWindowStart (adm w)) /\
    (s = Next ->
     if GLOBAL_WINDOW_MS <=? now w - globalWindowStart (adm w)
     then globalRequestCount (adm w') = 1 /\ globalWindowStart (adm w') = now w
     else globalRequestCount (adm w') = globalRequestCount (adm w) + 1 /\
          globalWindowStart (adm w') = globalWindowStart (adm w)).
Proof.
  intros Hclock. unfold globalRateLimiter.
  destruct w as [t ra rd rc rs md mc ic cb mo ti [g gs ac cr q pr qr rsp dsp]].
  adm_setters. unfold GLOBAL_WINDOW_MS, GLOBAL_RATE_LIMIT in *.
  destruct (Z.leb_spec 1000 (t - gs)) as [Hover|Hin]; simpl.
  - eexists _, _. split; [reflexivity|].
    split; [split; [discriminate|lia]|]. split; [discriminate|].
    intros _. split; reflexivity.
  - destruct (Z.leb_spec 180 g) as [Hfull|Hroom]; simpl.
    + eexists _, _. split; [reflexivity|].
      split; [split; [intros _; lia|reflexivity]|]. split; [|discriminate].
      intros _. simpl. rewrite lookup_insert_eq. simpl.
      split; [|split; reflexivity].
      do 4 f_equal. unfold ceil_seconds.
      assert (H : (- (gs + 1000 - t)) / 1000 = -1)
        by (symmetry; apply (Z.div_unique _ 1000 (-1) (t - gs)); lia).
      rewrite H. reflexivity.
    + eexists _, _. split; [reflexivity|].
      split; [split; [discriminate|lia]|]. split; [discriminate|].
      intros _. split; reflexivity.
Qed.

Lemma globalRateLimiter_window_witness :
  exists s w',
    globalRateLimiter (ordinary_request 1) saturated_world = (Resolved s, w') /\
    s = Stop /\
    sent <$> (responses (adm w') !! 1%nat)
    = Some (Some {| status := 429; body := GlobalRateLimitExceeded 1 |}).
Proof.
  destruct (globalRateLimiter_window (ordinary_request 1) saturated_world
              ltac:(simpl; lia)) as (s & w' & Heq & Hiff & Hstop & _).
  assert (Hs : s = Stop) by (apply Hiff; split; [reflexivity|discriminate]).
  exists s, w'. split; [exact Heq|]. split; [exact Hs|]. apply Hstop, Hs.
Defined.

(** A full bucket read at the time it was filled is still full, whatever
    the finite rate. *)
Lemma refill_full_bucket (rps burst : float) (t : Z) :
  fvalue rps <> None ->
  fle (of_Z 1) (fadd rps burst) = true ->
  refill rps burst t (fadd rps burst) t = fadd rps burst.
Proof.
  intros Hfin Hcap. unfold refill. rewrite Z.sub_diag.
  change (fmax (of_Z 0) (fdiv (of_Z 0) (of_Z 1000))) with (S754_zero false).
  set (cap := fadd rps burst) in *.
  assert (Hz : exists s, fmul (S754_zero false) rps = S754_zero s).
  { destruct rps as [s|s| |s m e]; simpl in Hfin; try congruence; simpl; eauto. }
  destruct Hz as (s & ->).
  destruct cap as [sc|sc| |sc mc ec] eqn:Ec; try discriminate Hcap.
  - destruct sc; [discriminate Hcap|]. reflexivity.
  - assert (Hrefl : fle (S754_finite sc mc ec) (S754_finite sc mc ec) = true)
      by (apply fle_refl; discriminate).
    unfold fadd, SFadd, fmin. rewrite Hrefl. reflexivity.
Qed.

(** Without an answer from Redis the bucket is taken to be full. *)
Lemma checkRateLimit_without_redis env ip rps burst w :
  (redisAvailable w = false \/
   exists lat e, redisOutcome env (redisCalls w) = RReject lat e) ->
  fvalue rps <> None ->
  fle (of_Z 1) (fadd rps burst) = true ->
  exists rl w',
    checkRateLimit env ip rps burst w = (Resolved rl, w') /\
    only_redis w w' /\
    allowed rl = true /\
    tokens rl = fsub (fadd rps burst) (of_Z 1).
Proof.
  intros Hdown Hfin Hcap.
  destruct (checkRateLimit_only_redis env ip rps burst w) as (rl & w' & Heq & Hfr).
  exists rl, w'. split; [exact Heq|]. split; [exact Hfr|].
  revert Heq. unfold checkRateLimit. js_unfold.
  assert (Hget : exists w1, cacheService_get env ("tb:" +:+ ip) w = (Resolved JNull, w1)).
  { unfold cacheService_get, redis_get, redis_command. js_unfold.
    destruct Hdown as [->|(lat & e & Ho)]; simpl; [eauto|].
    destruct (redisAvailable w); simpl; [|eauto]. rewrite Ho. simpl. eauto. }
  destruct Hget as (w1 & ->). cbn [truthy]. cbv beta iota.
  rewrite (refill_full_bucket rps burst (now w) Hfin Hcap). rewrite Hcap.
  match goal with
  | |- context [cacheService_set env ?k ?v ?ttl w1] =>
      destruct (cacheService_set_only_redis env k v ttl w1) as (b & w2 & -> & _)
  end.
  intros [= <- _]. cbn [allowed tokens]. split; reflexivity.
Qed.

(** X22: the per-IP limiter fails open.  When Redis is marked unavailable,
    or rejects the read of the bucket, the request is let through (the
    bucket is taken to be full), and none of the admission counters is
    touched.  The rate is a finite number and the capacity at least 1. *)
Theorem rateLimiter_fails_open (env : Env) (options : RateLimiterOptions)
        (req : Request) (w : World) :
  (redisAvailable w = false \/
   exists lat e, redisOutcome env (redisCalls w) = RReject lat e) ->
  fvalue (max options) <> None ->
  fle (of_Z 1) (fadd (max options) (default (of_Z 800) (burstCapacity options))) = true ->
  exists w',
    rateLimiter env options req w = (Resolved Next, w') /\
    same_counters w w' /\
    sent (default new_Response (responses (adm w') !! reqId req))
    = sent (default new_Response (responses (adm w) !! reqId req)).
Proof.
  intros Hdown Hfin Hcap. unfold rateLimiter. js_unfold.
  destruct (checkRateLimit_without_redis env (clientIp req) (max options)
              (default (of_Z 800) (burstCapacity options)) w Hdown Hfin Hcap)
    as (rl & w1 & -> & H1 & Hallowed & _).
  apply only_redis_adm in H1.
  adm_setters. rewrite Hallowed.
  destruct (standardHeaders options), (legacyHeaders options); simpl;
    (eexists; split; [reflexivity|]);
    (split; [unfold same_counters; simpl; rewrite H1; repeat split|]);
    simpl; rewrite ?lookup_insert_eq, ?H1; simpl; reflexivity.
Qed.

Lemma rateLimiter_fails_open_witness :
  exists w',
    rateLimiter steady_env app_rateLimiter_options (ordinary_request 1) (initial_world 0)
    = (Resolved Next, w') /\
    same_counters (initial_world 0) w' /\
    sent (default new_Response (responses (adm w') !! 1%nat)) = None.
Proof.
  apply (rateLimiter_fails_open steady_env app_rateLimiter_options (ordinary_request 1)
           (initial_world 0)).
  - left. reflexivity.
  - discriminate.
  - reflexivity.
Defined.

(** ** The controller's validation *)

Lemma toLowerCase_length s : String.length (toLowerCase s) = String.length s.
Proof. induction s as [|c s IH]; simpl; [reflexivity|rewrite IH; reflexivity]. Qed.

Lemma lower_unit_class c :
  in_validPattern_class (lower_unit c) = true -> in_validPattern_class c = true.
Proof.
  destruct c as [[] [] [] [] [] [] [] []]; vm_compute; intros H; exact H || reflexivity.
Qed.

Lemma toLowerCase_class s :
  forallb in_validPattern_class (list_ascii_of_string (toLowerCase s)) = true ->
  forallb in_validPattern_class (list_ascii_of_string s) = true.
Proof.
  induction s as [|c s IH]; simpl; [reflexivity|].
  intros H. apply andb_true_iff in H as [Hc Hs].
  rewrite (lower_unit_class c Hc), (IH Hs). reflexivity.
Qed.

(** A reserved word in any mix of upper and lower case passes the length
    and character checks, and is caught by the third. *)
Lemma reserved_word_is_invalid s :
  In (toLowerCase s) reservedWords ->
  validateCustomShortId s
  = Invalid "This custom short ID is reserved and cannot be used".
Proof.
  intros Hin. unfold validateCustomShortId.
  assert (Hlen : (3 <= String.length s <= 20)%nat).
  { rewrite <- toLowerCase_length.
    unfold reservedWords in Hin. simpl in Hin.
    repeat destruct Hin as [<-|Hin]; simpl; try lia; try contradiction. }
  assert (Hl : ((String.length s <? 3) || (20 <? String.length s))%nat = false).
  { apply orb_false_iff. split; apply Nat.ltb_ge; lia. }
  rewrite Hl.
  assert (Hpat : validPattern_test s = true).
  { unfold validPattern_test. apply andb_true_iff. split.
    - apply negb_true_iff, String.eqb_neq. intros ->. simpl in Hlen. lia.
    - apply toLowerCase_class.
      unfold reservedWords in Hin. simpl in Hin.
      repeat destruct Hin as [<-|Hin]; try reflexivity; try contradiction. }
  rewrite Hpat. simpl negb. cbv iota.
  assert (Hres : existsb (String.eqb (toLowerCase s)) reservedWords = true).
  { apply existsb_exists. exists (toLowerCase s). split; [exact Hin|].
    apply String.eqb_refl. }
  rewrite Hres. reflexivity.
Qed.

(** X23: a custom code that is one of the reserved words (api, health,
    metrics, admin, create, shorten), in any mix of upper and lower case,
    is refused by the controller with status 400 before the service is
    called: nothing is sent to MongoDB or Redis. *)
Theorem reserved_custom_code_is_refused (env : Env) (APP_URL url s : string)
        (w : World) :
  url <> "" ->
  In (toLowerCase s) reservedWords ->
  createShortUrl env APP_URL url (Some s) w
  = (Resolved (json_400 "This custom short ID is reserved and cannot be used"), w).
Proof.
  intros Hurl Hin. unfold createShortUrl.
  assert (Hb : (url =? "")%string = false) by (apply String.eqb_neq, Hurl).
  rewrite Hb.
  assert (Hgiven : given (Some s) = true).
  { simpl. apply negb_true_iff, String.eqb_neq. intros ->.
    unfold reservedWords in Hin. simpl in Hin.
    repeat destruct Hin as [Hin|Hin]; try discriminate; try contradiction. }
  rewrite Hgiven. cbn [default]. unfold id.
  rewrite (reserved_word_is_invalid s Hin). reflexivity.
Qed.

Lemma reserved_custom_code_is_refused_witness :
  createShortUrl steady_env "https://sho.rt" "https://example.com" (Some "Health")
    healthy_world
  = (Resolved (json_400 "This custom short ID is reserved and cannot be used"),
     healthy_world).
Proof.
  apply reserved_custom_code_is_refused.
  - discriminate.
  - vm_compute. auto.
Defined.

(** ** Health reports *)

Lemma only_redis_singletons w w' :
  only_redis w w' -> breaker w' = breaker w /\ monitor w' = monitor w.
Proof. unfold only_redis. intros ->. split; reflexivity. Qed.

(** X24: the cache health check never fails and never reports
    "unhealthy": it answers with a report whose breaker and monitor parts
    are the current ones, and touches nothing but Redis.  Its Redis part is
    "degraded" whenever the key [health:check] holds no value, also when
    Redis answers. *)
Theorem healthCheck_reports (env : Env) (w : World) :
  exists rh w',
    healthCheck env w
    = (Resolved (health_report rh (getState (breaker w)) (getMetrics (monitor w))
                               (now w')), w') /\
    only_redis w w' /\
    (redis_lookup (now w) (redisData w) "health:check" = None ->
     rh = redis_degraded "Cache not responding").
Proof.
  unfold healthCheck. js_unfold.
  destruct (cacheService_get_value env "health:check" w) as (v & w1 & -> & H1 & Hv).
  assert (Hping : exists p w2, cacheService_ping env w1 = (Resolved p, w2) /\
                               only_redis w1 w2).
  { unfold cacheService_ping, redis_ping.
    apply (wrapper_only_redis env (fun _ d => inr ("PONG", d)) Some None w1). }
  destruct Hping as (p & w2 & Hping & H2).
  destruct (is_JNull v) eqn:Hnull; simpl.
  - destruct (only_redis_singletons _ _ H1) as (<- & <-).
    eexists _, _. split; [reflexivity|]. split; [exact H1|reflexivity].
  - rewrite Hping. simpl.
    pose proof (only_redis_trans _ _ _ H1 H2) as H12.
    destruct (only_redis_singletons _ _ H12) as (<- & <-).
    eexists _, _. split; [reflexivity|]. split; [exact H12|].
    intros Hnone. destruct Hv as [->|(ex & Hex)]; [discriminate|congruence].
Qed.

(** ** MongoDB health and connection *)

(** X25: a rejected ping makes [checkMongoHealth] report "unhealthy" with
    the error, count the failure and mark the connection unhealthy; from
    then on every check reports "unhealthy" without sending a ping.  After
    mongoose's ['reconnected'] event the ping is sent again, and when it is
    answered the report is "healthy" with no failure counted. *)
Theorem checkMongoHealth_is_sticky (env : Env) (h : MongoConfig.ConnectionHealth)
        (lat : nat) (e : Err) (w : World) :
  MongoConfig.isHealthy h = true ->
  mongoOutcome env (mongoCalls w) = MReject lat e ->
  exists h' w',
    checkMongoHealth env h w
    = (Resolved (MongoConfig.unhealthy (message e)
                   (MongoConfig.consecutiveFailures h + 1) (MongoConfig.lastCheck h),
                 h'), w') /\
    MongoConfig.isHealthy h' = false /\
    (forall w2,
       checkMongoHealth env h' w2
       = (Resolved (MongoConfig.unhealthy "MongoDB connection is not healthy"
                      (MongoConfig.consecutiveFailures h + 1) (MongoConfig.lastCheck h),
                    h'), w2)) /\
    (forall t lat2 w2,
       mongoOutcome env (mongoCalls w2) = MReply lat2 ->
       exists w3,
         checkMongoHealth env (MongoConfig.on_reconnected t h') w2
         = (Resolved (MongoConfig.healthy (MongoConfig.totalConnections h)
                        (MongoConfig.activeConnections h) t 0,
                      MongoConfig.on_reconnected t h'), w3) /\
         mongoCalls w3 = S (mongoCalls w2)).
Proof.
  intros Hh Ho. unfold checkMongoHealth at 1. rewrite Hh. cbn [negb].
  unfold admin_ping, mongo_command. js_unfold. rewrite Ho. cbv beta iota.
  eexists _, _. split; [reflexivity|]. split; [reflexivity|]. split.
  - intros w2. reflexivity.
  - intros t lat2 w2 Ho2. unfold checkMongoHealth, admin_ping, mongo_command. js_unfold.
    cbn [MongoConfig.on_reconnected MongoConfig.isHealthy negb].
    rewrite Ho2. simpl. eexists. split; reflexivity.
Qed.

Lemma checkMongoHealth_is_sticky_witness :
  exists h' w',
    checkMongoHealth
      {| redisOutcome := redisOutcome steady_env;
         mongoOutcome := fun _ => MReject 3 (Error "connection pool closed");
         nanoid := nanoid steady_env;
         isoDate := isoDate steady_env |}
      (MongoConfig.on_reconnected 10 (MongoConfig.initial 0)) healthy_world
    = (Resolved (MongoConfig.unhealthy "connection pool closed" (0 + 1) 10, h'), w') /\
    MongoConfig.isHealthy h' = false.
Proof.
  destruct (checkMongoHealth_is_sticky
              {| redisOutcome := redisOutcome steady_env;
                 mongoOutcome := fun _ => MReject 3 (Error "connection pool closed");
                 nanoid := nanoid steady_env;
                 isoDate := isoDate steady_env |}
              (MongoConfig.on_reconnected 10 (MongoConfig.initial 0)) 3
              (Error "connection pool closed") healthy_world eq_refl eq_refl)
    as (h' & w' & Heq & Hun & _).
  exists h', w'. split; [exact Heq|exact Hun].
Defined.

(** X26: GET /health never fails, and answers 200 exactly when the Redis
    ping is answered, the connection record says healthy, the MongoDB ping
    is answered and mongoose is connected; every other answer is 503. *)
Theorem health_endpoint_status (env : Env) (h : MongoConfig.ConnectionHealth)
        (w : World) :
  (forall e, fst (health_endpoint env h w) <> Rejected e) /\
  (forall st h' w', health_endpoint env h w = (Resolved (st, h'), w') ->
                    st = 200 \/ st = 503) /\
  ((exists h' w', health_endpoint env h w = (Resolved (200, h'), w')) <->
   (exists lat, redisOutcome env (redisCalls w) = RReply lat) /\
   MongoConfig.isHealthy h = true /\
   (exists lat, mongoOutcome env (mongoCalls w) = MReply lat) /\
   readyState w = 1).
Proof.
  unfold health_endpoint, checkMongoHealth, admin_ping, redis_ping, redis_command,
         mongo_command.
  js_unfold.
  destruct (redisOutcome env (redisCalls w)) as [rlat|rlat re] eqn:Hr; simpl.
  2: { split; [discriminate|]. split.
       - intros st h' w' [= <- _ _]. right. reflexivity.
       - split; [intros (h' & w' & [=])|intros ((lat & [=]) & _)]. }
  destruct (MongoConfig.isHealthy h) eqn:Hh; simpl.
  2: { split; [discriminate|]. split.
       - intros st h' w' [= <- _ _]. right. reflexivity.
       - split; [intros (h' & w' & [=])|intros (_ & [=] & _)]. }
  destruct (mongoOutcome env (mongoCalls w)) as [mlat|mlat me|] eqn:Hm; simpl.
  - destruct (Z.eqb_spec (readyState w) 1) as [Hrs|Hrs]; simpl.
    + split; [discriminate|]. split.
      * intros st h' w' [= <- _ _]. left. reflexivity.
      * split; [intros _; eauto 10|intros _; eauto].
    + split; [discriminate|]. split.
      * intros st h' w' [= <- _ _]. right. reflexivity.
      * split; [intros (h' & w' & [=])|intros (_ & _ & _ & Hc); contradiction].
  - split; [discriminate|]. split.
    + intros st h' w' [= <- _ _]. right. reflexivity.
    + split; [intros (h' & w' & [=])|intros (_ & _ & (lat & [=]) & _)].
  - split; [discriminate|]. split.
    + intros st h' w' [=].
    + split; [intros (h' & w' & [=])|intros (_ & _ & (lat & [=]) & _)].
Qed.

Lemma connectWithRetry_schedule connect : forall remaining k t h,
  exists n,
    (n <= remaining)%nat /\
    snd (MongoConfig.connectWithRetry connect remaining k t h)
    = map (fun j => MongoConfig.retry_delay
                      (MongoConfig.maxRetries - Z.of_nat remaining + 1 + Z.of_nat j))
          (seq 0 n) /\
    (forall j, (j < n)%nat -> fst (connect (k + j)%nat) = false) /\
    MongoConfig.isHealthy (fst (fst (MongoConfig.connectWithRetry connect remaining k t h)))
    = fst (connect (k + n)%nat) /\
    ((n < remaining)%nat -> fst (connect (k + n)%nat) = true).
Proof.
  intros left. induction left as [|left IH]; intros k t h.
  - exists 0%nat. simpl. rewrite Nat.add_0_r.
    destruct (fst (connect k)) eqn:Hc; simpl;
      (split; [lia|]; split; [reflexivity|]; split; [intros j Hj; lia|];
       split; [reflexivity|lia]).
  - simpl. destruct (fst (connect k)) eqn:Hc.
    + exists 0%nat. simpl. rewrite Nat.add_0_r.
      split; [lia|]. split; [reflexivity|]. split; [intros j Hj; lia|].
      split; [symmetry; exact Hc|intros _; exact Hc].
    + match goal with
      | |- context [MongoConfig.connectWithRetry connect left (S k) ?t1 ?h1] =>
          destruct (IH (S k) t1 h1) as (n & Hn & Hdel & Hfail & Hfin & Hok);
          destruct (MongoConfig.connectWithRetry connect left (S k) t1 h1)
            as [[hf tf] delays]
      end.
      simpl in *. exists (S n). split; [lia|]. split.
      * simpl. f_equal.
        -- f_equal. lia.
        -- rewrite Hdel, <- seq_shift, map_map. apply map_ext. intros j.
           f_equal. lia.
      * split.
        -- intros [|j] Hj; [rewrite Nat.add_0_r; exact Hc|].
           replace (k + S j)%nat with (S k + j)%nat by lia. apply Hfail. lia.
        -- replace (k + S n)%nat with (S k + n)%nat by lia.
           split; [exact Hfin|]. intros Hlt. apply Hok. lia.
Qed.

(** X27: [connectDB] tries to connect at most eleven times.  It stops at
    the first success; it waits 2 s, 4 s, 8 s, 16 s and then 30 s between
    two attempts, never more; and the connection is marked healthy at the
    end exactly when the last attempt made succeeded. *)
Theorem connectDB_retry_schedule (connect : nat -> bool * nat) (t : Z)
        (h : MongoConfig.ConnectionHealth) :
  exists n,
    (n <= 10)%nat /\
    snd (MongoConfig.connectDB connect t h)
    = firstn n [2000; 4000; 8000; 16000; 30000; 30000; 30000; 30000; 30000; 30000] /\
    (forall j, (j < n)%nat -> fst (connect j) = false) /\
    MongoConfig.isHealthy (fst (fst (MongoConfig.connectDB connect t h)))
    = fst (connect n) /\
    ((n < 10)%nat -> fst (connect n) = true).
Proof.
  unfold MongoConfig.connectDB.
  change (Z.to_nat MongoConfig.maxRetries) with 10%nat.
  destruct (connectWithRetry_schedule connect 10 0 t h)
    as (n & Hn & Hdel & Hfail & Hfin & Hok).
  exists n. split; [exact Hn|]. split; [|auto].
  rewrite Hdel.
  do 11 (destruct n as [|n]; [reflexivity|]). lia.
Qed.

(** ** Analytics *)

Lemma cacheService_get_reply env key lat w :
  redisAvailable w = true ->
  redisOutcome env (redisCalls w) = RReply lat ->
  cacheService_get env key w
  = (Resolved (default JNull (fst <$> redis_lookup (now w) (redisData w) key)),
     set_redisData (redisData w)
       (set_now (now w + Z.of_nat lat) (set_redisCalls (S (redisCalls w)) w))).
Proof.
  intros Hav Ho. unfold cacheService_get, redis_get, redis_command, parse_or_null.
  js_unfold. rewrite Hav. simpl. rewrite Ho. reflexivity.
Qed.

Lemma cacheService_set_reply env key v ttl lat w :
  redisAvailable w = true ->
  redisOutcome env (redisCalls w) = RReply lat ->
  cacheService_set env key v ttl w
  = (Resolved true,
     set_redisData (<[key := (v, Some (now w + ttl * 1000))]> (redisData w))
       (set_now (now w + Z.of_nat lat) (set_redisCalls (S (redisCalls w)) w))).
Proof.
  intros Hav Ho. unfold cacheService_set, redis_setex, redis_command.
  js_unfold. rewrite Hav. simpl. rewrite Ho. reflexivity.
Qed.

(** [incr] touches its own key only, and with a Redis that answers within
    its command timeout it takes less than two such timeouts. *)
Lemma cacheService_incr_frame env key ttl w :
  redisAvailable w = true ->
  (forall n, exists lat, redisOutcome env n = RReply lat /\ Z.of_nat lat < 2000) ->
  exists r w',
    cacheService_incr env key ttl w = (Resolved r, w') /\
    redisAvailable w' = true /\
    now w <= now w' < now w + 4000 /\
    (forall k, k <> key -> redisData w' !! k = redisData w !! k).
Proof.
  intros Hav Hall.
  destruct (Hall (redisCalls w)) as (lat1 & Ho1 & Hlat1).
  destruct (Hall (S (redisCalls w))) as (lat2 & Ho2 & Hlat2).
  unfold cacheService_incr, redis_incr, redis_expire, redis_command. js_unfold.
  rewrite Hav. simpl. rewrite Ho1.
  destruct (redis_lookup (now w) (redisData w) key) as [[v ex]|] eqn:Hl; simpl.
  - destruct v; simpl;
      try (eexists _, _; split; [reflexivity|]; simpl;
           split; [exact Hav|]; split; [lia|]; intros k Hk; reflexivity).
    destruct (n + 1 =? 1) eqn:Hn; simpl.
    + rewrite Ho2. simpl.
      unfold redis_lookup at 1. rewrite lookup_insert_eq.
      destruct ex as [ex|]; simpl.
      * destruct (now w + Z.of_nat lat1 <? ex); simpl;
          (eexists _, _; split; [reflexivity|]; simpl;
           split; [exact Hav|]; split; [lia|]; intros k Hk;
           rewrite ?lookup_insert_ne by congruence; reflexivity).
      * eexists _, _; split; [reflexivity|]; simpl.
        split; [exact Hav|]. split; [lia|]. intros k Hk.
        rewrite !lookup_insert_ne by congruence. reflexivity.
    + eexists _, _; split; [reflexivity|]; simpl.
      split; [exact Hav|]. split; [lia|]. intros k Hk.
      rewrite lookup_insert_ne by congruence. reflexivity.
  - rewrite Ho2. simpl.
    unfold redis_lookup at 1. rewrite lookup_insert_eq. simpl.
    eexists _, _; split; [reflexivity|]; simpl.
    split; [exact Hav|]. split; [lia|]. intros k Hk.
    rewrite !lookup_insert_ne by congruence. reflexivity.
Qed.

(** X28: with a Redis that answers every command within its timeout,
    [incrementClicks] (run on every cache hit) adds one to the total and to
    the day's count of the analytics record of the code, starting from an
    empty record when there is none, and [getAnalytics] then reads that
    record back. *)
Theorem incrementClicks_then_getAnalytics (env : Env) (code : string)
        (total : Z) (daily : gmap string Z) (w : World) :
  redisAvailable w = true ->
  (forall n, exists lat, redisOutcome env n = RReply lat /\ Z.of_nat lat < 2000) ->
  (redisData w !! ("analytics:" +:+ code) = None /\ total = 0 /\ daily = ∅) \/
  (exists ex, redisData w !! ("analytics:" +:+ code)
              = Some (JAnalytics total daily, Some ex) /\ now w + 4000 <= ex) ->
  exists w',
    (incrementClicks env code;; getAnalytics env code) w
    = (Resolved (JAnalytics (total + 1)
                   (<[isoDate env (now w)
                      := default 0 (daily !! isoDate env (now w)) + 1]> daily)), w').
Proof.
  intros Hav Hall Hrec.
  unfold incrementClicks, getAnalytics, CACHE_KEYS_ANALYTICS. js_unfold.
  set (today := isoDate env (now w)).
  destruct (cacheService_incr_frame env (CACHE_KEYS_DAILY_CLICKS code today)
              CACHE_TTL_DAILY_CLICKS w Hav Hall)
    as (r & w1 & -> & Hav1 & Hnow1 & Hframe).
  assert (Hkey : "analytics:" +:+ code <> CACHE_KEYS_DAILY_CLICKS code today)
    by (unfold CACHE_KEYS_DAILY_CLICKS; discriminate).
  specialize (Hframe _ Hkey).
  destruct (Hall (redisCalls w1)) as (lat2 & Ho2 & Hlat2).
  rewrite (cacheService_get_reply env _ lat2 w1 Hav1 Ho2).
  assert (Hgot : default JNull (fst <$> redis_lookup (now w1) (redisData w1)
                                          ("analytics:" +:+ code))
                 = (if decide (redisData w !! ("analytics:" +:+ code) = None)
                    then JNull else JAnalytics total daily)).
  { unfold redis_lookup. rewrite Hframe.
    destruct Hrec as [(-> & _)|(ex & -> & Hex)].
    - reflexivity.
    - assert (Hvis : (now w1 <? ex) = true) by (apply Z.ltb_lt; lia).
      rewrite Hvis. reflexivity. }
  rewrite Hgot.
  assert (Hrecord : (if truthy (if decide (redisData w !! ("analytics:" +:+ code) = None)
                                then JNull else JAnalytics total daily)
                     then (if decide (redisData w !! ("analytics:" +:+ code) = None)
                           then JNull else JAnalytics total daily)
                     else JAnalytics 0 ∅) = JAnalytics total daily).
  { destruct Hrec as [(Hn & -> & ->)|(ex & Hs & _)].
    - rewrite decide_True by exact Hn. reflexivity.
    - rewrite decide_False by congruence. reflexivity. }
  rewrite Hrecord. cbv beta iota.
  match goal with
  | |- context [cacheService_set env ?k ?v ?ttl ?w2] =>
      destruct (Hall (redisCalls w2)) as (lat3 & Ho3 & Hlat3);
      rewrite (cacheService_set_reply env k v ttl lat3 w2 Hav1 Ho3)
  end.
  cbv beta iota.
  match goal with
  | |- context [cacheService_get env ?k ?w3] =>
      destruct (Hall (redisCalls w3)) as (lat4 & Ho4 & Hlat4);
      rewrite (cacheService_get_reply env k lat4 w3 Hav1 Ho4)
  end.
  cbn [now redisData set_redisData set_now set_redisCalls].
  unfold redis_lookup. rewrite lookup_insert_eq.
  unfold CACHE_TTL_ANALYTICS.
  assert (Hvis : (now w1 + Z.of_nat lat2 + Z.of_nat lat3
                  <? now w1 + Z.of_nat lat2 + 600 * 1000) = true)
    by (apply Z.ltb_lt; lia).
  rewrite Hvis. simpl. eexists. reflexivity.
Qed.

Lemma incrementClicks_then_getAnalytics_witness :
  exists w',
    (incrementClicks steady_env "V1StGXR8";; getAnalytics steady_env "V1StGXR8")
      healthy_world
    = (Resolved (JAnalytics (0 + 1)
                   (<["2024-05-17" := default 0 ((∅ : gmap string Z) !! "2024-05-17") + 1]>
                      ∅)), w').
Proof.
  apply (incrementClicks_then_getAnalytics steady_env "V1StGXR8" 0 ∅ healthy_world).
  - reflexivity.
  - intros n. exists 1%nat. split; [reflexivity|lia].
  - left. split; [reflexivity|]. split; reflexivity.
Defined.

(** ** What a lookup records in the monitor *)

Lemma getShortUrl_try_block_monitor env code w :
  exists r w',
    getShortUrl_try_block env code (now w) w = (r, w') /\
    r <> Pending /\
    ((exists v, r = Resolved v /\ truthy v = true /\
                monitor w' = recordResponseTime (now w' - now w)
                               (recordCacheHit (monitor w))) \/
     (exists v, r = Resolved v /\
                monitor w' = recordResponseTime (now w' - now w)
                               (recordCacheMiss (monitor w))) \/
     (exists e, r = Rejected e /\
                (monitor w' = monitor w \/ monitor w' = recordCacheMiss (monitor w)))).
Proof.
  unfold getShortUrl_try_block, record_elapsed. js_unfold.
  destruct (cache_lookup_cases env (CACHE_KEYS_SHORT_URL code) w)
    as (r & w1 & -> & Hnp & Hc1).
  destruct (only_cache_fields _ _ Hc1) as (_ & _ & _ & _ & _ & Hmon1 & _ & _).
  destruct r as [urlData|e|]; [| |congruence].
  2: { eexists _, _. split; [reflexivity|]. split; [discriminate|].
       right. right. exists e. split; [reflexivity|]. left. exact Hmon1. }
  destruct (truthy urlData) eqn:Ht.
  - cbv beta iota.
    set (w2 := set_monitor (recordCacheHit (monitor w1)) w1).
    destruct (incrementClicks_only_redis env code w2) as (w3 & Hinc & H3).
    unfold detached. rewrite Hinc. cbv beta iota.
    apply only_redis_cache, only_cache_fields in H3.
    destruct H3 as (_ & _ & _ & _ & _ & Hmon3 & _ & _).
    eexists _, _. split; [reflexivity|]. split; [discriminate|].
    left. exists urlData. split; [reflexivity|]. split; [exact Ht|].
    subst w2. simpl. rewrite Hmon3. simpl. rewrite Hmon1. reflexivity.
  - cbv beta iota.
    set (w2 := set_monitor (recordCacheMiss (monitor w1)) w1).
    destruct (race_getShortUrlFromDB_cases env code 3000 "DB timeout" w2)
      as (r & w3 & -> & Hnp3 & Hfr3 & _ & _ & _).
    destruct (only_mongo_fields _ _ Hfr3) as (_ & _ & _ & _ & _ & _ & Hmon3 & _ & _).
    assert (Hmon2 : monitor w2 = recordCacheMiss (monitor w))
      by (subst w2; destruct w1; simpl in *; rewrite Hmon1; reflexivity).
    destruct r as [v|e|]; [| |congruence].
    + assert (Hfin : exists w4,
          (if truthy v
           then detached (cacheService_set env (CACHE_KEYS_SHORT_URL code) v
                            CACHE_TTL_SHORT_URL)
           else (fun w => (Resolved tt, w))) w3 = (Resolved tt, w4) /\
          only_cache w3 w4).
      { destruct (truthy v).
        - destruct (cacheService_set_only_redis env (CACHE_KEYS_SHORT_URL code) v
                      CACHE_TTL_SHORT_URL w3) as (b & w4 & Hset & H4).
          unfold detached. rewrite Hset. eexists; split; [reflexivity|].
          apply only_cache_set_now, only_redis_cache. exact H4.
        - eexists; split; [reflexivity|apply only_cache_refl]. }
      destruct Hfin as (w4 & -> & H4).
      destruct (only_cache_fields _ _ H4) as (_ & _ & _ & _ & _ & Hmon4 & _ & _).
      eexists _, _. split; [reflexivity|]. split; [discriminate|].
      right. left. exists v. split; [reflexivity|].
      simpl. rewrite Hmon4, Hmon3, Hmon2. reflexivity.
    + eexists _, _. split; [reflexivity|]. split; [discriminate|].
      right. right. exists e. split; [reflexivity|]. right.
      rewrite Hmon3, Hmon2. reflexivity.
Qed.

Lemma getShortUrl_catch_block_monitor env code startTime w :
  exists v w',
    getShortUrl_catch_block env code startTime w = (Resolved v, w') /\
    monitor w' = recordResponseTime (now w' - startTime)
                   (recordDbFallback (recordRedisError (monitor w))).
Proof.
  unfold getShortUrl_catch_block, record_elapsed. js_unfold.
  set (w0 := set_monitor (recordDbFallback (monitor (set_monitor
                (recordRedisError (monitor w)) w))) (set_monitor
                (recordRedisError (monitor w)) w)).
  destruct (race_getShortUrlFromDB_cases env code 2500 "Fallback timeout" w0)
    as (r & w1 & Heq & Hnp & Hfr & _).
  cbv beta iota. fold w0. rewrite Heq.
  destruct (only_mongo_fields _ _ Hfr) as (_ & _ & _ & _ & _ & _ & Hmon & _ & _).
  assert (Hmon0 : monitor w0 = recordDbFallback (recordRedisError (monitor w)))
    by (subst w0; destruct w; reflexivity).
  destruct r as [v|e|]; [| |congruence];
    (eexists _, _; split; [reflexivity|]);
    simpl; rewrite Hmon, Hmon0; reflexivity.
Qed.

(** X29: every lookup is accounted for in the monitor in one of four ways,
    and records exactly one response time, the time the lookup took: as a
    cache hit; as a cache miss; as a Redis error with a database fallback;
    or, when the cache read was a miss and the database read of the [try]
    block then failed, as a miss and a Redis error with a fallback. *)
Theorem getShortUrl_monitor_accounting (env : Env) (code : string) (w : World) :
  exists v w' m,
    urlCacheService_getShortUrl env code w = (Resolved v, w') /\
    monitor w' = recordResponseTime (now w' - now w) m /\
    ((m = recordCacheHit (monitor w) /\ truthy v = true) \/
     m = recordCacheMiss (monitor w) \/
     m = recordDbFallback (recordRedisError (monitor w)) \/
     m = recordDbFallback (recordRedisError (recordCacheMiss (monitor w)))).
Proof.
  unfold urlCacheService_getShortUrl. js_unfold.
  destruct (getShortUrl_try_block_monitor env code w)
    as (r & w1 & -> & Hnp & [(v & -> & Ht & Hm)|[(v & -> & Hm)|(e & -> & Hm)]]).
  - eexists _, _, _. split; [reflexivity|]. split; [exact Hm|]. left. auto.
  - eexists _, _, _. split; [reflexivity|]. split; [exact Hm|]. right. left. reflexivity.
  - destruct (getShortUrl_catch_block_monitor env code (now w) w1)
      as (v & w2 & -> & Hm2).
    eexists _, _, _. split; [reflexivity|]. split; [exact Hm2|].
    right. right. destruct Hm as [->| ->]; [left|right]; reflexivity.
Qed.
